(** * Resource pool and circuit breaker: a shallow embedding

    This development embeds two classes of the repository,

    - [services/shared/lib/circuitBreaker.mjs] (module [Breaker]) and
    - [services/shared/lib/browserPool.mjs]    (module [Pool]),

    and states the properties of the specification over them. The code
    comes first ([Breaker], [JsMap], [Pool]), then the predicates and the
    sample runs the statements use ([BreakerSpec], [PoolSpec]), then the
    proofs ([BreakerFacts], [PoolFacts]).

    Around the two classes it embeds what they rest on and what calls
    them: the rest of the breaker ([BreakerMore]: the middleware, the
    metrics report), the retry loop of the MyDorway bot over the breaker
    ([Retry], from [services/uitax-bot/index.mjs]), the logger both
    classes write to ([Logger], from [services/shared/lib/logger.mjs]) and
    the metrics report of the pool ([PoolMore]); with their vocabulary
    ([BreakerMoreSpec], [PoolMoreSpec], [RetrySpec], [LoggerSpec]) and
    their properties ([BreakerMoreFacts], [PoolMoreFacts], [RetryFacts],
    [LoggerFacts]).

    Conventions shared by the modules.

    - JavaScript numbers that hold counters and millisecond clock readings
      are integers in the code paths embedded here and are modelled by [Z].
    - [Date.now()] is an input: every synchronous block of the source
      receives the clock reading it observes as an argument.
    - An [async] method is cut at the [await]s that matter: the code between
      two awaits runs without interruption (one JavaScript job), so it is one
      function on the object's state; a whole call is the composition of its
      segments.
    - What the outside does (the guarded operation, the browser driver) is not
      code of the repository; its answers are arguments of the segments.
    - In [Breaker] and [Pool], logging and [EventEmitter.emit] produce output
      only and are left out; listeners are assumed not to call back into the
      emitting object. *)

From Stdlib Require Import ZArith Lia Bool.
From stdpp Require Import base option list gmap strings.

(* ===================================================================== *)
(** * The circuit breaker                                                 *)
(* ===================================================================== *)

Module Breaker.

Local Open Scope Z_scope.

(** [const State = { CLOSED, OPEN, HALF_OPEN }] *)
Inductive State : Type := CLOSED | OPEN | HALF_OPEN.

#[global] Instance State_eq_dec : EqDecision State.
Proof. solve_decision. Defined.

(** [this.config]; every field is a number. *)
Record Config : Type := mkConfig {
  threshold : Z;
  timeout : Z;
  resetTimeout : Z;
  volumeThreshold : Z;
  errorThresholdPercentage : Z;
  rollingWindowSize : Z;
  sleepWindow : Z
}.

(** The [options] argument of the constructor: a key is present or not. *)
Record Options : Type := mkOptions {
  opt_threshold : option Z;
  opt_timeout : option Z;
  opt_resetTimeout : option Z;
  opt_volumeThreshold : option Z;
  opt_errorThresholdPercentage : option Z;
  opt_rollingWindowSize : option Z;
  opt_sleepWindow : option Z
}.

Definition no_options : Options :=
  mkOptions None None None None None None None.

(** [{ threshold: options.threshold || 5, ..., ...options }]: the spread at
    the end writes every present key again, so a present key wins whatever
    its value and the [||] default only serves an absent key. *)
Definition config_of_options (o : Options) : Config :=
  {| threshold := default 5 (opt_threshold o);
     timeout := default 60000 (opt_timeout o);
     resetTimeout := default 30000 (opt_resetTimeout o);
     volumeThreshold := default 10 (opt_volumeThreshold o);
     errorThresholdPercentage := default 50 (opt_errorThresholdPercentage o);
     rollingWindowSize := default 10000 (opt_rollingWindowSize o);
     sleepWindow := default 5000 (opt_sleepWindow o) |}.

(** An entry of [this.requestWindow]. *)
Record Request : Type := mkRequest {
  timestamp : Z;
  success : bool
}.

(** An entry of [this.metrics.stateChanges]. *)
Record StateChange : Type := mkStateChange {
  change_from : State;
  change_to : State;
  change_at : Z
}.

(** [this.metrics] *)
Record Metrics : Type := mkMetrics {
  totalRequests : Z;
  successfulRequests : Z;
  failedRequests : Z;
  rejectedRequests : Z;
  timeouts : Z;
  stateChanges : list StateChange
}.

(** The fields of a [CircuitBreaker] object. [nextAttempt] and
    [lastFailureTime] are [null] or a number. *)
Record Breaker : Type := mkBreaker {
  name : string;
  config : Config;
  state : State;
  failures : Z;
  successes : Z;
  lastFailureTime : option Z;
  nextAttempt : option Z;
  requestCount : Z;
  requestWindow : list Request;
  windowStartTime : Z;
  metrics : Metrics
}.

(** [constructor(name, options)] at clock reading [now]. *)
Definition new (nm : string) (o : Options) (now : Z) : Breaker :=
  {| name := nm;
     config := config_of_options o;
     state := CLOSED;
     failures := 0;
     successes := 0;
     lastFailureTime := None;
     nextAttempt := None;
     requestCount := 0;
     requestWindow := [];
     windowStartTime := now;
     metrics := mkMetrics 0 0 0 0 0 [] |}.

(** ** Field updates *)

Definition set_state (s : State) (b : Breaker) : Breaker :=
  mkBreaker (name b) (config b) s (failures b) (successes b)
    (lastFailureTime b) (nextAttempt b) (requestCount b) (requestWindow b)
    (windowStartTime b) (metrics b).

Definition set_failures (n : Z) (b : Breaker) : Breaker :=
  mkBreaker (name b) (config b) (state b) n (successes b)
    (lastFailureTime b) (nextAttempt b) (requestCount b) (requestWindow b)
    (windowStartTime b) (metrics b).

Definition set_successes (n : Z) (b : Breaker) : Breaker :=
  mkBreaker (name b) (config b) (state b) (failures b) n
    (lastFailureTime b) (nextAttempt b) (requestCount b) (requestWindow b)
    (windowStartTime b) (metrics b).

Definition set_lastFailureTime (t : option Z) (b : Breaker) : Breaker :=
  mkBreaker (name b) (config b) (state b) (failures b) (successes b)
    t (nextAttempt b) (requestCount b) (requestWindow b)
    (windowStartTime b) (metrics b).

Definition set_nextAttempt (t : option Z) (b : Breaker) : Breaker :=
  mkBreaker (name b) (config b) (state b) (failures b) (successes b)
    (lastFailureTime b) t (requestCount b) (requestWindow b)
    (windowStartTime b) (metrics b).

Definition set_requestWindow (w : list Request) (b : Breaker) : Breaker :=
  mkBreaker (name b) (config b) (state b) (failures b) (successes b)
    (lastFailureTime b) (nextAttempt b) (requestCount b) w
    (windowStartTime b) (metrics b).

Definition set_windowStartTime (t : Z) (b : Breaker) : Breaker :=
  mkBreaker (name b) (config b) (state b) (failures b) (successes b)
    (lastFailureTime b) (nextAttempt b) (requestCount b) (requestWindow b)
    t (metrics b).

Definition set_metrics (m : Metrics) (b : Breaker) : Breaker :=
  mkBreaker (name b) (config b) (state b) (failures b) (successes b)
    (lastFailureTime b) (nextAttempt b) (requestCount b) (requestWindow b)
    (windowStartTime b) m.

Definition incr_totalRequests (m : Metrics) : Metrics :=
  mkMetrics (totalRequests m + 1) (successfulRequests m) (failedRequests m)
    (rejectedRequests m) (timeouts m) (stateChanges m).

Definition incr_successfulRequests (m : Metrics) : Metrics :=
  mkMetrics (totalRequests m) (successfulRequests m + 1) (failedRequests m)
    (rejectedRequests m) (timeouts m) (stateChanges m).

Definition incr_failedRequests (m : Metrics) : Metrics :=
  mkMetrics (totalRequests m) (successfulRequests m) (failedRequests m + 1)
    (rejectedRequests m) (timeouts m) (stateChanges m).

Definition incr_rejectedRequests (m : Metrics) : Metrics :=
  mkMetrics (totalRequests m) (successfulRequests m) (failedRequests m)
    (rejectedRequests m + 1) (timeouts m) (stateChanges m).

Definition incr_timeouts (m : Metrics) : Metrics :=
  mkMetrics (totalRequests m) (successfulRequests m) (failedRequests m)
    (rejectedRequests m) (timeouts m + 1) (stateChanges m).

Definition push_stateChange (c : StateChange) (m : Metrics) : Metrics :=
  mkMetrics (totalRequests m) (successfulRequests m) (failedRequests m)
    (rejectedRequests m) (timeouts m) (stateChanges m ++ [c]).

(** [null] used as a number is [0]: [Date.now() >= this.nextAttempt]. *)
Definition to_number (t : option Z) : Z := default 0 t.

Section Operations.

(** [(errorCount / recentRequests.length) * 100 >=
     this.config.errorThresholdPercentage] is computed in double precision
    (and is [NaN >= p], false, on an empty window). The comparison is a
    parameter: [float_pct_ge errorCount total p]. *)
Variable float_pct_ge : nat -> nat -> Z -> bool.

(** The predicate of both [filter] calls on the window:
    [now - r.timestamp <= this.config.rollingWindowSize]. *)
Definition in_window (c : Config) (now : Z) (r : Request) : bool :=
  now - timestamp r <=? rollingWindowSize c.

(** [recordRequest(success)] *)
Definition recordRequest (now : Z) (ok : bool) (b : Breaker) : Breaker :=
  set_requestWindow
    (List.filter (in_window (config b) now)
       (requestWindow b ++ [mkRequest now ok])) b.

(** [getRecentRequests()] *)
Definition getRecentRequests (now : Z) (b : Breaker) : list Request :=
  List.filter (in_window (config b) now) (requestWindow b).

(** [r => !r.success] *)
Definition is_error (r : Request) : bool := negb (success r).

(** [shouldOpen()] *)
Definition shouldOpen (now : Z) (b : Breaker) : bool :=
  if failures b >=? threshold (config b) then true
  else
    let recentRequests := getRecentRequests now b in
    if Z.of_nat (length recentRequests) >=? volumeThreshold (config b) then
      let errorCount := length (List.filter is_error recentRequests) in
      if float_pct_ge errorCount (length recentRequests)
           (errorThresholdPercentage (config b))
      then true else false
    else false.

(** [setState(newState)] *)
Definition setState (now : Z) (newState : State) (b : Breaker) : Breaker :=
  let oldState := state b in
  let b := set_state newState b in
  let b := set_metrics
             (push_stateChange (mkStateChange oldState newState now)
                (metrics b)) b in
  match newState with
  | OPEN => set_nextAttempt (Some (now + sleepWindow (config b))) b
  | CLOSED => set_nextAttempt None (set_failures 0 b)
  | HALF_OPEN => b
  end.

(** [onSuccess()] *)
Definition onSuccess (now : Z) (b : Breaker) : Breaker :=
  let b := set_failures 0 b in
  let b := set_successes (successes b + 1) b in
  let b := set_metrics (incr_successfulRequests (metrics b)) b in
  let b := recordRequest now true b in
  match state b with
  | HALF_OPEN => setState now CLOSED b
  | _ => b
  end.

(** [onFailure(error)] *)
Definition onFailure (now : Z) (b : Breaker) : Breaker :=
  let b := set_failures (failures b + 1) b in
  let b := set_lastFailureTime (Some now) b in
  let b := set_metrics (incr_failedRequests (metrics b)) b in
  let b := recordRequest now false b in
  match state b with
  | HALF_OPEN => setState now OPEN b
  | CLOSED => if shouldOpen now b then setState now OPEN b else b
  | OPEN => b
  end.

(** [open()], [close()], [reset()] *)
Definition open (now : Z) (b : Breaker) : Breaker := setState now OPEN b.

Definition close (now : Z) (b : Breaker) : Breaker :=
  set_nextAttempt None (set_failures 0 (setState now CLOSED b)).

Definition reset (now : Z) (b : Breaker) : Breaker :=
  let b := set_state CLOSED b in
  let b := set_failures 0 b in
  let b := set_successes 0 b in
  let b := set_lastFailureTime None b in
  let b := set_nextAttempt None b in
  let b := set_requestWindow [] b in
  set_windowStartTime now b.

(** [isHealthy()] *)
Definition isHealthy (b : Breaker) : bool := bool_decide (state b = CLOSED).

(** ** [execute], cut at its one [await] of the guarded operation *)

(** The first job of [execute]: count the request and look at the state. *)
Inductive Admission : Type := LetThrough | Rejected.

Definition execute_enter (now : Z) (b : Breaker) : Admission * Breaker :=
  let b := set_metrics (incr_totalRequests (metrics b)) b in
  match state b with
  | OPEN =>
      if now >=? to_number (nextAttempt b)
      then (LetThrough, setState now HALF_OPEN b)
      else (Rejected, set_metrics (incr_rejectedRequests (metrics b)) b)
  | _ => (LetThrough, b)
  end.

(** How the promise of [executeWithTimeout] settles: the operation resolved
    before the timer, it threw before the timer, or the timer fired first. *)
Inductive Settlement : Type := Resolves | Throws | TimesOut.

(** The job that runs when that promise settles. On [TimesOut] the timer
    callback has run [this.metrics.timeouts++] and rejected the promise; the
    [catch] of [execute] then calls [onFailure] in the same turn. *)
Definition execute_settle (s : Settlement) (now : Z) (b : Breaker) : Breaker :=
  match s with
  | Resolves => onSuccess now b
  | Throws => onFailure now b
  | TimesOut => onFailure now (set_metrics (incr_timeouts (metrics b)) b)
  end.

(** After the timer has fired, the operation may still settle. The body of
    [executeWithTimeout] then runs [clearTimeout(timer)] on a timer that has
    fired and [resolve]/[reject] on a promise that is settled: no field of
    the breaker is written. *)
Definition late_settle (b : Breaker) : Breaker := b.

(** ** A whole call, operation and fallback included *)

(** The errors [execute] can throw. The source throws plain [Error] objects
    told apart by their message: [Circuit breaker is OPEN for ...] is
    [CircuitOpen], [Timeout after ...ms] is [OperationTimeout]. *)
Inductive Error : Type :=
  | CircuitOpen
  | OperationTimeout
  | Thrown (msg : string).

(** The world [W] is whatever the guarded operation acts on, [V] what it
    returns. An operation that is invoked transforms the world; within the
    timeout it returns, throws, or does neither. *)
Variables (W V : Type).

Inductive Behaviour : Type :=
  | Returns (v : V)
  | Fails (msg : string)
  | Hangs.

Definition Operation : Type := W -> Behaviour * W.

(** [fallback] is a function or a plain value. *)
Inductive Fallback : Type :=
  | FallbackValue (v : V)
  | FallbackFunction (f : W -> (V + Error) * W).

(** [executeFallback(fallback)]: the [catch] logs and rethrows. *)
Definition executeFallback (fb : Fallback) (w : W) : (V + Error) * W :=
  match fb with
  | FallbackFunction f => f w
  | FallbackValue v => (inl v, w)
  end.

Definition settlement_of (r : Behaviour) : Settlement :=
  match r with
  | Returns _ => Resolves
  | Fails _ => Throws
  | Hangs => TimesOut
  end.

Definition error_of (r : Behaviour) : Error :=
  match r with
  | Fails msg => Thrown msg
  | _ => OperationTimeout
  end.

(** [execute(fn, fallback)], entered at clock reading [t_enter]; the promise
    of [executeWithTimeout] settles at [t_settle]. *)
Definition execute (t_enter t_settle : Z) (fn : Operation)
    (fallback : option Fallback) (b : Breaker) (w : W)
    : (V + Error) * Breaker * W :=
  match execute_enter t_enter b with
  | (Rejected, b) =>
      match fallback with
      | Some fb => let '(r, w) := executeFallback fb w in (r, b, w)
      | None => (inr CircuitOpen, b, w)
      end
  | (LetThrough, b) =>
      let '(r, w) := fn w in
      let b := execute_settle (settlement_of r) t_settle b in
      match r with
      | Returns v => (inl v, b, w)
      | _ =>
          match fallback with
          | Some fb => let '(r', w) := executeFallback fb w in (r', b, w)
          | None => (inr (error_of r), b, w)
          end
      end
  end.

(** The operation fails whenever it is invoked. *)
Definition always_fails (fn : Operation) : Prop :=
  forall w, settlement_of (fn w).1 <> Resolves.

(** ** The breaker under concurrent callers

    Calls of [execute] interleave at the await: a caller may enter while
    others are in flight. The system state pairs the breaker with the number
    of calls that entered and have not settled. *)
Record System : Type := mkSystem {
  breaker : Breaker;
  in_flight : nat
}.

Inductive step : System -> System -> Prop :=
  | step_enter_let_through now b n b' :
      execute_enter now b = (LetThrough, b') ->
      step (mkSystem b n) (mkSystem b' (S n))
  | step_enter_rejected now b n b' :
      execute_enter now b = (Rejected, b') ->
      step (mkSystem b n) (mkSystem b' n)
  | step_settle s now b n :
      step (mkSystem b (S n)) (mkSystem (execute_settle s now b) n)
  | step_late b n :
      step (mkSystem b n) (mkSystem (late_settle b) n)
  | step_open now b n :
      step (mkSystem b n) (mkSystem (open now b) n)
  | step_close now b n :
      step (mkSystem b n) (mkSystem (close now b) n)
  | step_reset now b n :
      step (mkSystem b n) (mkSystem (reset now b) n).

(** The states a breaker built by the constructor can be in. *)
Inductive reachable : System -> Prop :=
  | reachable_new nm o now : reachable (mkSystem (new nm o now) 0)
  | reachable_step s s' : reachable s -> step s s' -> reachable s'.

End Operations.

Arguments Returns {V} v.
Arguments Fails {V} msg.
Arguments Hangs {V}.
Arguments FallbackValue {W V} v.
Arguments FallbackFunction {W V} f.
Arguments executeFallback {W V} fb w.
Arguments settlement_of {V} r.
Arguments error_of {V} r.
Arguments execute float_pct_ge {W V} t_enter t_settle fn fallback b w.
Arguments always_fails {W V} fn.

End Breaker.

(* ===================================================================== *)
(** * JavaScript [Map]: keys in insertion order                           *)
(* ===================================================================== *)

(** [for (const [id, browser] of this.browsers)] visits the entries in
    insertion order and the pool returns the first match, so the browsers
    map is kept as the list of its entries. [set] on a present key writes
    the value in place; on an absent key it appends. *)
Module JsMap.
Section JsMap.

Context {K V : Type} `{EqDecision K}.

Definition has_key (k : K) (kv : K * V) : bool := bool_decide (kv.1 = k).

Definition get (k : K) (m : list (K * V)) : option V :=
  snd <$> List.find (has_key k) m.

Fixpoint set (k : K) (v : V) (m : list (K * V)) : list (K * V) :=
  match m with
  | [] => [(k, v)]
  | kv :: m' => if has_key k kv then (k, v) :: m' else kv :: set k v m'
  end.

Definition delete (k : K) (m : list (K * V)) : list (K * V) :=
  List.filter (fun kv => negb (has_key k kv)) m.

(** Writing a field of the object stored under [k]. *)
Definition alter (f : V -> V) (k : K) (m : list (K * V)) : list (K * V) :=
  List.map (fun kv => if has_key k kv then (kv.1, f kv.2) else kv) m.

Definition keys (m : list (K * V)) : list K := List.map fst m.
Definition values (m : list (K * V)) : list V := List.map snd m.

End JsMap.
End JsMap.

(* ===================================================================== *)
(** * The browser pool                                                    *)
(* ===================================================================== *)

Module Pool.

Local Open Scope Z_scope.

(** Objects of the driver (Playwright), known by identity only. *)
Definition Instance : Type := nat.
Definition ContextRef : Type := nat.
Definition PageRef : Type := nat.

(** The keys of [this.config] that the pool logic reads. ([browserType],
    [headless], [maxMemoryMB] only shape the launch options;
    [maxCpuPercent] and [retryAttempts] are never read.) *)
Record Config : Type := mkConfig {
  maxBrowsers : Z;
  maxPages : Z;
  timeout : Z;
  healthCheckInterval : Z;
  sessionTimeout : Z
}.

Record Options : Type := mkOptions {
  opt_maxBrowsers : option Z;
  opt_maxPages : option Z;
  opt_timeout : option Z;
  opt_healthCheckInterval : option Z;
  opt_sessionTimeout : option Z
}.

Definition no_options : Options := mkOptions None None None None None.

(** [{ maxBrowsers: options.maxBrowsers || 5, ..., ...options }] *)
Definition config_of_options (o : Options) : Config :=
  {| maxBrowsers := default 5 (opt_maxBrowsers o);
     maxPages := default 10 (opt_maxPages o);
     timeout := default 30000 (opt_timeout o);
     healthCheckInterval := default 30000 (opt_healthCheckInterval o);
     sessionTimeout := default 300000 (opt_sessionTimeout o) |}.

(** A value of [this.browsers]. [errors] is [metrics.errors]; the other
    per-browser metrics are never written. *)
Record Browser : Type := mkBrowser {
  id : Z;
  instance : Instance;
  contexts : list ContextRef;
  isHealthy : bool;
  createdAt : Z;
  lastHealthCheck : Z;
  errors : Z
}.

(** A value of [this.sessions]. *)
Record Session : Type := mkSession {
  sessionId : string;
  browser : Instance;
  context : ContextRef;
  page : PageRef;
  sessionCreatedAt : Z;
  lastActivity : Z
}.

(** [this.metrics] *)
Record Metrics : Type := mkMetrics {
  created : Z;
  destroyed : Z;
  crashed : Z;
  healthy : Z;
  unhealthy : Z;
  activePages : Z;
  totalRequests : Z;
  failedRequests : Z
}.

(** The fields of a [BrowserPool] object.

    - [browsers] is keyed by the number [n] of the id [browser-n], which
      [createBrowser] takes from the clock.
    - [healthCheckTimer] is [null] ([None]) or a timer handle; the boolean
      says whether the interval timer behind the handle is still armed
      ([clearInterval] disarms it, the field keeps the handle).
    - [launched] is not a field of the source: it counts the browsers
      launched so far and so names the next [Browser] object the driver
      hands out. *)
Record Pool : Type := mkPool {
  config : Config;
  browsers : list (Z * Browser);
  sessions : gmap string Session;
  metrics : Metrics;
  healthCheckTimer : option bool;
  isShuttingDown : bool;
  launched : nat
}.

(** [constructor(options)] *)
Definition new (o : Options) : Pool :=
  {| config := config_of_options o;
     browsers := [];
     sessions := ∅;
     metrics := mkMetrics 0 0 0 0 0 0 0 0;
     healthCheckTimer := None;
     isShuttingDown := false;
     launched := 0 |}.

(** ** Field updates *)

Definition set_browsers (bs : list (Z * Browser)) (p : Pool) : Pool :=
  mkPool (config p) bs (sessions p) (metrics p) (healthCheckTimer p)
    (isShuttingDown p) (launched p).

Definition set_sessions (ss : gmap string Session) (p : Pool) : Pool :=
  mkPool (config p) (browsers p) ss (metrics p) (healthCheckTimer p)
    (isShuttingDown p) (launched p).

Definition set_metrics (m : Metrics) (p : Pool) : Pool :=
  mkPool (config p) (browsers p) (sessions p) m (healthCheckTimer p)
    (isShuttingDown p) (launched p).

Definition set_healthCheckTimer (t : option bool) (p : Pool) : Pool :=
  mkPool (config p) (browsers p) (sessions p) (metrics p) t
    (isShuttingDown p) (launched p).

Definition set_isShuttingDown (f : bool) (p : Pool) : Pool :=
  mkPool (config p) (browsers p) (sessions p) (metrics p)
    (healthCheckTimer p) f (launched p).

Definition set_launched (n : nat) (p : Pool) : Pool :=
  mkPool (config p) (browsers p) (sessions p) (metrics p)
    (healthCheckTimer p) (isShuttingDown p) n.

Definition set_contexts (cs : list ContextRef) (b : Browser) : Browser :=
  mkBrowser (id b) (instance b) cs (isHealthy b) (createdAt b)
    (lastHealthCheck b) (errors b).

Definition set_isHealthy (h : bool) (b : Browser) : Browser :=
  mkBrowser (id b) (instance b) (contexts b) h (createdAt b)
    (lastHealthCheck b) (errors b).

Definition set_lastHealthCheck (t : Z) (b : Browser) : Browser :=
  mkBrowser (id b) (instance b) (contexts b) (isHealthy b) (createdAt b)
    t (errors b).

Definition set_errors (n : Z) (b : Browser) : Browser :=
  mkBrowser (id b) (instance b) (contexts b) (isHealthy b) (createdAt b)
    (lastHealthCheck b) n.

Definition set_lastActivity (t : Z) (s : Session) : Session :=
  mkSession (sessionId s) (browser s) (context s) (page s)
    (sessionCreatedAt s) t.

Definition add_created (d : Z) (m : Metrics) : Metrics :=
  mkMetrics (created m + d) (destroyed m) (crashed m) (healthy m)
    (unhealthy m) (activePages m) (totalRequests m) (failedRequests m).

Definition add_destroyed (d : Z) (m : Metrics) : Metrics :=
  mkMetrics (created m) (destroyed m + d) (crashed m) (healthy m)
    (unhealthy m) (activePages m) (totalRequests m) (failedRequests m).

Definition add_crashed (d : Z) (m : Metrics) : Metrics :=
  mkMetrics (created m) (destroyed m) (crashed m + d) (healthy m)
    (unhealthy m) (activePages m) (totalRequests m) (failedRequests m).

Definition add_healthy (d : Z) (m : Metrics) : Metrics :=
  mkMetrics (created m) (destroyed m) (crashed m) (healthy m + d)
    (unhealthy m) (activePages m) (totalRequests m) (failedRequests m).

Definition add_unhealthy (d : Z) (m : Metrics) : Metrics :=
  mkMetrics (created m) (destroyed m) (crashed m) (healthy m)
    (unhealthy m + d) (activePages m) (totalRequests m) (failedRequests m).

Definition add_activePages (d : Z) (m : Metrics) : Metrics :=
  mkMetrics (created m) (destroyed m) (crashed m) (healthy m)
    (unhealthy m) (activePages m + d) (totalRequests m) (failedRequests m).

Definition add_totalRequests (d : Z) (m : Metrics) : Metrics :=
  mkMetrics (created m) (destroyed m) (crashed m) (healthy m)
    (unhealthy m) (activePages m) (totalRequests m + d) (failedRequests m).

Definition add_failedRequests (d : Z) (m : Metrics) : Metrics :=
  mkMetrics (created m) (destroyed m) (crashed m) (healthy m)
    (unhealthy m) (activePages m) (totalRequests m) (failedRequests m + d).

(** ** Results and the answers of the driver *)

(** How a call ends: it returns, it throws, or it has not returned by the
    end of the clock readings it was given. *)
Inductive Outcome (A : Type) : Type :=
  | Returned (a : A)
  | Threw (e : string)
  | Pending.
Arguments Returned {A} a.
Arguments Threw {A} e.
Arguments Pending {A}.

(** The messages of the errors the pool itself throws. The specification
    calls the first [PoolShuttingDown] and the second [PoolExhausted]. *)
Definition PoolShuttingDown : string := "Browser pool is shutting down".
Definition PoolExhausted : string := "Timeout waiting for available browser".
(** What the driver throws is not the pool's text. *)
Definition DriverLaunchFailed : string := "launch failed".
Definition DriverError : string := "driver error".

(** [chromium.launch(...)]: a browser at clock reading [t], or a throw. *)
Inductive LaunchOutcome : Type :=
  | Launched (t : Z)
  | LaunchFailed.

(** What [getPage] meets on its way. *)
Record AcquireEnv : Type := mkAcquireEnv {
  launch : LaunchOutcome;
  (** the clock at each test of the wait loop *)
  readings : list Z;
  (** [browser.newContext(...)] and [context.newPage()]: [None] is a throw *)
  newContext : option ContextRef;
  newPage : option PageRef;
  (** the clock when the session record is built *)
  registeredAt : Z
}.

(** [releasePage]: the page is already closed ([isClosed()], no call), its
    [close()] returns, or its [close()] throws; then the same for the
    context, which is always asked to close. *)
Inductive PageClose : Type := PageAlreadyClosed | PageCloses | PageCloseThrows.
Inductive ContextClose : Type := ContextCloses | ContextCloseThrows.

Record CloseEnv : Type := mkCloseEnv {
  pageClose : PageClose;
  contextClose : ContextClose
}.

Definition closes_ok (c : CloseEnv) : bool :=
  match pageClose c, contextClose c with
  | PageCloseThrows, _ => false
  | _, ContextCloseThrows => false
  | _, ContextCloses => true
  end.

(** [checkBrowserHealth]: [isConnected()] is false; or the probe throws,
    before or after [browser.instance.contexts()] was read; or the probe
    passes. *)
Inductive Probe : Type :=
  | Disconnected
  | ProbeThrows (seen : option (list ContextRef))
  | ProbeOk (seen : list ContextRef).

(** ** The methods *)

(** [browser.isHealthy && browser.contexts.length < this.config.maxPages] *)
Definition has_capacity (c : Config) (b : Browser) : bool :=
  isHealthy b && (Z.of_nat (length (contexts b)) <? maxPages c).

(** The [for] loop that opens [getAvailableBrowser] and that
    [waitForAvailableBrowser] repeats: the first entry that passes. *)
Definition scan (p : Pool) : option Instance :=
  (fun kb : Z * Browser => instance kb.2) <$>
    List.find (fun kb => has_capacity (config p) kb.2) (browsers p).

(** [createBrowser()], called at clock reading [now] (the id). *)
Definition createBrowser (now : Z) (l : LaunchOutcome) (p : Pool)
    : Outcome Instance * Pool :=
  match l with
  | LaunchFailed => (Threw DriverLaunchFailed, p)
  | Launched t =>
      let inst := launched p in
      let b := {| id := now; instance := inst; contexts := [];
                  isHealthy := true; createdAt := t; lastHealthCheck := t;
                  errors := 0 |} in
      let p := set_launched (S inst) p in
      let p := set_browsers (JsMap.set now b (browsers p)) p in
      let p := set_metrics (add_healthy 1 (add_created 1 (metrics p))) p in
      (Returned inst, p)
  end.

(** [waitForAvailableBrowser(timeout = 10000)]. Each turn of the [while]
    loop reads the clock and, when the time is not up, looks at the pool as
    the other tasks have left it by then; between two turns the caller
    sleeps 100 ms. [wakeups] lists what the turns see. *)
Inductive WaitResult : Type :=
  | Found (i : Instance) (t : Z)
  | TimedOut (t : Z)
  | StillWaiting.

Fixpoint waitForAvailableBrowser (timeout startTime : Z)
    (wakeups : list (Z * Pool)) : WaitResult :=
  match wakeups with
  | [] => StillWaiting
  | (t, p) :: rest =>
      if t - startTime <? timeout then
        match scan p with
        | Some i => Found i t
        | None => waitForAvailableBrowser timeout startTime rest
        end
      else TimedOut t
  end.

(** The default of the [timeout] parameter; no caller passes another. *)
Definition wait_timeout : Z := 10000.

(** [getAvailableBrowser()], run while nothing else touches the pool. *)
Definition getAvailableBrowser (now : Z) (l : LaunchOutcome)
    (clock : list Z) (p : Pool) : Outcome Instance * Pool :=
  match scan p with
  | Some i => (Returned i, p)
  | None =>
      if Z.of_nat (length (browsers p)) <? maxBrowsers (config p)
      then createBrowser now l p
      else
        match waitForAvailableBrowser wait_timeout now
                (List.map (fun t => (t, p)) clock) with
        | Found i _ => (Returned i, p)
        | TimedOut _ => (Threw PoolExhausted, p)
        | StillWaiting => (Pending, p)
        end
  end.

Definition count_failed_request (p : Pool) : Pool :=
  set_metrics (add_failedRequests 1 (metrics p)) p.

(** [getPage(sessionId, options)]. ([if (!browser)] cannot fire: an
    instance is an object.) *)
Definition getPage (sid : string) (now : Z) (env : AcquireEnv) (p : Pool)
    : Outcome PageRef * Pool :=
  let p := set_metrics (add_totalRequests 1 (metrics p)) p in
  if isShuttingDown p then (Threw PoolShuttingDown, count_failed_request p)
  else
    match getAvailableBrowser now (launch env) (readings env) p with
    | (Threw e, p) => (Threw e, count_failed_request p)
    | (Pending, p) => (Pending, p)
    | (Returned inst, p) =>
        match newContext env with
        | None => (Threw DriverError, count_failed_request p)
        | Some ctx =>
            match newPage env with
            | None => (Threw DriverError, count_failed_request p)
            | Some pg =>
                let session :=
                  {| sessionId := sid; browser := inst; context := ctx;
                     page := pg; sessionCreatedAt := registeredAt env;
                     lastActivity := registeredAt env |} in
                let p := set_sessions (<[sid := session]> (sessions p)) p in
                let p := set_metrics (add_activePages 1 (metrics p)) p in
                (Returned pg, p)
            end
        end
    end.

(** Which of its three log lines [releasePage] writes; the method itself
    always returns normally. *)
Inductive ReleaseLog : Type :=
  | SessionNotFound      (* warn: Session not found for release *)
  | PageReleased         (* info: Page released *)
  | ErrorReleasingPage.  (* error: Error releasing page *)

(** [releasePage(sessionId)] *)
Definition releasePage (sid : string) (c : CloseEnv) (p : Pool)
    : ReleaseLog * Pool :=
  match sessions p !! sid with
  | None => (SessionNotFound, p)
  | Some session =>
      match pageClose c with
      | PageCloseThrows => (ErrorReleasingPage, p)
      | _ =>
          match contextClose c with
          | ContextCloseThrows => (ErrorReleasingPage, p)
          | ContextCloses =>
              let p := set_sessions (delete sid (sessions p)) p in
              let p := set_metrics (add_activePages (-1) (metrics p)) p in
              (PageReleased, p)
          end
      end
  end.

(** [checkBrowserHealth(browserId, browser)]: the writes to the record
    stored under [browserId]. *)
Definition probe_browser (pr : Probe) (now : Z) (b : Browser) : Browser :=
  match pr with
  | Disconnected => set_isHealthy false b
  | ProbeThrows None => set_isHealthy false b
  | ProbeThrows (Some cs) => set_isHealthy false (set_contexts cs b)
  | ProbeOk cs =>
      set_lastHealthCheck now (set_isHealthy true (set_contexts cs b))
  end.

Definition probe_passes (pr : Probe) : bool :=
  match pr with ProbeOk _ => true | _ => false end.

Definition checkBrowserHealth (k : Z) (pr : Probe) (now : Z) (p : Pool)
    : Pool :=
  let p := set_browsers (JsMap.alter (probe_browser pr now) k (browsers p)) p in
  if probe_passes pr then p
  else set_metrics (add_unhealthy 1 (metrics p)) p.

(** [removeBrowser(browserId)]: closing the contexts and the browser may
    throw, which is logged; the entry is deleted either way. *)
Definition removeBrowser (k : Z) (p : Pool) : Pool :=
  match JsMap.get k (browsers p) with
  | None => p
  | Some _ =>
      let p := set_browsers (JsMap.delete k (browsers p)) p in
      set_metrics (add_destroyed 1 (metrics p)) p
  end.

(** The [while] loop that ends [cleanupUnhealthyBrowsers]: one launch per
    turn, each with the clock reading that names the new browser. *)
Definition minBrowsers (c : Config) : Z := Z.min 2 (maxBrowsers c).

Fixpoint ensure_minimum (attempts : list (Z * LaunchOutcome)) (p : Pool)
    : Outcome unit * Pool :=
  if (Z.of_nat (length (browsers p)) <? minBrowsers (config p))
     && negb (isShuttingDown p)
  then
    match attempts with
    | [] => (Pending, p)
    | (now, l) :: rest =>
        match createBrowser now l p with
        | (Returned _, p) => ensure_minimum rest p
        | (Threw e, p) => (Threw e, p)
        | (Pending, p) => (Pending, p)
        end
    end
  else (Returned tt, p).

(** The ids [cleanupUnhealthyBrowsers] collects in [toRemove]. *)
Definition unhealthy_ids (p : Pool) : list Z :=
  JsMap.keys (List.filter (fun kb : Z * Browser => negb (isHealthy kb.2))
                (browsers p)).

(** [cleanupUnhealthyBrowsers()] *)
Definition cleanupUnhealthyBrowsers (attempts : list (Z * LaunchOutcome))
    (p : Pool) : Outcome unit * Pool :=
  let p := foldl (fun p k => removeBrowser k p) p (unhealthy_ids p) in
  ensure_minimum attempts p.

(** The ids [cleanupStaleSessions] collects in [stale]. *)
Definition is_stale (c : Config) (now : Z) (s : Session) : bool :=
  sessionTimeout c <? now - lastActivity s.

Definition stale_ids (now : Z) (p : Pool) : list string :=
  (map_to_list
     (filter (fun ks : string * Session => is_stale (config p) now ks.2 = true)
        (sessions p))).*1.

(** Releasing a list of sessions one after the other, as the loops of
    [cleanupStaleSessions] and [shutdown] do. *)
Definition release_all (ids : list string) (closes : string -> CloseEnv)
    (p : Pool) : Pool :=
  foldl (fun p sid => (releasePage sid (closes sid) p).2) p ids.

(** [cleanupStaleSessions()] *)
Definition cleanupStaleSessions (now : Z) (closes : string -> CloseEnv)
    (p : Pool) : Pool :=
  release_all (stale_ids now p) closes p.

(** What one run of [performHealthCheck] meets. *)
Record HealthEnv : Type := mkHealthEnv {
  probedAt : Z;
  probes : Z -> Probe;
  attempts : list (Z * LaunchOutcome);
  sweptAt : Z;
  staleCloses : string -> CloseEnv
}.

(** The probes of one run of [performHealthCheck], one per entry of
    [this.browsers]. *)
Definition probe_all (f : Z -> Probe) (now : Z) (p : Pool) : Pool :=
  foldl (fun p k => checkBrowserHealth k (f k) now p) p
    (JsMap.keys (browsers p)).

(** What follows [await Promise.allSettled(checks)]: both clean-ups. A
    launch that throws in [cleanupUnhealthyBrowsers] ends the run there. *)
Definition finish_health_check (attempts : list (Z * LaunchOutcome))
    (now : Z) (closes : string -> CloseEnv) (p : Pool)
    : Outcome unit * Pool :=
  match cleanupUnhealthyBrowsers attempts p with
  | (Returned _, p) => (Returned tt, cleanupStaleSessions now closes p)
  | (Threw e, p) => (Threw e, p)
  | (Pending, p) => (Pending, p)
  end.

(** [performHealthCheck()], run while nothing else touches the pool. *)
Definition performHealthCheck (env : HealthEnv) (p : Pool)
    : Outcome unit * Pool :=
  finish_health_check (attempts env) (sweptAt env) (staleCloses env)
    (probe_all (probes env) (probedAt env) p).

(** [startHealthMonitoring()] *)
Definition startHealthMonitoring (p : Pool) : Pool :=
  set_healthCheckTimer (Some true) p.

(** [initialize()]: the [for] loop runs [Math.min(2, maxBrowsers)] times,
    one launch each; then the monitor is started. *)
Fixpoint create_browsers (n : nat) (attempts : list (Z * LaunchOutcome))
    (p : Pool) : Outcome unit * Pool :=
  match n with
  | O => (Returned tt, p)
  | S n' =>
      match attempts with
      | [] => (Pending, p)
      | (now, l) :: rest =>
          match createBrowser now l p with
          | (Returned _, p) => create_browsers n' rest p
          | (Threw e, p) => (Threw e, p)
          | (Pending, p) => (Pending, p)
          end
      end
  end.

Definition initialize (attempts : list (Z * LaunchOutcome)) (p : Pool)
    : Outcome unit * Pool :=
  match create_browsers (Z.to_nat (minBrowsers (config p))) attempts p with
  | (Returned _, p) => (Returned tt, startHealthMonitoring p)
  | r => r
  end.

(** [handleBrowserDisconnect(browserId)] *)
Definition handleBrowserDisconnect (k : Z) (p : Pool) : Pool :=
  let p := set_metrics (add_crashed 1 (metrics p)) p in
  set_browsers (JsMap.alter (set_isHealthy false) k (browsers p)) p.

(** [handlePageCrash(sessionId)] *)
Definition handlePageCrash (sid : string) (c : CloseEnv) (p : Pool) : Pool :=
  let p := set_metrics (add_crashed 1 (metrics p)) p in
  (releasePage sid c p).2.

(** [handlePageError(sessionId, error)]: [metrics.errors++] on the first
    entry whose instance is the session's browser. *)
Fixpoint count_error (i : Instance) (m : list (Z * Browser))
    : list (Z * Browser) :=
  match m with
  | [] => []
  | (k, b) :: m' =>
      if bool_decide (instance b = i)
      then (k, set_errors (errors b + 1) b) :: m'
      else (k, b) :: count_error i m'
  end.

Definition handlePageError (sid : string) (p : Pool) : Pool :=
  match sessions p !! sid with
  | None => p
  | Some s => set_browsers (count_error (browser s) (browsers p)) p
  end.

(** The [request] listener of a page: [session.lastActivity = Date.now()]. *)
Definition touch (sid : string) (now : Z) (p : Pool) : Pool :=
  set_sessions (alter (set_lastActivity now) sid (sessions p)) p.

(** [clearInterval(this.healthCheckTimer)] under [if (this.healthCheckTimer)] *)
Definition clear_timer (p : Pool) : Pool :=
  match healthCheckTimer p with
  | Some _ => set_healthCheckTimer (Some false) p
  | None => p
  end.

(** [shutdown()] *)
Definition shutdown (closes : string -> CloseEnv) (p : Pool) : Pool :=
  let p := set_isShuttingDown true p in
  let p := clear_timer p in
  let p := release_all (map_to_list (sessions p)).*1 closes p in
  foldl (fun p k => removeBrowser k p) p (JsMap.keys (browsers p)).

(** ** The pool under sequences of calls

    One event is one call run to its end (or one signal of the driver),
    with what it meets. A run of the health check is one event,
    [HealthCheck], when nothing happens in between; else its parts are
    events of their own, so that runs may overlap each other and the other
    calls: [ProbeSettles] when the probe of one handle settles, and
    [Cleanup] for what the run does once all its probes have settled. *)
Inductive Event : Type :=
  | Initialize (attempts : list (Z * LaunchOutcome))
  | GetPage (sid : string) (now : Z) (env : AcquireEnv)
  | ReleasePage (sid : string) (c : CloseEnv)
  | HealthCheck (env : HealthEnv)
  | ProbeSettles (k : Z) (pr : Probe) (now : Z)
  | Cleanup (attempts : list (Z * LaunchOutcome)) (now : Z)
      (closes : string -> CloseEnv)
  | BrowserDisconnected (k : Z)
  | PageCrashed (sid : string) (c : CloseEnv)
  | PageError (sid : string)
  | PageRequest (sid : string) (now : Z)
  | Shutdown (closes : string -> CloseEnv).

Definition apply (e : Event) (p : Pool) : Pool :=
  match e with
  | Initialize attempts => (initialize attempts p).2
  | GetPage sid now env => (getPage sid now env p).2
  | ReleasePage sid c => (releasePage sid c p).2
  | HealthCheck env => (performHealthCheck env p).2
  | ProbeSettles k pr now => checkBrowserHealth k pr now p
  | Cleanup attempts now closes => (finish_health_check attempts now closes p).2
  | BrowserDisconnected k => handleBrowserDisconnect k p
  | PageCrashed sid c => handlePageCrash sid c p
  | PageError sid => handlePageError sid p
  | PageRequest sid now => touch sid now p
  | Shutdown closes => shutdown closes p
  end.

Definition run (es : list Event) (p : Pool) : Pool :=
  foldl (fun p e => apply e p) p es.

(** The browser a successful [getPage] took: the one its session holds. *)
Definition lease (e : Event) (p : Pool) : option Instance :=
  match e with
  | GetPage sid now env =>
      match getPage sid now env p with
      | (Returned _, p') => browser <$> sessions p' !! sid
      | _ => None
      end
  | _ => None
  end.

(** The browsers leased in the course of a sequence of events. *)
Fixpoint leases (es : list Event) (p : Pool) : list Instance :=
  match es with
  | [] => []
  | e :: es' =>
      match lease e p with
      | Some i => i :: leases es' (apply e p)
      | None => leases es' (apply e p)
      end
  end.

(** ** The interval timer of the health monitor

    [setInterval(async () => { await this.performHealthCheck(); }, ...)]:
    each firing of an armed timer calls [performHealthCheck]; the call is a
    task of its own that ends later. The runs that have started and not
    ended are counted beside the pool. [RunEnds] writes what a run does to
    the pool when the run ends; [PoolEvent] lets the calls of the pool,
    [ProbeSettles] and [Cleanup] among them, happen in between. *)
Record Monitor : Type := mkMonitor {
  pool : Pool;
  runs_in_progress : nat
}.

Inductive MonitorEvent : Type :=
  | TimerFires
  | RunEnds (env : HealthEnv)
  | PoolEvent (e : Event).

Definition monitor_step (e : MonitorEvent) (m : Monitor) : Monitor :=
  match e with
  | TimerFires =>
      match healthCheckTimer (pool m) with
      | Some true => mkMonitor (pool m) (S (runs_in_progress m))
      | _ => m
      end
  | RunEnds env =>
      match runs_in_progress m with
      | S n => mkMonitor (performHealthCheck env (pool m)).2 n
      | O => m
      end
  | PoolEvent e => mkMonitor (apply e (pool m)) (runs_in_progress m)
  end.

Definition monitor_run (es : list MonitorEvent) (m : Monitor) : Monitor :=
  foldl (fun m e => monitor_step e m) m es.

End Pool.

(* ===================================================================== *)
(** * The circuit breaker: what is left of the class, and a caller        *)
(* ===================================================================== *)

Module BreakerMore.
Import Breaker.
Local Open Scope Z_scope.

(** [middleware()]: the handler answers 503 with [retryAfter], or calls
    [next()]. It writes no field of the breaker. *)
Inductive MiddlewareAction : Type :=
  | ServiceUnavailable (retryAfter : Z)
  | CallNext.

Definition middleware (now : Z) (b : Breaker) : MiddlewareAction :=
  match state b with
  | OPEN =>
      if now <? to_number (nextAttempt b)
      then ServiceUnavailable (to_number (nextAttempt b))
      else CallNext
  | _ => CallNext
  end.

(** [getMetrics()] without [currentErrorRate], which is a formatted
    floating-point number: the counters and [recentRequestCount]. *)
Record MetricsReport : Type := mkMetricsReport {
  report_metrics : Metrics;
  recentRequestCount : nat;
  recentErrorCount : nat
}.

Definition getMetrics (now : Z) (b : Breaker) : MetricsReport :=
  let recentRequests :=
    List.filter (in_window (config b) now) (requestWindow b) in
  {| report_metrics := metrics b;
     recentRequestCount := length recentRequests;
     recentErrorCount := length (List.filter is_error recentRequests) |}.

(** A configuration with another [resetTimeout]. *)
Definition config_with_resetTimeout (r : Z) (c : Config) : Config :=
  mkConfig (threshold c) (timeout c) r (volumeThreshold c)
    (errorThresholdPercentage c) (rollingWindowSize c) (sleepWindow c).

Definition with_resetTimeout (r : Z) (b : Breaker) : Breaker :=
  mkBreaker (name b) (config_with_resetTimeout r (config b)) (state b)
    (failures b) (successes b) (lastFailureTime b) (nextAttempt b)
    (requestCount b) (requestWindow b) (windowStartTime b) (metrics b).

(** The calls on a breaker, as a list: the two jobs of [execute] and the
    three methods that force a state. *)
Inductive Call : Type :=
  | Enter (now : Z)
  | Settle (s : Settlement) (now : Z)
  | ForceOpen (now : Z)
  | ForceClose (now : Z)
  | Reset (now : Z).

Section Calls.
Variable float_pct_ge : nat -> nat -> Z -> bool.

Definition call (c : Call) (b : Breaker) : Breaker :=
  match c with
  | Enter now => (execute_enter now b).2
  | Settle s now => execute_settle float_pct_ge s now b
  | ForceOpen now => open now b
  | ForceClose now => close now b
  | Reset now => reset now b
  end.

Definition calls (cs : list Call) (b : Breaker) : Breaker :=
  foldl (fun b c => call c b) b cs.
End Calls.

End BreakerMore.

(* ===================================================================== *)
(** * The retry loop of the MyDorway bot                                  *)
(* ===================================================================== *)

(** [searchWithRetry] and [searchMyDorway] of
    [services/uitax-bot/index.mjs]. *)
Module Retry.
Local Open Scope Z_scope.

(** [CONFIG.maxRetries], [CONFIG.baseRetryDelay], [CONFIG.maxRetryDelay] *)
Definition maxRetries : Z := 5.
Definition baseRetryDelay : Z := 1000.
Definition maxRetryDelay : Z := 32000.

(** [Math.min(baseRetryDelay * Math.pow(2, attempt - 1), maxRetryDelay)],
    for an attempt number that is at least 1. *)
Definition retry_delay (attempt : Z) : Z :=
  Z.min (baseRetryDelay * 2 ^ (attempt - 1)) maxRetryDelay.

(** How the loop ends: with the result of a search, with the error of the
    last search, or not within the searches it was given. *)
Inductive RetryEnd (R E : Type) : Type :=
  | Found (r : R)
  | GaveUp (e : E)
  | Unfinished.
Arguments Found {R E} r.
Arguments GaveUp {R E} e.
Arguments Unfinished {R E}.

(** [searchWithRetry(nameData, processingId, attempt = 1)]. [searches]
    lists what the successive calls of [searchMyDorway] do to whatever
    they act on ([S]): each returns or throws. The result comes with the
    delays slept before the new attempts, one [this.metrics.retries++]
    each. *)
Fixpoint searchWithRetry {S R E : Type} (searches : list (S -> (R + E) * S))
    (attempt : Z) (s : S) : RetryEnd R E * list Z * S :=
  match searches with
  | [] => (Unfinished, [], s)
  | search :: rest =>
      match search s with
      | (inl r, s) => (Found r, [], s)
      | (inr e, s) =>
          if attempt >=? maxRetries then (GaveUp e, [], s)
          else
            let '(r, delays, s) := searchWithRetry rest (attempt + 1) s in
            (r, retry_delay attempt :: delays, s)
      end
  end.

(** The options of [mydorwayBreaker]. *)
Definition mydorway_options : Breaker.Options :=
  Breaker.mkOptions (Some 3) (Some 180000) (Some 300000) None None None None.

(** [searchMyDorway]: one [mydorwayBreaker.execute(operation)] without
    fallback, entered at [clock.1]; the operation, if invoked, settles at
    [clock.2]. *)
Definition searchMyDorway {W V : Type}
    (float_pct_ge : nat -> nat -> Z -> bool) (fn : Breaker.Operation W V)
    (clock : Z * Z) (s : Breaker.Breaker * W)
    : (V + Breaker.Error) * (Breaker.Breaker * W) :=
  let '(r, b, w) :=
    Breaker.execute float_pct_ge clock.1 clock.2 fn None s.1 s.2 in
  (r, (b, w)).

End Retry.

(* ===================================================================== *)
(** * The logger                                                          *)
(* ===================================================================== *)

(** [services/shared/lib/logger.mjs], which the breaker and the pool call
    at every step. Values are JSON-like; keys are ASCII strings. *)
Module Logger.
Local Open Scope Z_scope.

#[warnings="-register-all"] Inductive JValue : Type :=
  | JNull
  | JBool (b : bool)
  | JNumber (n : Z)
  | JString (s : string)
  | JArray (items : list JValue)
  | JObject (entries : list (string * JValue))
  (** an [Error] object: [typeof] is ['object'], it has no enumerable
      property of its own *)
  | JError (name message stack : string).

(** [String.prototype.includes]: [needle] occurs in [s]. *)
Fixpoint includes (needle s : string) : bool :=
  String.prefix needle s ||
  match s with
  | EmptyString => false
  | String _ s' => includes needle s'
  end.

(** [key.toLowerCase()] on ASCII. *)
Definition lower_ascii (c : Ascii.ascii) : Ascii.ascii :=
  let n := Ascii.nat_of_ascii c in
  if (65 <=? n)%nat && (n <=? 90)%nat then Ascii.ascii_of_nat (n + 32) else c.

Fixpoint toLowerCase (s : string) : string :=
  match s with
  | EmptyString => EmptyString
  | String c s' => String (lower_ascii c) (toLowerCase s')
  end.

Definition sensitiveKeys : list string :=
  ["password"; "token"; "apiKey"; "secret";
   "authorization"; "cookie"; "ssn"; "taxId"].

(** [sensitiveKeys.some(sensitive => lowerKey.includes(sensitive))] *)
Definition is_sensitive (key : string) : bool :=
  existsb (fun sensitive => includes sensitive (toLowerCase key))
    sensitiveKeys.

Definition REDACTED : JValue := JString "***REDACTED***".

(** [typeof value === 'object' && value !== null] *)
Definition is_object (v : JValue) : bool :=
  match v with
  | JArray _ | JObject _ | JError _ _ _ => true
  | _ => false
  end.

(** [sanitizeObject(obj)]. The entries of an array are its items under
    their indices, which are never sensitive; an [Error] has no entry and
    comes out as an empty object. *)
Fixpoint sanitizeObject (obj : JValue) : JValue :=
  match obj with
  | JArray items => JArray (List.map sanitizeObject items)
  | JObject entries =>
      JObject
        (List.map
           (fun kv : string * JValue =>
              if is_sensitive kv.1 then (kv.1, REDACTED)
              else if is_object kv.2 then (kv.1, sanitizeObject kv.2)
              else kv)
           entries)
  | JError _ _ _ => JObject []
  | _ => obj
  end.

(** [sanitizeMeta(meta)], on the entries of [meta]. *)
Definition sanitizeMeta (meta : list (string * JValue))
    : list (string * JValue) :=
  match sanitizeObject (JObject meta) with
  | JObject entries => entries
  | _ => []
  end.

(** [this.levels] *)
Inductive Level : Type := ERROR | WARN | INFO | DEBUG | TRACE.

Definition level_number (l : Level) : Z :=
  match l with
  | ERROR => 0 | WARN => 1 | INFO => 2 | DEBUG => 3 | TRACE => 4
  end.

Definition level_name (l : Level) : string :=
  match l with
  | ERROR => "ERROR" | WARN => "WARN" | INFO => "INFO"
  | DEBUG => "DEBUG" | TRACE => "TRACE"
  end.

(** The fields of a [Logger] that [log] and [flush] use. [currentLevel] is
    [this.levels[process.env.LOG_LEVEL || 'INFO']]: [undefined] ([None])
    when [LOG_LEVEL] names no level. *)
Record Logger : Type := mkLogger {
  service : string;
  environment : string;
  correlationId : JValue;
  buffer : list (list (string * JValue));
  bufferSize : Z;
  enableCloudWatch : bool;
  currentLevel : option Z
}.

Definition set_buffer (b : list (list (string * JValue))) (lg : Logger)
    : Logger :=
  mkLogger (service lg) (environment lg) (correlationId lg) b
    (bufferSize lg) (enableCloudWatch lg) (currentLevel lg).

(** [this.levels[level] > this.currentLevel]; a comparison with
    [undefined] is false. *)
Definition suppressed (l : Level) (lg : Logger) : bool :=
  match currentLevel lg with
  | Some c => c <? level_number l
  | None => false
  end.

(** The object [log] builds: the fixed fields, then the sanitized entries
    of [meta] spread over them (a key that is there is overwritten in
    place), then [error] when [meta.error] is an [Error]. *)
Definition spread (entries base : list (string * JValue))
    : list (string * JValue) :=
  foldl (fun m kv => JsMap.set kv.1 kv.2 m) base entries.

Definition logEntry (l : Level) (message : string)
    (meta : list (string * JValue)) (timestamp : string) (lg : Logger)
    : list (string * JValue) :=
  let base :=
    [("timestamp", JString timestamp); ("level", JString (level_name l));
     ("service", JString (service lg));
     ("environment", JString (environment lg));
     ("correlationId", correlationId lg); ("message", JString message)] in
  let entry := spread (sanitizeMeta meta) base in
  match JsMap.get "error" meta with
  | Some (JError nm msg stack) =>
      JsMap.set "error"
        (JObject [("name", JString nm); ("message", JString msg);
                  ("stack", JString stack)]) entry
  | _ => entry
  end.

(** [flush()] up to its [await]: nothing when CloudWatch is off or the
    buffer is empty; else the buffer is emptied and its content sent. *)
Definition flush_begin (lg : Logger)
    : option (list (list (string * JValue))) * Logger :=
  if negb (enableCloudWatch lg) || bool_decide (buffer lg = [])
  then (None, lg)
  else (Some (buffer lg), set_buffer [] lg).

(** The [catch] of [flush()], when sending [logs] failed. *)
Definition flush_failed (logs : list (list (string * JValue))) (lg : Logger)
    : Logger :=
  if Z.of_nat (length (buffer lg)) <? bufferSize lg
  then set_buffer (logs ++ buffer lg) lg
  else lg.

(** [log(level, message, meta)]: the entry passed to [consoleLog], if
    any, the batch [flush] takes, if any, and the logger. *)
Definition log (l : Level) (message : string) (meta : list (string * JValue))
    (timestamp : string) (lg : Logger)
    : option (list (string * JValue)) *
      option (list (list (string * JValue))) * Logger :=
  if suppressed l lg then (None, None, lg)
  else
    let entry := logEntry l message meta timestamp lg in
    if enableCloudWatch lg then
      let lg := set_buffer (buffer lg ++ [entry]) lg in
      if Z.of_nat (length (buffer lg)) >=? bufferSize lg
      then let '(batch, lg) := flush_begin lg in (Some entry, batch, lg)
      else (Some entry, None, lg)
    else (Some entry, None, lg).

End Logger.

(* ===================================================================== *)
(** * The browser pool: [getMetrics]                                      *)
(* ===================================================================== *)

Module PoolMore.
Import Pool.
Local Open Scope Z_scope.

(** [getMetrics()]: the counters and three sizes read off the maps. *)
Record PoolReport : Type := mkPoolReport {
  counters : Metrics;
  activeBrowsers : nat;
  activeSessions : nat;
  healthyBrowsers : nat
}.

Definition getMetrics (p : Pool) : PoolReport :=
  {| counters := metrics p;
     activeBrowsers := length (browsers p);
     activeSessions := size (sessions p);
     healthyBrowsers :=
       length (List.filter (fun kb : Z * Browser => isHealthy kb.2)
                 (browsers p)) |}.

End PoolMore.

(* ===================================================================== *)
(** * Vocabulary for the circuit breaker: predicates and sample runs      *)
(* ===================================================================== *)

Module BreakerSpec.
Import Breaker.
Local Open Scope Z_scope.

(** The percentage comparison on exact rationals, used to run examples. *)
Definition exact_pct_ge (errorCount total : nat) (p : Z) : bool :=
  (0 <? Z.of_nat total) && (p * Z.of_nat total <=? 100 * Z.of_nat errorCount).

(** A run of C1: every operation fails and counts its invocations in the
    world. *)
Definition c1_options : Options :=
  mkOptions (Some 3) None None None None None None.

Definition c1_b0 : Breaker := new "target" c1_options 0.

Definition c1_fn : Operation nat nat := fun w => (Fails "down", S w).

Definition c1_call (t : Z) (bw : Breaker * nat) : (nat + Error) * Breaker * nat :=
  Breaker.execute exact_pct_ge t (t + 1) c1_fn None bw.1 bw.2.

Definition c1_s1 := c1_call 10 (c1_b0, 0%nat).

Definition c1_s2 := c1_call 20 (c1_s1.1.2, c1_s1.2).

Definition c1_s3 := c1_call 30 (c1_s2.1.2, c1_s2.2).

(** A breaker with [threshold = 3] and [volumeThreshold = 2] whose window
    already holds one recent failure: CLOSED, no failure counted. *)
Definition c1_window_options : Options :=
  mkOptions (Some 3) None None (Some 2) None None None.

Definition c1_b0_window : Breaker :=
  set_requestWindow [mkRequest 5 false] (new "target" c1_window_options 0).

(** What the code maintains: the deadline is absent exactly in CLOSED. *)
Definition deadline_inv (b : Breaker) : Prop :=
  nextAttempt b = None <-> state b = CLOSED.

(** A trace for C4: a breaker with [threshold = 1]; one call enters at 0
    and fails at 1, which opens the breaker until 5001; the next call enters
    at 6000 and is in flight. *)
Definition c4_options : Options :=
  mkOptions (Some 1) None None None None None None.

Definition c4_b0 : Breaker := new "target" c4_options 0.

Definition c4_b1 : Breaker := (execute_enter 0 c4_b0).2.

Definition c4_b2 : Breaker := Breaker.execute_settle exact_pct_ge Throws 1 c4_b1.

Definition c4_b3 : Breaker := (execute_enter 6000 c4_b2).2.

(** The failures held by a window. *)
Definition count_errors (w : list Request) : nat :=
  length (List.filter is_error w).

(** The accounting of a breaker: what entering leaves alone and what a
    failure adds. *)
Record same_accounting (b b' : Breaker) : Prop := {
  same_config : config b' = config b;
  same_failures : failures b' = failures b;
  same_successes : successes b' = successes b;
  same_window : requestWindow b' = requestWindow b;
  same_failed : failedRequests (metrics b') = failedRequests (metrics b);
  same_successful :
    successfulRequests (metrics b') = successfulRequests (metrics b);
  same_timeouts : timeouts (metrics b') = timeouts (metrics b)
}.

(** A run of C6: the operation never settles; it is invoked twice on a
    fresh breaker. *)
Definition c6_b0 : Breaker := new "target" no_options 0.

Definition c6_fn : Operation nat nat := fun w => (Hangs, S w).

Definition c6_s1 :=
  Breaker.execute exact_pct_ge 0 60000 c6_fn None c6_b0 0%nat.

Definition c6_s2 :=
  Breaker.execute exact_pct_ge 60001 120001 c6_fn None c6_s1.1.2 c6_s1.2.

End BreakerSpec.

(* ===================================================================== *)
(** * Vocabulary for the browser pool: predicates and sample runs         *)
(* ===================================================================== *)

Module PoolSpec.
Import Pool.
Local Open Scope Z_scope.

(** A pool with one browser and the session ["s1"] on it, obtained by one
    [getPage] on a new pool. *)
Definition ex_env : AcquireEnv :=
  mkAcquireEnv (Launched 5) [] (Some 1%nat) (Some 1%nat) 6.

Definition ex_pool : Pool := (getPage "s1" 0 ex_env (new no_options)).2.

Definition close_ok : CloseEnv := mkCloseEnv PageCloses ContextCloses.

Definition page_close_throws : CloseEnv :=
  mkCloseEnv PageCloseThrows ContextCloses.

Definition ex_released : Pool := (releasePage "s1" close_ok ex_pool).2.

(** The sum over the handles of their own session counts,
    [browser.contexts.length]. *)
Definition sum_counts (p : Pool) : nat :=
  list_sum (List.map (fun kb : Z * Browser => length (contexts kb.2))
              (browsers p)).

(** [activePages] against the number of registered sessions. *)
Definition slack (p : Pool) : Z :=
  activePages (metrics p) - Z.of_nat (size (sessions p)).

(** The events of C2: calls of [getPage] and [releasePage]. *)
Definition acquire_or_release (e : Event) : Prop :=
  match e with
  | GetPage _ _ _ | ReleasePage _ _ => True
  | _ => False
  end.

(** No [getPage] of the sequence names a session that is registered when
    it is called. *)
Fixpoint fresh_ids (es : list Event) (p : Pool) : Prop :=
  match es with
  | [] => True
  | e :: es' =>
      match e with
      | GetPage sid _ _ => sessions p !! sid = None
      | _ => True
      end /\ fresh_ids es' (apply e p)
  end.

(** What a call leaves alone in the pool. *)
Record same_handles (p p' : Pool) : Prop := {
  sh_config : config p' = config p;
  sh_shutting : isShuttingDown p' = isShuttingDown p;
  sh_sessions : sessions p' = sessions p;
  sh_activePages : activePages (metrics p') = activePages (metrics p)
}.

(** What [getPage] does to the pool: it may add handles that are new,
    and it either registers one session and counts it, or leaves sessions
    and counter alone and does not return a page. *)
Definition getPage_post (sid : string) (p : Pool) (r : Outcome PageRef)
    (p' : Pool) : Prop :=
  config p' = config p /\ isShuttingDown p' = isShuttingDown p /\
  (Z.of_nat (length (browsers p)) <= maxBrowsers (config p) ->
   Z.of_nat (length (browsers p')) <= maxBrowsers (config p)) /\
  (forall kb, In kb (browsers p') ->
     In kb (browsers p) \/ (contexts kb.2 = [] /\ isHealthy kb.2 = true)) /\
  ((sessions p' = sessions p /\
    activePages (metrics p') = activePages (metrics p) /\
    forall pg, r <> Returned pg) \/
   (exists s pg, r = Returned pg /\
    sessions p' = <[sid := s]> (sessions p) /\
    activePages (metrics p') = activePages (metrics p) + 1)).

(** The pool of the constructor's defaults, after ["s1"] and ["s2"] were
    acquired and ["s1"] released. *)
Definition c2_events : list Event :=
  [GetPage "s1" 0 ex_env; GetPage "s2" 10 ex_env; ReleasePage "s1" close_ok].

(** A turn of the wait loop that goes on to the next: the time is not up
    and no handle passes the scan. *)
Definition turn_goes_on (timeout startTime : Z) (tp : Z * Pool) : Prop :=
  tp.1 - startTime < timeout /\ scan tp.2 = None.

(** How the wait ends, read off the turns it was given. *)
Definition wait_post (timeout startTime : Z) (wakeups : list (Z * Pool))
    (r : WaitResult) : Prop :=
  match r with
  | TimedOut t =>
      exists before p after,
        wakeups = before ++ (t, p) :: after /\
        Forall (turn_goes_on timeout startTime) before /\
        timeout <= t - startTime
  | Found i t =>
      exists before p after,
        wakeups = before ++ (t, p) :: after /\
        Forall (turn_goes_on timeout startTime) before /\
        t - startTime < timeout /\ scan p = Some i
  | StillWaiting => Forall (turn_goes_on timeout startTime) wakeups
  end.

(** A pool configured with [maxBrowsers = 1], [maxPages = 1] and
    [timeout = 50]. ["s1"] is acquired, which launches the only browser;
    a health check then reads the browser's one context: the handle is at
    capacity and the pool is full. *)
Definition c3_options : Options :=
  mkOptions (Some 1) (Some 1) (Some 50) None None.

Definition c3_health : HealthEnv :=
  mkHealthEnv 100 (fun _ => ProbeOk [1%nat]) [] 100 (fun _ => close_ok).

Definition c3_full : Pool :=
  run [GetPage "s1" 0 ex_env; HealthCheck c3_health] (new c3_options).

Definition c3_released : Pool := (releasePage "s1" close_ok c3_full).2.

(** The waiter starts at 1000 and wakes up every 101 ms; ["s1"] is released
    before its second turn. *)
Definition c3_wakeups : list (Z * Pool) :=
  (1000, c3_full) ::
  List.map (fun k => (1000 + 101 * Z.of_nat k, c3_released)) (seq 1 100).

(** A pool set up by [initialize] (two browsers, timer started), with no
    run in progress. *)
Definition c5_pool : Pool :=
  (initialize [(0, Launched 5); (10, Launched 15)] (new no_options)).2.

Definition c5_monitor : Monitor := mkMonitor c5_pool 0.

(** The sample pool after a [shutdown] during which the page of ["s1"]
    throws on [close()]. *)
Definition c8_after : Pool := shutdown (fun _ => page_close_throws) ex_pool.

(** The driver objects held by the handles of a pool. *)
Definition insts (m : list (Z * Browser)) : list Instance :=
  List.map (fun kb : Z * Browser => instance kb.2) m.

(** Every handle holds its own browser, one the driver has launched. *)
Definition wf (p : Pool) : Prop :=
  List.NoDup (insts (browsers p)) /\
  forall i, In i (insts (browsers p)) -> (i < launched p)%nat.

(** How the handles of a pool change in the course of a call. Every handle
    found afterwards is new (its browser was launched during the call) or
    was there before under the same id with the same browser; in the second
    case it is healthy only if it was healthy before or [rev] allows a
    revival under its id. *)
Definition evolves (rev : Z -> bool) (p p' : Pool) : Prop :=
  (wf p -> wf p') /\
  (launched p <= launched p')%nat /\
  forall k b', In (k, b') (browsers p') ->
    (launched p <= instance b' < launched p')%nat \/
    exists b, In (k, b) (browsers p) /\ instance b' = instance b /\
              (isHealthy b' = true -> isHealthy b = true \/ rev k = true).

(** A call that only adds handles, each with a browser launched during the
    call: the handles that were there are found unchanged. *)
Definition grows (p p' : Pool) : Prop :=
  (wf p -> wf p') /\
  (launched p <= launched p')%nat /\
  forall kb, In kb (browsers p') ->
    In kb (browsers p) \/
    ((launched p <= instance kb.2 < launched p')%nat /\ isHealthy kb.2 = true).

(** The ids under which an event may raise [isHealthy] again: those whose
    probe passes. *)
Definition revives (e : Event) (k : Z) : bool :=
  match e with
  | HealthCheck env => probe_passes (probes env k)
  | ProbeSettles k' pr _ => bool_decide (k' = k) && probe_passes pr
  | _ => false
  end.

(** No handle of the pool holds the browser [i], which was launched. *)
Definition gone (i : Instance) (p : Pool) : Prop :=
  (i < launched p)%nat /\
  forall k b, In (k, b) (browsers p) -> instance b <> i.

(** The browser [i], if a handle holds it, is held under the id [k] by a
    handle marked unhealthy. *)
Definition barred (i : Instance) (k : Z) (p : Pool) : Prop :=
  (i < launched p)%nat /\
  forall k' b', In (k', b') (browsers p) -> instance b' = i ->
    k' = k /\ isHealthy b' = false.

(** No event of the sequence has a probe of the id [k] pass. *)
Definition quiet (k : Z) (es : list Event) : Prop :=
  Forall (fun e => revives e k = false) es.

(** A run of C7 on a new pool. ["s1"] is acquired on the first browser
    (instance 0, id 0); the browser then signals a disconnect. ["s2"] is
    acquired next: the pool launches a second browser (instance 1, id 20)
    instead of taking the first. A health check finds the first browser
    disconnected, removes its handle and launches a third browser
    (instance 2) to keep two; ["s3"] is acquired afterwards. *)
Definition c7_probe (k : Z) : Probe :=
  if bool_decide (k = 0) then Disconnected else ProbeOk [].

Definition c7_health : HealthEnv :=
  mkHealthEnv 40 c7_probe [(45, Launched 46)] 47 (fun _ => close_ok).

Definition c7_env2 : AcquireEnv :=
  mkAcquireEnv (Launched 25) [] (Some 2%nat) (Some 2%nat) 26.

Definition c7_before : list Event :=
  [GetPage "s1" 0 ex_env; BrowserDisconnected 0].

Definition c7_after : list Event :=
  [GetPage "s2" 20 c7_env2; HealthCheck c7_health; GetPage "s3" 50 c7_env2].

(** Two health checks that overlap, on a pool of two browsers (ids 0 and
    10, instances 0 and 1) that may not grow. The probe of the first run on
    the handle 0 throws; the probe of the second run on the same handle
    passes; the first run's probe of the handle 10 passes and the run
    cleans up; ["s1"] is acquired. *)
Definition c7_options : Options := mkOptions (Some 2) None None None None.

Definition c7_pool : Pool :=
  run [Initialize [(0, Launched 5); (10, Launched 15)]] (new c7_options).

Definition c7_failed : Pool :=
  apply (ProbeSettles 0 (ProbeThrows None) 100) c7_pool.

Definition c7_overlap : list Event :=
  [ProbeSettles 0 (ProbeOk []) 110;
   ProbeSettles 10 (ProbeOk []) 115;
   Cleanup [] 120 (fun _ => close_ok);
   GetPage "s1" 130 ex_env].

End PoolSpec.

(* ===================================================================== *)
(** * Further vocabulary for the breaker                                  *)
(* ===================================================================== *)

Module BreakerMoreSpec.
Import Breaker BreakerMore.
Local Open Scope Z_scope.

(** The books of a breaker with [in_flight] calls that entered and have
    not settled. *)
Record accounted (s : System) : Prop := {
  acc_total :
    totalRequests (metrics (breaker s)) =
      successfulRequests (metrics (breaker s)) +
      failedRequests (metrics (breaker s)) +
      rejectedRequests (metrics (breaker s)) + Z.of_nat (in_flight s);
  acc_rejected : 0 <= rejectedRequests (metrics (breaker s));
  acc_timeouts :
    0 <= timeouts (metrics (breaker s)) <=
      failedRequests (metrics (breaker s));
  acc_failures :
    0 <= failures (breaker s) <= failedRequests (metrics (breaker s));
  acc_successes :
    0 <= successes (breaker s) <=
      successfulRequests (metrics (breaker s));
  acc_requestCount : requestCount (breaker s) = 0
}.

(** The rolling window holds settled calls only, its failures among the
    failed ones. *)
Definition window_accounted (b : Breaker) : Prop :=
  Z.of_nat (length (requestWindow b)) <=
    successfulRequests (metrics b) + failedRequests (metrics b) /\
  Z.of_nat (length (List.filter is_error (requestWindow b))) <=
    failedRequests (metrics b) /\
  0 <= successfulRequests (metrics b).

(** A call of [reset]. *)
Definition is_reset (c : Call) : bool :=
  match c with Reset _ => true | _ => false end.

(** Reading [metrics.stateChanges] from a state on: every entry leaves the
    state the one before it reached. The result is the state the log ends
    in, if the entries chain. *)
Fixpoint follow (s : State) (l : list StateChange) : option State :=
  match l with
  | [] => Some s
  | c :: l' =>
      if bool_decide (change_from c = s) then follow (change_to c) l' else None
  end.

(** The moves [execute] makes between states. *)
Definition execute_edge (c : StateChange) : Prop :=
  (change_from c = CLOSED /\ change_to c = OPEN) \/
  (change_from c = OPEN /\ change_to c = HALF_OPEN) \/
  (change_from c = HALF_OPEN /\ change_to c = CLOSED) \/
  (change_from c = HALF_OPEN /\ change_to c = OPEN).

(** One of the two jobs of [execute]. *)
Definition is_execute (c : Call) : bool :=
  match c with Enter _ | Settle _ _ => true | _ => false end.

(** The [success] flag of the window entry a settlement leaves. *)
Definition resolved (s : Settlement) : bool :=
  match s with Resolves => true | _ => false end.

(** What a call does to the state and its log: nothing, or one entry from
    the state it found to the state it leaves. *)
Definition logs_move (b b' : Breaker) : Prop :=
  (stateChanges (metrics b') = stateChanges (metrics b) /\
   state b' = state b) \/
  (exists t,
     stateChanges (metrics b') =
       stateChanges (metrics b) ++ [mkStateChange (state b) (state b') t]).

(** A sample run: two failures open a breaker of threshold 2, a trial
    closes it, the breaker is forced open. *)
Definition sample_options : Options :=
  mkOptions (Some 2) None None None None None None.

Definition sample_calls : list Call :=
  [Enter 0; Settle Throws 1; Enter 2; Settle Throws 3;
   Enter 9000; Settle Resolves 9001; ForceOpen 9002].

Definition sample_execute_calls : list Call :=
  [Enter 0; Settle Throws 1; Enter 2; Settle Throws 3;
   Enter 9000; Settle Resolves 9001].

End BreakerMoreSpec.

(* ===================================================================== *)
(** * Further vocabulary for the pool                                     *)
(* ===================================================================== *)

Module PoolMoreSpec.
Import Pool PoolSpec PoolMore.
Local Open Scope Z_scope.

(** The books of a pool. *)
Record tallied (p : Pool) : Prop := {
  tal_healthy : healthy (metrics p) = created (metrics p);
  tal_launched : Z.of_nat (launched p) = created (metrics p);
  tal_destroyed : 0 <= destroyed (metrics p);
  tal_handles :
    Z.of_nat (length (browsers p)) <=
      created (metrics p) - destroyed (metrics p);
  tal_requests :
    0 <= failedRequests (metrics p) <= totalRequests (metrics p);
  tal_pages : Z.of_nat (size (sessions p)) <= activePages (metrics p);
  tal_signals : 0 <= unhealthy (metrics p) /\ 0 <= crashed (metrics p)
}.

(** An event other than a call of [initialize]. *)
Definition not_initialize (e : Event) : bool :=
  match e with Initialize _ => false | _ => true end.

(** [initialize] is called first, if at all. *)
Definition initialize_first (es : list Event) : bool :=
  match es with
  | [] => true
  | _ :: es' => forallb not_initialize es'
  end.

(** The number of handles is within [maxBrowsers]. *)
Definition within_limit (p : Pool) : Prop :=
  Z.of_nat (length (browsers p)) <= Z.max 0 (maxBrowsers (config p)).

(** A sample run: the pool is initialized, a session is acquired, the
    first browser disconnects, a health check replaces it, the pool is
    shut down. *)
Definition sample_health : HealthEnv :=
  mkHealthEnv 40 c7_probe [(45, Launched 46)] 47 (fun _ => close_ok).

Definition sample_events : list Event :=
  [Initialize [(0, Launched 5); (10, Launched 15)];
   GetPage "s1" 20 ex_env; BrowserDisconnected 0;
   HealthCheck sample_health; Shutdown (fun _ => close_ok)].

(** The pool after [initialize] (handles 0 and 10) and a disconnect of
    the first browser. *)
Definition floor_pool : Pool :=
  run [Initialize [(0, Launched 5); (10, Launched 15)]; BrowserDisconnected 0]
    (new no_options).

(** The pool after [initialize] and one [getPage], which takes the first
    browser. *)
Definition leased_pool : Pool :=
  run [Initialize [(0, Launched 5); (10, Launched 15)]; GetPage "s1" 20 ex_env]
    (new no_options).

(** What is called on a pool after its [shutdown]. *)
Definition late_events : list Event :=
  [GetPage "s2" 60 ex_env; HealthCheck sample_health; BrowserDisconnected 0].

End PoolMoreSpec.

(* ===================================================================== *)
(** * Vocabulary for the retry loop                                       *)
(* ===================================================================== *)

Module RetrySpec.
Import Breaker Retry.
Local Open Scope Z_scope.

(** The delays of a run that uses all five attempts. *)
Definition backoff : list Z := [1000; 2000; 4000; 8000].

(** The clock readings of successive attempts, from attempt number
    [attempt] on: an attempt is entered at [c.1], not before [earliest],
    and is over at [c.2]; the next one is entered after the delay that
    [setTimeout] was given. *)
Fixpoint spaced (attempt : Z) (earliest : Z) (clock : list (Z * Z)) : Prop :=
  match clock with
  | [] => True
  | c :: rest =>
      earliest <= c.1 /\ c.1 <= c.2 /\
      spaced (attempt + 1) (c.2 + retry_delay attempt) rest
  end.

(** What an attempt finds: the breaker is not in the middle of a trial,
    and if it is OPEN its deadline is at most [sleepWindow] after
    [tau]. *)
Definition settled_by (tau : Z) (b : Breaker) : Prop :=
  state b <> HALF_OPEN /\
  (state b = OPEN ->
   exists na, nextAttempt b = Some na /\ na <= tau + sleepWindow (config b)).

(** A sample: searches that throw twice and then return, on a counter of
    the searches made. *)
Definition sample_searches : list (nat -> (string + string) * nat) :=
  [fun n => (inr "first", S n); fun n => (inr "second", S n);
   fun n => (inl "found", S n); fun n => (inr "unused", S n);
   fun n => (inr "unused", S n)].

(** An operation that throws whenever it is invoked. *)
Definition sample_operation : Operation nat nat :=
  fun w => (Fails "getBrowser is not a function", S w).

End RetrySpec.

(* ===================================================================== *)
(** * Vocabulary for the logger                                           *)
(* ===================================================================== *)

Module LoggerSpec.
Import Logger.
Local Open Scope Z_scope.

(** The redaction mark. *)
Definition is_redacted (v : JValue) : bool :=
  match v with
  | JString s => String.eqb s "***REDACTED***"
  | _ => false
  end.

(** At no depth does a sensitive key hold anything but the mark. *)
Fixpoint clean (v : JValue) : bool :=
  match v with
  | JArray items => forallb clean items
  | JObject entries =>
      forallb
        (fun kv : string * JValue =>
           if is_sensitive kv.1 then is_redacted kv.2 else clean kv.2)
        entries
  | _ => true
  end.

(** The character [c] occurs in [s]. *)
Fixpoint has_char (c : Ascii.ascii) (s : string) : bool :=
  match s with
  | EmptyString => false
  | String d s' => bool_decide (d = c) || has_char c s'
  end.

(** An upper-case ASCII letter. *)
Definition is_upper (c : Ascii.ascii) : bool :=
  (65 <=? Ascii.nat_of_ascii c)%nat && (Ascii.nat_of_ascii c <=? 90)%nat.

(** The words of [sensitiveKeys] written in lower case. *)
Definition lower_case_words : list string :=
  ["password"; "token"; "secret"; "authorization"; "cookie"; "ssn"].

(** A logger that sends to CloudWatch in batches of three, and a [meta]
    with a nested password and an [Error]. *)
Definition sample_logger : Logger :=
  mkLogger "BrowserPool" "production" JNull [] 3 true (Some 2).

Definition sample_meta : list (string * JValue) :=
  [("sessionId", JString "s1");
   ("credentials",
    JObject [("password", JString "hunter2"); ("apiKey", JString "k-123")]);
   ("error", JError "Error" "boom" "at line 1")].

End LoggerSpec.

(* ===================================================================== *)
(** * Facts about the circuit breaker                                     *)
(* ===================================================================== *)

Module BreakerFacts.
Import BreakerSpec.
Import Breaker.
Local Open Scope Z_scope.

Section Facts.

Variable float_pct_ge : nat -> nat -> Z -> bool.
Variables (W V : Type).

Local Abbreviation execute := (Breaker.execute float_pct_ge).
Local Abbreviation execute_settle := (Breaker.execute_settle float_pct_ge).
Local Abbreviation onFailure := (Breaker.onFailure float_pct_ge).
Local Abbreviation shouldOpen := (Breaker.shouldOpen float_pct_ge).
Local Abbreviation Operation := (Breaker.Operation W V).
Local Abbreviation Fallback := (Breaker.Fallback W V).

(** What a failing settlement does to a breaker, by the state it finds. *)
Lemma onFailure_closed now b :
  state b = CLOSED ->
  let b' := onFailure now b in
  config b' = config b /\
  ((state b' = CLOSED /\ failures b' = failures b + 1 /\
    failures b + 1 < threshold (config b) /\ nextAttempt b' = nextAttempt b) \/
   (state b' = OPEN /\ failures b' = failures b + 1 /\
    nextAttempt b' = Some (now + sleepWindow (config b)))).
Proof.
  intros Hs. unfold Breaker.onFailure. cbn [state recordRequest set_requestWindow
    set_metrics set_lastFailureTime set_failures]. rewrite Hs.
  destruct (shouldOpen now _) eqn:Hopen; cbn.
  - split; [reflexivity|]. right. auto.
  - split; [reflexivity|]. left.
    unfold Breaker.shouldOpen in Hopen. cbn in Hopen.
    destruct (failures b + 1 >=? threshold (config b)) eqn:Hge; [discriminate|].
    rewrite Z.geb_leb in Hge. apply Z.leb_gt in Hge. auto.
Qed.

Lemma onFailure_half_open now b :
  state b = HALF_OPEN ->
  let b' := onFailure now b in
  config b' = config b /\ state b' = OPEN /\ failures b' = failures b + 1 /\
  nextAttempt b' = Some (now + sleepWindow (config b)).
Proof.
  intros Hs. unfold Breaker.onFailure. cbn [state recordRequest set_requestWindow
    set_metrics set_lastFailureTime set_failures]. rewrite Hs. cbn. auto.
Qed.

(** A timer that fires adds one to [timeouts] and nothing else before
    [onFailure] runs. *)
Lemma execute_settle_failure s now b :
  s <> Resolves ->
  exists b0, execute_settle s now b = onFailure now b0 /\
    state b0 = state b /\ config b0 = config b /\ failures b0 = failures b /\
    nextAttempt b0 = nextAttempt b.
Proof.
  intros Hs. destruct s; [congruence| |]; eexists; split;
    try reflexivity; cbn; auto.
Qed.

Lemma execute_enter_passes now b :
  state b <> OPEN ->
  execute_enter now b =
    (LetThrough, set_metrics (incr_totalRequests (metrics b)) b).
Proof.
  intros Hs. unfold execute_enter. cbn. destruct (state b); congruence.
Qed.

Lemma execute_enter_early now b na :
  state b = OPEN -> nextAttempt b = Some na -> now < na ->
  execute_enter now b =
    (Rejected,
     set_metrics (incr_rejectedRequests (incr_totalRequests (metrics b))) b).
Proof.
  intros Hs Hna Hlt. unfold execute_enter. cbn. rewrite Hs, Hna. cbn.
  destruct (now >=? na) eqn:Hge; [|reflexivity].
  rewrite Z.geb_leb in Hge. apply Z.leb_le in Hge. lia.
Qed.

Lemma execute_enter_due now b na :
  state b = OPEN -> nextAttempt b = Some na -> na <= now ->
  execute_enter now b =
    (LetThrough,
     setState now HALF_OPEN
       (set_metrics (incr_totalRequests (metrics b)) b)).
Proof.
  intros Hs Hna Hle. unfold execute_enter. cbn. rewrite Hs, Hna. cbn.
  destruct (now >=? na) eqn:Hge; [reflexivity|].
  rewrite Z.geb_leb in Hge. apply Z.leb_gt in Hge. lia.
Qed.

(** The breaker a call leaves behind does not depend on the fallback. *)
Lemma execute_breaker_let_through t t' (fn : Operation) fb b w b1 :
  execute_enter t b = (LetThrough, b1) ->
  (execute t t' fn fb b w).1.2 =
    execute_settle (settlement_of (fn w).1) t' b1.
Proof.
  intros He. unfold Breaker.execute. rewrite He.
  destruct (fn w) as [r w1]. cbn [fst].
  destruct r; [reflexivity| |];
    (destruct fb as [fb|]; [destruct (executeFallback fb w1)|]; reflexivity).
Qed.

Lemma execute_breaker_rejected t t' (fn : Operation) fb b w b1 :
  execute_enter t b = (Rejected, b1) ->
  (execute t t' fn fb b w).1.2 = b1.
Proof.
  intros He. unfold Breaker.execute. rewrite He.
  destruct fb as [fb|]; [destruct (executeFallback fb w)|]; reflexivity.
Qed.

(** A failing call that finds the breaker CLOSED. *)
Lemma failing_call_closed t t' (fn : Operation) fb b w :
  state b = CLOSED -> always_fails fn ->
  let b' := (execute t t' fn fb b w).1.2 in
  config b' = config b /\
  ((state b' = CLOSED /\ failures b' = failures b + 1 /\
    failures b + 1 < threshold (config b)) \/
   (state b' = OPEN /\
    nextAttempt b' = Some (t' + sleepWindow (config b)))).
Proof.
  intros Hs Hfn. cbn zeta.
  rewrite (execute_breaker_let_through _ _ _ _ _ _ _
             (execute_enter_passes t b ltac:(congruence))).
  destruct (execute_settle_failure _ t'
              (set_metrics (incr_totalRequests (metrics b)) b) (Hfn w))
    as (b0 & -> & Hs0 & Hc0 & Hf0 & Hn0).
  cbn in Hs0, Hc0, Hf0, Hn0.
  destruct (onFailure_closed t' b0 ltac:(congruence)) as [Hc [H|H]].
  - split; [congruence|]. left. rewrite <- Hc0, <- Hf0. tauto.
  - split; [congruence|]. right. rewrite <- Hc0. tauto.
Qed.

(** A failing call that finds the breaker OPEN: rejected before
    [nextAttempt], a failed trial from it on. *)
Lemma failing_call_open t t' (fn : Operation) fb b w na :
  state b = OPEN -> nextAttempt b = Some na -> always_fails fn ->
  let b' := (execute t t' fn fb b w).1.2 in
  config b' = config b /\ state b' = OPEN /\
  (nextAttempt b' = Some na \/
   nextAttempt b' = Some (t' + sleepWindow (config b))).
Proof.
  intros Hs Hna Hfn. cbn zeta.
  destruct (Z.lt_ge_cases t na) as [Hlt|Hge].
  - rewrite (execute_breaker_rejected _ _ _ _ _ _ _
               (execute_enter_early t b na Hs Hna Hlt)).
    cbn. auto.
  - rewrite (execute_breaker_let_through _ _ _ _ _ _ _
               (execute_enter_due t b na Hs Hna Hge)).
    destruct (execute_settle_failure _ t'
                (setState t HALF_OPEN
                   (set_metrics (incr_totalRequests (metrics b)) b)) (Hfn w))
      as (b0 & -> & Hs0 & Hc0 & Hf0 & Hn0).
    cbn in Hs0, Hc0, Hf0, Hn0.
    destruct (onFailure_half_open t' b0 Hs0) as (Hc & Hst & _ & Hn).
    split; [congruence|]. split; [assumption|]. right. congruence.
Qed.

(** A call rejected on entry, without fallback: the operation is not
    run (the world is the one given, whatever [fn] is) and the caller gets
    [CircuitOpen]. *)
Lemma rejected_call now now' (fn : Operation) b w na :
  state b = OPEN -> nextAttempt b = Some na -> now < na ->
  execute now now' fn None b w =
    (inr CircuitOpen,
     set_metrics (incr_rejectedRequests (incr_totalRequests (metrics b))) b,
     w).
Proof.
  intros Hs Hna Hlt. unfold Breaker.execute.
  rewrite (execute_enter_early now b na Hs Hna Hlt). reflexivity.
Qed.

(** The trial call after the sleep window, when its operation returns. *)
Lemma trial_call_success now now' (fn : Operation) fb b w na v w' :
  state b = OPEN -> nextAttempt b = Some na -> na <= now ->
  fn w = (Returns v, w') ->
  exists b', execute now now' fn fb b w = (inl v, b', w') /\
    state b' = CLOSED /\ failures b' = 0 /\ nextAttempt b' = None.
Proof.
  intros Hs Hna Hle Hfn. unfold Breaker.execute.
  rewrite (execute_enter_due now b na Hs Hna Hle), Hfn.
  eexists. split; [reflexivity|]. cbn. auto.
Qed.

End Facts.

(** ** C1 *)

Section Cycle.

Variable float_pct_ge : nat -> nat -> Z -> bool.
Variables (W V : Type).

Local Abbreviation execute := (Breaker.execute float_pct_ge (W:=W) (V:=V)).


End Cycle.


(** The percentage rule can open the breaker before the third failure:
    on the sample breaker whose window already holds a failure, the first
    failing call opens it, and [nextAttempt] is that call's settling time
    plus [sleepWindow]. This is why C1 names three possible deadlines. *)
Example window_rule_opens_early :
  let b1 := (Breaker.execute exact_pct_ge 10 11 c1_fn None c1_b0_window 0%nat).1.2 in
  state c1_b0_window = CLOSED /\ failures c1_b0_window = 0 /\
  state b1 = OPEN /\ failures b1 = 1 /\ nextAttempt b1 = Some 5011.
Proof. vm_compute. repeat split; reflexivity. Qed.

(** ** C4 *)

Section NextAttempt.

Variable float_pct_ge : nat -> nat -> Z -> bool.

Local Abbreviation reachable := (Breaker.reachable float_pct_ge).
Local Abbreviation step := (Breaker.step float_pct_ge).

Lemma deadline_inv_new nm o now : deadline_inv (new nm o now).
Proof. unfold deadline_inv. cbn. tauto. Qed.

Lemma deadline_inv_setState_OPEN now b : deadline_inv (setState now OPEN b).
Proof. unfold deadline_inv. cbn. split; discriminate. Qed.

Lemma deadline_inv_enter now b a b' :
  deadline_inv b -> execute_enter now b = (a, b') -> deadline_inv b'.
Proof.
  unfold deadline_inv, execute_enter. cbn. intros Hinv He.
  destruct (state b) eqn:Hs; [| destruct (_ >=? _) in He |];
    inversion He; subst; clear He; cbn; rewrite ?Hs;
    split; intros Hx; try tauto; try discriminate Hx.
  apply Hinv in Hx. discriminate Hx.
Qed.

Lemma deadline_inv_onSuccess now b :
  deadline_inv b -> deadline_inv (onSuccess now b).
Proof.
  unfold deadline_inv, onSuccess. cbn. intros Hinv.
  destruct (state b) eqn:Hs; cbn; rewrite ?Hs; tauto.
Qed.

Lemma deadline_inv_onFailure now b :
  deadline_inv b -> deadline_inv (Breaker.onFailure float_pct_ge now b).
Proof.
  unfold deadline_inv, Breaker.onFailure. cbn. intros Hinv.
  destruct (state b) eqn:Hs; cbn.
  - destruct (Breaker.shouldOpen _ _ _); cbn; rewrite ?Hs; [|exact Hinv].
    split; discriminate.
  - rewrite Hs. exact Hinv.
  - split; discriminate.
Qed.

Lemma deadline_inv_settle s now b :
  deadline_inv b -> deadline_inv (Breaker.execute_settle float_pct_ge s now b).
Proof.
  intros Hinv. destruct s; cbn.
  - apply deadline_inv_onSuccess, Hinv.
  - apply deadline_inv_onFailure, Hinv.
  - apply deadline_inv_onFailure. exact Hinv.
Qed.

Lemma deadline_inv_step s s' :
  step s s' -> deadline_inv (breaker s) -> deadline_inv (breaker s').
Proof.
  intros Hstep Hinv. destruct Hstep; cbn in *.
  - eapply deadline_inv_enter; eassumption.
  - eapply deadline_inv_enter; eassumption.
  - apply deadline_inv_settle, Hinv.
  - exact Hinv.
  - apply deadline_inv_setState_OPEN.
  - unfold deadline_inv. cbn. tauto.
  - unfold deadline_inv. cbn. tauto.
Qed.

(** C4, as the code has it. In every reachable state of the breaker
    (constructor, then any interleaving of the segments of [execute] with
    [open], [close] and [reset]), [nextAttempt] is [null] if and only if the
    state is CLOSED. So it is set whenever the state is OPEN, and it is
    still set, with the deadline of the OPEN period just left, whenever the
    state is HALF_OPEN. *)
Theorem nextAttempt_null_iff_closed s :
  reachable s ->
  (nextAttempt (breaker s) = None <-> state (breaker s) = CLOSED) /\
  (state (breaker s) = OPEN -> is_Some (nextAttempt (breaker s))) /\
  (state (breaker s) = HALF_OPEN -> is_Some (nextAttempt (breaker s))).
Proof.
  intros Hr.
  assert (Hinv : deadline_inv (breaker s)).
  { induction Hr as [nm o now|s s' _ IH Hstep].
    - apply deadline_inv_new.
    - eapply deadline_inv_step; eassumption. }
  split; [exact Hinv|].
  unfold deadline_inv in Hinv.
  split; intros Hs; destruct (nextAttempt (breaker s)) eqn:Hn; eauto;
    assert (state (breaker s) = CLOSED) by tauto; congruence.
Qed.

End NextAttempt.

Lemma c4_trace_reachable :
  Breaker.reachable exact_pct_ge (mkSystem c4_b3 1).
Proof.
  eapply reachable_step.
  - eapply reachable_step.
    + eapply reachable_step.
      * apply (reachable_new exact_pct_ge "target" c4_options 0).
      * apply (step_enter_let_through exact_pct_ge 0 _ 0 c4_b1). reflexivity.
    + apply (step_settle exact_pct_ge Throws 1 c4_b1 0).
  - apply (step_enter_let_through exact_pct_ge 6000 c4_b2 0 c4_b3). reflexivity.
Defined.

(** The invariant at the end of the sample trace. *)
Lemma nextAttempt_null_iff_closed_witness :
  (nextAttempt c4_b3 = None <-> state c4_b3 = CLOSED) /\
  (state c4_b3 = OPEN -> is_Some (nextAttempt c4_b3)) /\
  (state c4_b3 = HALF_OPEN -> is_Some (nextAttempt c4_b3)).
Proof.
  exact (nextAttempt_null_iff_closed exact_pct_ge (mkSystem c4_b3 1)
           c4_trace_reachable).
Defined.

(** C4 as stated fails: the state reached by the trace is HALF_OPEN and
    [nextAttempt] still holds 5001. *)
Lemma nextAttempt_set_in_half_open :
  Breaker.reachable exact_pct_ge (mkSystem c4_b3 1) /\
  state c4_b3 = HALF_OPEN /\ nextAttempt c4_b3 = Some 5001 /\
  ~ (nextAttempt c4_b3 <> None <-> state c4_b3 = OPEN).
Proof.
  split; [exact c4_trace_reachable|].
  split; [reflexivity|]. split; [reflexivity|].
  intros [H _]. assert (E : state c4_b3 = OPEN) by (apply H; discriminate).
  discriminate E.
Qed.

(** ** C6 *)

Section Timeout.

Variable float_pct_ge : nat -> nat -> Z -> bool.
Variables (W V : Type).

Local Abbreviation execute := (Breaker.execute float_pct_ge (W:=W) (V:=V)).
Local Abbreviation onFailure := (Breaker.onFailure float_pct_ge).

Lemma execute_enter_accounting now b a b' :
  execute_enter now b = (a, b') -> same_accounting b b'.
Proof.
  unfold execute_enter. cbn. intros He.
  destruct (state b); [| destruct (_ >=? _) in He |];
    inversion He; subst; clear He; split; reflexivity.
Qed.

Lemma onFailure_accounting now b :
  let b' := onFailure now b in
  config b' = config b /\
  failures b' = failures b + 1 /\
  successes b' = successes b /\
  requestWindow b' =
    List.filter (in_window (config b) now)
      (requestWindow b ++ [mkRequest now false]) /\
  failedRequests (metrics b') = failedRequests (metrics b) + 1 /\
  successfulRequests (metrics b') = successfulRequests (metrics b) /\
  timeouts (metrics b') = timeouts (metrics b).
Proof.
  unfold Breaker.onFailure. cbn.
  destruct (state b); cbn; [destruct (Breaker.shouldOpen _ _ _); cbn| |];
    repeat split; reflexivity.
Qed.

(** One call let through whose operation does not settle within the timeout. *)
Lemma timed_out_call t t' (fn : Operation W V) fb b w :
  (execute_enter t b).1 = LetThrough ->
  (fn w).1 = Hangs ->
  let b' := (execute t t' fn fb b w).1.2 in
  config b' = config b /\
  failures b' = failures b + 1 /\
  successes b' = successes b /\
  requestWindow b' =
    List.filter (in_window (config b) t')
      (requestWindow b ++ [mkRequest t' false]) /\
  failedRequests (metrics b') = failedRequests (metrics b) + 1 /\
  successfulRequests (metrics b') = successfulRequests (metrics b) /\
  timeouts (metrics b') = timeouts (metrics b) + 1.
Proof.
  intros Ha Hfn. cbn zeta.
  destruct (execute_enter t b) as [a b1] eqn:He. cbn in Ha. subst a.
  rewrite (execute_breaker_let_through float_pct_ge W V t t' fn fb b w b1 He).
  rewrite Hfn. cbn [settlement_of Breaker.execute_settle].
  destruct (execute_enter_accounting _ _ _ _ He) as [Hc Hf Hs Hw Hfr Hsr Hto].
  pose proof (onFailure_accounting t'
                (set_metrics (incr_timeouts (metrics b1)) b1)) as H.
  cbn zeta in H. cbn [config failures successes requestWindow metrics
    set_metrics incr_timeouts failedRequests successfulRequests timeouts] in H.
  destruct H as (H1 & H2 & H3 & H4 & H5 & H6 & H7).
  rewrite H1, H2, H3, H4, H5, H6, H7, Hc, Hf, Hs, Hw, Hfr, Hsr, Hto.
  repeat split; reflexivity.
Qed.

Lemma count_errors_push c now w :
  0 <= rollingWindowSize c ->
  count_errors (List.filter (in_window c now) (w ++ [mkRequest now false])) =
    S (count_errors (List.filter (in_window c now) w)).
Proof.
  intros Hsz. unfold count_errors.
  assert (Hin : in_window c now (mkRequest now false) = true).
  { unfold in_window. cbn. apply Z.leb_le. lia. }
  rewrite !List.filter_app, !length_app. cbn [List.filter].
  rewrite Hin. cbn. lia.
Qed.

(** C6. A call of [execute] that is let through and whose operation does
    not settle within the timeout records exactly one failure: [failures],
    [metrics.failedRequests] and [metrics.timeouts] grow by one, one failed
    entry is pushed on the rolling window before the usual pruning (so the
    window holds one failure more than the entries it keeps, when the
    window size is not negative), and no success is counted; a later
    settlement of the operation changes nothing. Two such calls in a row
    record exactly two failures. With other callers in between, the job
    that settles a timed-out call still adds exactly one to each counter. *)
Theorem timeout_recorded_exactly_once
    (b b1 b2 : Breaker) (w w1 w2 : W) (r1 r2 : V + Error)
    (fn1 fn2 : Operation W V) (fb1 fb2 : option (Fallback W V))
    (t1 t1' t2 t2' : Z) :
  (execute_enter t1 b).1 = LetThrough -> (fn1 w).1 = Hangs ->
  execute t1 t1' fn1 fb1 b w = (r1, b1, w1) ->
  (execute_enter t2 b1).1 = LetThrough -> (fn2 w1).1 = Hangs ->
  execute t2 t2' fn2 fb2 b1 w1 = (r2, b2, w2) ->
  (* the first call *)
  (failures b1 = failures b + 1 /\
   failedRequests (metrics b1) = failedRequests (metrics b) + 1 /\
   timeouts (metrics b1) = timeouts (metrics b) + 1 /\
   successes b1 = successes b /\
   successfulRequests (metrics b1) = successfulRequests (metrics b) /\
   requestWindow b1 =
     List.filter (in_window (config b) t1')
       (requestWindow b ++ [mkRequest t1' false]) /\
   (0 <= rollingWindowSize (config b) ->
    count_errors (requestWindow b1) =
      S (count_errors
           (List.filter (in_window (config b) t1') (requestWindow b)))) /\
   late_settle b1 = b1) /\
  (* both calls *)
  (failures b2 = failures b + 2 /\
   failedRequests (metrics b2) = failedRequests (metrics b) + 2 /\
   timeouts (metrics b2) = timeouts (metrics b) + 2 /\
   successes b2 = successes b /\
   successfulRequests (metrics b2) = successfulRequests (metrics b) /\
   requestWindow b2 =
     List.filter (in_window (config b) t2')
       (requestWindow b1 ++ [mkRequest t2' false]) /\
   (0 <= rollingWindowSize (config b) ->
    count_errors (requestWindow b2) =
      S (count_errors
           (List.filter (in_window (config b) t2') (requestWindow b1)))) /\
   late_settle b2 = b2) /\
  (* the settling job alone, whatever other callers did in between *)
  (forall b' now,
      let b'' := Breaker.execute_settle float_pct_ge TimesOut now b' in
      failures b'' = failures b' + 1 /\
      failedRequests (metrics b'') = failedRequests (metrics b') + 1 /\
      timeouts (metrics b'') = timeouts (metrics b') + 1 /\
      successes b'' = successes b' /\
      successfulRequests (metrics b'') = successfulRequests (metrics b')).
Proof.
  intros Ha1 Hh1 E1 Ha2 Hh2 E2.
  pose proof (timed_out_call t1 t1' fn1 fb1 b w Ha1 Hh1) as H1.
  pose proof (timed_out_call t2 t2' fn2 fb2 b1 w1 Ha2 Hh2) as H2.
  cbn zeta in H1, H2. rewrite E1 in H1. rewrite E2 in H2. cbn [fst snd] in H1, H2.
  destruct H1 as (C1 & F1 & S1 & W1 & FR1 & SR1 & T1).
  destruct H2 as (C2 & F2 & S2 & W2 & FR2 & SR2 & T2).
  split; [|split].
  - repeat split; try assumption.
    intros Hsz. rewrite W1. apply count_errors_push, Hsz.
  - rewrite C1 in W2.
    repeat split; try lia; try congruence.
    intros Hsz. rewrite W2. apply count_errors_push, Hsz.
  - intros b' now. cbn zeta. cbn [Breaker.execute_settle].
    pose proof (onFailure_accounting now
                  (set_metrics (incr_timeouts (metrics b')) b')) as H.
    cbn zeta in H. cbn [config failures successes requestWindow metrics
      set_metrics incr_timeouts failedRequests successfulRequests timeouts] in H.
    destruct H as (_ & G2 & G3 & _ & G5 & G6 & G7).
    rewrite G2, G3, G5, G6, G7. repeat split; reflexivity.
Qed.

End Timeout.

(** Two calls of the sample operation that never settles. *)
Lemma timeout_recorded_exactly_once_witness :
  failures c6_s1.1.2 = 1 /\ failures c6_s2.1.2 = 2 /\
  failedRequests (metrics c6_s2.1.2) = 2 /\
  timeouts (metrics c6_s2.1.2) = 2 /\
  successfulRequests (metrics c6_s2.1.2) = 0.
Proof.
  pose proof (timeout_recorded_exactly_once exact_pct_ge nat nat
                c6_b0 c6_s1.1.2 c6_s2.1.2 0%nat c6_s1.2 c6_s2.2
                c6_s1.1.1 c6_s2.1.1 c6_fn c6_fn None None 0 60000 60001 120001
                ltac:(vm_compute; reflexivity) ltac:(vm_compute; reflexivity)
                ltac:(vm_compute; reflexivity) ltac:(vm_compute; reflexivity)
                ltac:(vm_compute; reflexivity) ltac:(vm_compute; reflexivity))
    as ((F1 & _) & (F2 & FR2 & T2 & _ & SR2 & _) & _).
  repeat split; assumption.
Defined.

End BreakerFacts.

(* ===================================================================== *)
(** * Facts about the browser pool                                        *)
(* ===================================================================== *)

Module PoolFacts.
Import PoolSpec.
Import Pool.
Local Open Scope Z_scope.

(** ** Ordered maps *)

Section JsMapFacts.

Context {K V : Type} `{EqDecision K}.
Implicit Types (m : list (K * V)) (k : K) (v : V).

Lemma get_None_delete k m : JsMap.get k m = None -> JsMap.delete k m = m.
Proof.
  unfold JsMap.get, JsMap.delete. induction m as [|kv m IH]; [reflexivity|].
  cbn. destruct (JsMap.has_key k kv) eqn:Hk; cbn; [discriminate|].
  intros Hm. f_equal. apply IH, Hm.
Qed.

Lemma length_set k v m : (length (JsMap.set k v m) <= S (length m))%nat.
Proof.
  induction m as [|kv m IH]; cbn; [lia|].
  destruct (JsMap.has_key k kv); cbn; lia.
Qed.

Lemma in_set k v m kv :
  In kv (JsMap.set k v m) -> kv = (k, v) \/ In kv m.
Proof.
  induction m as [|kv' m IH]; cbn.
  - intros [<-|[]]. now left.
  - destruct (JsMap.has_key k kv'); cbn; intros [Hx|Hx]; auto.
    destruct (IH Hx); auto.
Qed.

Lemma in_delete k m kv :
  In kv (JsMap.delete k m) -> In kv m /\ kv.1 <> k.
Proof.
  unfold JsMap.delete. rewrite List.filter_In. intros [Hin Hk].
  split; [exact Hin|]. unfold JsMap.has_key in Hk.
  apply negb_true_iff, bool_decide_eq_false in Hk. exact Hk.
Qed.

Lemma in_alter (f : V -> V) k m kv :
  In kv (JsMap.alter f k m) ->
  (In kv m /\ kv.1 <> k) \/ (exists v, In (k, v) m /\ kv = (k, f v)).
Proof.
  unfold JsMap.alter. rewrite List.in_map_iff. intros ([k' v'] & Hkv & Hin).
  unfold JsMap.has_key in Hkv. cbn in Hkv. case_bool_decide; subst.
  - right. eauto.
  - left. auto.
Qed.

(** Deleting every key leaves nothing. *)
Lemma delete_all (ks : list K) m :
  (forall kv, In kv m -> In kv.1 ks) ->
  foldl (fun m k => JsMap.delete k m) m ks = [].
Proof.
  revert m. induction ks as [|k ks IH]; intros m Hm; cbn.
  - destruct m as [|kv m]; [reflexivity|]. destruct (Hm kv). now left.
  - apply IH. intros kv Hin. apply in_delete in Hin as [Hin Hne].
    destruct (Hm kv Hin) as [Hk|Hk]; [congruence|exact Hk].
Qed.

End JsMapFacts.

(** ** [releasePage] *)

Lemma releasePage_absent sid c p :
  sessions p !! sid = None -> releasePage sid c p = (SessionNotFound, p).
Proof. intros H. unfold releasePage. rewrite H. reflexivity. Qed.

Lemma releasePage_failed sid c p s :
  sessions p !! sid = Some s -> closes_ok c = false ->
  releasePage sid c p = (ErrorReleasingPage, p).
Proof.
  intros H Hc. unfold releasePage. rewrite H.
  unfold closes_ok in Hc. destruct (pageClose c), (contextClose c);
    try discriminate; reflexivity.
Qed.

Lemma releasePage_done sid c p s :
  sessions p !! sid = Some s -> closes_ok c = true ->
  releasePage sid c p =
    (PageReleased,
     set_metrics (add_activePages (-1) (metrics p))
       (set_sessions (delete sid (sessions p)) p)).
Proof.
  intros H Hc. unfold releasePage. rewrite H.
  unfold closes_ok in Hc. destruct (pageClose c), (contextClose c);
    try discriminate; reflexivity.
Qed.

(** The log line tells which path was taken. *)
Lemma releasePage_released sid c p p' :
  releasePage sid c p = (PageReleased, p') ->
  exists s, sessions p !! sid = Some s /\ closes_ok c = true /\
    p' = set_metrics (add_activePages (-1) (metrics p))
           (set_sessions (delete sid (sessions p)) p).
Proof.
  unfold releasePage, closes_ok.
  destruct (sessions p !! sid) as [s|]; [|discriminate].
  destruct (pageClose c), (contextClose c); intros E; inversion E; eauto.
Qed.

(** C9. [releasePage] is idempotent: after a release that went through
    (the session was found and closed, [Page released] is logged), a second
    [releasePage] of the same id, whatever the driver would answer, finds no
    session, returns normally and leaves the whole pool as it is; so no
    record is removed and [activePages] and every handle are as the first
    release left them. *)
Theorem releasePage_idempotent sid c1 c2 p p1 :
  releasePage sid c1 p = (PageReleased, p1) ->
  releasePage sid c2 p1 = (SessionNotFound, p1) /\
  sessions (releasePage sid c2 p1).2 = sessions p1 /\
  browsers (releasePage sid c2 p1).2 = browsers p1 /\
  activePages (metrics (releasePage sid c2 p1).2) = activePages (metrics p1).
Proof.
  intros H. apply releasePage_released in H as (s & Hs & Hc & ->).
  assert (E : releasePage sid c2
                (set_metrics (add_activePages (-1) (metrics p))
                   (set_sessions (delete sid (sessions p)) p)) =
              (SessionNotFound,
               set_metrics (add_activePages (-1) (metrics p))
                 (set_sessions (delete sid (sessions p)) p))).
  { apply releasePage_absent. cbn. apply lookup_delete_eq. }
  rewrite E. auto.
Qed.

(** C10. For a registered session, [releasePage] is not atomic on error.
    When closing the page or the context throws, the method logs the error
    and returns normally with the pool unchanged: the session is still
    registered and [activePages] is not decremented. When neither close
    throws, the session is deleted and [activePages] decremented by one. So
    the session leaves the map exactly when no close throws. *)
Theorem releasePage_not_atomic_on_error sid c p s :
  sessions p !! sid = Some s ->
  (closes_ok c = false ->
     releasePage sid c p = (ErrorReleasingPage, p) /\
     sessions (releasePage sid c p).2 !! sid = Some s /\
     activePages (metrics (releasePage sid c p).2) = activePages (metrics p)) /\
  (closes_ok c = true ->
     (releasePage sid c p).1 = PageReleased /\
     sessions (releasePage sid c p).2 = delete sid (sessions p) /\
     activePages (metrics (releasePage sid c p).2) =
       activePages (metrics p) - 1) /\
  (sessions (releasePage sid c p).2 !! sid = None <-> closes_ok c = true) /\
  (closes_ok c = true <->
     pageClose c <> PageCloseThrows /\ contextClose c <> ContextCloseThrows).
Proof.
  intros Hs. split; [|split; [|split]].
  - intros Hc. rewrite (releasePage_failed sid c p s Hs Hc). auto.
  - intros Hc. rewrite (releasePage_done sid c p s Hs Hc). cbn.
    repeat split; reflexivity.
  - destruct (closes_ok c) eqn:Hc.
    + rewrite (releasePage_done sid c p s Hs Hc). cbn.
      rewrite lookup_delete_eq. tauto.
    + rewrite (releasePage_failed sid c p s Hs Hc). cbn. rewrite Hs.
      split; discriminate.
  - unfold closes_ok. destruct (pageClose c), (contextClose c);
      (split; [intros Hx; try discriminate Hx; split; discriminate
              |intros [Hp Hx]; try reflexivity; congruence]).
Qed.

(** A second release of ["s1"] on the sample pool, the driver throwing. *)
Lemma releasePage_idempotent_witness :
  releasePage "s1" page_close_throws ex_released =
    (SessionNotFound, ex_released) /\
  sessions (releasePage "s1" page_close_throws ex_released).2 =
    sessions ex_released /\
  browsers (releasePage "s1" page_close_throws ex_released).2 =
    browsers ex_released /\
  activePages (metrics (releasePage "s1" page_close_throws ex_released).2) =
    activePages (metrics ex_released).
Proof.
  apply (releasePage_idempotent "s1" close_ok page_close_throws ex_pool).
  vm_compute. reflexivity.
Defined.

(** The release of ["s1"] on the sample pool when the page throws on
    [close()]. *)
Lemma releasePage_not_atomic_on_error_witness :
  releasePage "s1" page_close_throws ex_pool = (ErrorReleasingPage, ex_pool) /\
  is_Some (sessions (releasePage "s1" page_close_throws ex_pool).2 !! "s1") /\
  activePages (metrics (releasePage "s1" page_close_throws ex_pool).2) = 1.
Proof.
  destruct (releasePage_not_atomic_on_error "s1" page_close_throws ex_pool
              (mkSession "s1" 0%nat 1%nat 1%nat 6 6)
              ltac:(vm_compute; reflexivity)) as [Hfail _].
  destruct (Hfail ltac:(reflexivity)) as (E & Hs & Ha).
  split; [exact E|]. split; [rewrite Hs; eauto|]. rewrite Ha. reflexivity.
Defined.

(** ** C2 *)

Lemma createBrowser_effect now l p r p' :
  createBrowser now l p = (r, p') ->
  same_handles p p' /\
  (length (browsers p') <= S (length (browsers p)))%nat /\
  (forall kb, In kb (browsers p') ->
     In kb (browsers p) \/ (contexts kb.2 = [] /\ isHealthy kb.2 = true)).
Proof.
  unfold createBrowser. destruct l as [t|]; intros E; inversion E; subst; clear E.
  - split; [split; reflexivity|]. cbn. split; [apply length_set|].
    intros kb Hin. apply in_set in Hin as [->|Hin]; auto.
  - split; [split; reflexivity|]. split; [lia|]. auto.
Qed.

Lemma getAvailableBrowser_effect now l clock p r p' :
  getAvailableBrowser now l clock p = (r, p') ->
  same_handles p p' /\
  (Z.of_nat (length (browsers p)) <= maxBrowsers (config p) ->
   Z.of_nat (length (browsers p')) <= maxBrowsers (config p)) /\
  (forall kb, In kb (browsers p') ->
     In kb (browsers p) \/ (contexts kb.2 = [] /\ isHealthy kb.2 = true)).
Proof.
  unfold getAvailableBrowser. destruct (scan p) as [i|].
  { intros E; inversion E; subst. split; [split; reflexivity|]. auto. }
  destruct (_ <? _) eqn:Hlt.
  - intros E. apply createBrowser_effect in E as (Hsame & Hlen & Hin).
    split; [exact Hsame|]. split; [|exact Hin].
    apply Z.ltb_lt in Hlt. lia.
  - destruct (waitForAvailableBrowser _ _ _); intros E; inversion E; subst;
      (split; [split; reflexivity|]; auto).
Qed.

Lemma getPage_effect sid now env p r p' :
  getPage sid now env p = (r, p') -> getPage_post sid p r p'.
Proof.
  unfold getPage. cbn [isShuttingDown set_metrics].
  destruct (isShuttingDown p) eqn:Hsd.
  { intros E; inversion E; subst. unfold getPage_post. cbn.
    split; [reflexivity|]. split; [reflexivity|]. split; [auto|].
    split; [auto|]. left. split; [reflexivity|]. split; [reflexivity|].
    discriminate. }
  destruct (getAvailableBrowser _ _ _ _) as [r0 p0] eqn:Hg.
  apply getAvailableBrowser_effect in Hg as ([Hc Hs Hss Ha] & Hlen & Hin).
  cbn in Hc, Hs, Hss, Ha, Hlen, Hin.
  assert (Hnone : forall r1, (forall pg, r1 <> Returned pg) ->
            (r1, count_failed_request p0) = (r, p') \/ (r1, p0) = (r, p') ->
            getPage_post sid p r p').
  { intros r1 Hr1 [E|E]; inversion E; subst; unfold getPage_post; cbn;
      (split; [congruence|]); (split; [congruence|]);
      (split; [exact Hlen|]); (split; [exact Hin|]); left; auto. }
  destruct r0 as [inst|e|].
  - destruct (newContext env) as [ctx|];
      [|intros E; apply (Hnone (Threw DriverError)); [discriminate|auto]].
    destruct (newPage env) as [pg|];
      [|intros E; apply (Hnone (Threw DriverError)); [discriminate|auto]].
    intros E; inversion E; subst; unfold getPage_post; cbn.
    split; [congruence|]. split; [congruence|]. split; [exact Hlen|].
    split; [exact Hin|]. right. eexists _, _. split; [reflexivity|].
    rewrite Hss, Ha. auto.
  - intros E. apply (Hnone (Threw e)); [discriminate|auto].
  - intros E. apply (Hnone Pending); [discriminate|auto].
Qed.

Lemma releasePage_effect sid c p :
  let p' := (releasePage sid c p).2 in
  config p' = config p /\ isShuttingDown p' = isShuttingDown p /\
  browsers p' = browsers p /\ launched p' = launched p /\
  healthCheckTimer p' = healthCheckTimer p /\ slack p' = slack p.
Proof.
  cbn zeta. destruct (sessions p !! sid) as [s|] eqn:Hs.
  - destruct (closes_ok c) eqn:Hc.
    + rewrite (releasePage_done sid c p s Hs Hc). unfold slack. cbn.
      repeat split; try reflexivity.
      pose proof (map_size_delete sid (sessions p)) as Hd.
      rewrite Hs in Hd. cbn in Hd.
      pose proof (map_size_ne_0_lookup_2 (sessions p) sid (mk_is_Some _ _ Hs)).
      lia.
    + rewrite (releasePage_failed sid c p s Hs Hc). auto 10.
  - rewrite (releasePage_absent sid c p Hs). auto 10.
Qed.

Lemma sum_counts_zero p :
  sum_counts p = 0%nat <->
  forall kb, In kb (browsers p) -> contexts kb.2 = [].
Proof.
  unfold sum_counts. induction (browsers p) as [|kb bs [IH1 IH2]].
  - split; [intros _ kb []|reflexivity].
  - change (list_sum (List.map _ (kb :: bs))) with
      (length (contexts kb.2) +
       list_sum (List.map (fun kb : Z * Browser => length (contexts kb.2)) bs))%nat.
    rewrite Nat.eq_add_0. split.
    + intros [H0 Hsum] kb' [<-|Hin].
      * destruct (contexts kb.2); [reflexivity|discriminate H0].
      * apply IH1; assumption.
    + intros Hall. split.
      * rewrite (Hall kb (or_introl eq_refl)). reflexivity.
      * apply IH2. intros kb' Hin. apply Hall. now right.
Qed.

(** One [getPage] or [releasePage]. *)
Lemma acquire_or_release_step e p :
  acquire_or_release e ->
  let p' := apply e p in
  config p' = config p /\
  (Z.of_nat (length (browsers p)) <= maxBrowsers (config p) ->
   Z.of_nat (length (browsers p')) <= maxBrowsers (config p)) /\
  (forall kb, In kb (browsers p') -> In kb (browsers p) \/ contexts kb.2 = []) /\
  slack p <= slack p' /\
  (match e with
   | GetPage sid _ _ => sessions p !! sid = None
   | _ => True
   end -> slack p' = slack p).
Proof.
  destruct e as [| sid now env | sid c | | | | | | | |]; cbn [acquire_or_release];
    try contradiction; intros _; cbn [apply].
  - destruct (getPage sid now env p) as [r p'] eqn:Hg. cbn zeta. cbn [snd].
    apply getPage_effect in Hg as (Hc & _ & Hlen & Hin & Hs).
    split; [exact Hc|]. split; [exact Hlen|].
    split; [intros kb Hkb; destruct (Hin kb Hkb) as [?|[? _]]; auto|].
    unfold slack.
    destruct Hs as [(Hs & Ha & _)|(s & pg & _ & Hs & Ha)]; rewrite Hs, Ha.
    + split; [lia|reflexivity].
    + pose proof (map_size_insert sid s (sessions p)) as Hsz.
      destruct (sessions p !! sid) eqn:Hl; cbn in Hsz; rewrite Hsz.
      * split; [lia|discriminate].
      * split; [lia|]. intros _. lia.
  - pose proof (releasePage_effect sid c p) as (Hc & _ & Hb & _ & _ & Hsl).
    cbn zeta in *. rewrite Hb, Hc, Hsl.
    split; [reflexivity|]. split; [tauto|]. split; [auto|].
    split; [lia|reflexivity].
Qed.

(** C2, as the code has it. Take a pool whose handles do not exceed
    [maxBrowsers] and any sequence of [getPage] and [releasePage] calls, each
    run to its end before the next. At every point: the handles do not
    exceed [maxBrowsers]; every handle is one the pool had, with the count
    ([contexts]) it had, or a new one whose count is empty, so the sum of
    the counts stays zero if it was zero and does not follow the sessions;
    the counter that follows them is [metrics.activePages]: it never falls
    behind the number of registered sessions, and the difference between
    the two is constant when no [getPage] names a session that is still
    registered. *)
Theorem acquire_release_accounting p0 es :
  Forall acquire_or_release es ->
  Z.of_nat (length (browsers p0)) <= maxBrowsers (config p0) ->
  let p := run es p0 in
  Z.of_nat (length (browsers p)) <= maxBrowsers (config p0) /\
  (forall kb, In kb (browsers p) -> In kb (browsers p0) \/ contexts kb.2 = []) /\
  (sum_counts p0 = 0%nat -> sum_counts p = 0%nat) /\
  slack p0 <= slack p /\
  (fresh_ids es p0 -> slack p = slack p0).
Proof.
  intros Hes. revert p0. induction Hes as [|e es He Hes IH]; intros p0 Hlen.
  - cbn. split; [exact Hlen|]. split; [auto|]. split; [auto|].
    split; [lia|reflexivity].
  - cbn zeta. change (run (e :: es) p0) with (run es (apply e p0)).
    destruct (acquire_or_release_step e p0 He) as (Hc & Hl & Hin & Hsl & Hfr).
    cbn zeta in *.
    specialize (IH (apply e p0)). rewrite Hc in IH.
    destruct (IH (Hl Hlen)) as (IH1 & IH2 & IH3 & IH4 & IH5).
    assert (Hkeep : forall kb, In kb (browsers (run es (apply e p0))) ->
              In kb (browsers p0) \/ contexts kb.2 = []).
    { intros kb Hkb. destruct (IH2 kb Hkb) as [H|H]; auto. }
    split; [exact IH1|]. split; [exact Hkeep|]. split; [|split].
    + intros H0. apply sum_counts_zero. intros kb Hkb.
      destruct (Hkeep kb Hkb) as [H|H]; [|exact H].
      apply (proj1 (sum_counts_zero p0) H0 kb H).
    + lia.
    + cbn [fresh_ids]. intros [Hf1 Hf2]. rewrite (IH5 Hf2). apply Hfr.
      destruct e; auto.
Qed.

(** The accounting on the sample sequence, from a new pool. *)
Lemma acquire_release_accounting_witness :
  let p := run c2_events (new no_options) in
  Z.of_nat (length (browsers p)) <= 5 /\
  sum_counts p = 0%nat /\
  activePages (metrics p) = Z.of_nat (size (sessions p)).
Proof.
  destruct (acquire_release_accounting (new no_options) c2_events)
    as (H1 & _ & H3 & _ & H5).
  - repeat constructor.
  - vm_compute. discriminate.
  - cbn zeta. split; [exact H1|]. split; [apply H3; reflexivity|].
    assert (Hf : fresh_ids c2_events (new no_options))
      by (vm_compute; repeat split; reflexivity).
    assert (H0 : slack (new no_options) = 0) by (vm_compute; reflexivity).
    specialize (H5 Hf). rewrite H0 in H5. unfold slack in H5. lia.
Defined.

(** C2 as stated fails after the first [getPage] on a new pool: one
    session is registered, and the counts of the handles sum to zero. Read
    with the pool-wide counter in place of the handle counts it still fails
    when a session id is acquired twice: one session is registered and
    [activePages] is 2. *)
Lemma handle_counts_do_not_follow_sessions :
  let p := run [GetPage "s1" 0 ex_env] (new no_options) in
  let q := run [GetPage "s1" 0 ex_env; GetPage "s1" 10 ex_env] (new no_options) in
  (size (sessions p) = 1%nat /\ sum_counts p = 0%nat /\
   sum_counts p <> size (sessions p)) /\
  (size (sessions q) = 1%nat /\ activePages (metrics q) = 2 /\
   activePages (metrics q) <> Z.of_nat (size (sessions q))).
Proof. vm_compute. repeat split; try reflexivity; discriminate. Qed.

(** ** C3 *)

Lemma waitForAvailableBrowser_post timeout startTime wakeups :
  wait_post timeout startTime wakeups
    (waitForAvailableBrowser timeout startTime wakeups).
Proof.
  induction wakeups as [|[t p] rest IH]; cbn.
  - constructor.
  - destruct (t - startTime <? timeout) eqn:Hlt.
    + apply Z.ltb_lt in Hlt. destruct (scan p) as [i|] eqn:Hscan.
      * exists [], p, rest. cbn. auto.
      * assert (Hgo : turn_goes_on timeout startTime (t, p)) by (split; assumption).
        destruct (waitForAvailableBrowser timeout startTime rest) as [i t'|t'|];
          cbn in IH |- *.
        -- destruct IH as (before & p' & after & -> & Hb & Hrest).
           exists ((t, p) :: before), p', after. split; [reflexivity|].
           split; [constructor; assumption|exact Hrest].
        -- destruct IH as (before & p' & after & -> & Hb & Hrest).
           exists ((t, p) :: before), p', after. split; [reflexivity|].
           split; [constructor; assumption|exact Hrest].
        -- constructor; assumption.
    + apply Z.ltb_ge in Hlt. exists [], p, rest. cbn. auto.
Qed.

(** [releasePage] writes nothing the scan reads. *)
Lemma scan_releasePage sid c p : scan (releasePage sid c p).2 = scan p.
Proof.
  pose proof (releasePage_effect sid c p) as (Hc & _ & Hb & _).
  cbn zeta in *. unfold scan. rewrite Hc, Hb. reflexivity.
Qed.

(** C3, as the code has it. When no handle passes the scan and the pool
    may not grow, [getAvailableBrowser] waits by polling with a timeout of
    10000 ms, the default of [waitForAvailableBrowser], whatever the
    configuration says. Each turn reads the clock: if less than the timeout
    has gone by since the wait began, the turn scans the pool and returns
    the first healthy handle below [maxPages], else it throws the timeout
    error. So the wait fails at the first turn at or after the timeout,
    never at an earlier one, and it returns a handle only at a turn that is
    in time and finds one. A turn is not woken by [releasePage], which
    changes nothing the scan looks at. *)
Theorem wait_polls_until_fixed_timeout :
  (forall now l clock p,
      scan p = None ->
      maxBrowsers (config p) <= Z.of_nat (length (browsers p)) ->
      getAvailableBrowser now l clock p =
        (match waitForAvailableBrowser 10000 now
                 (List.map (fun t => (t, p)) clock) with
         | Found i _ => Returned i
         | TimedOut _ => Threw PoolExhausted
         | StillWaiting => Pending
         end, p)) /\
  (forall timeout startTime wakeups,
      wait_post timeout startTime wakeups
        (waitForAvailableBrowser timeout startTime wakeups)) /\
  (forall sid c p, scan (releasePage sid c p).2 = scan p).
Proof.
  split; [|split].
  - intros now l clock p Hscan Hfull. unfold getAvailableBrowser.
    rewrite Hscan.
    destruct (_ <? _) eqn:Hlt; [apply Z.ltb_lt in Hlt; lia|].
    unfold wait_timeout.
    destruct (waitForAvailableBrowser _ _ _); reflexivity.
  - apply waitForAvailableBrowser_post.
  - apply scan_releasePage.
Qed.

(** C3 as stated fails: the waiter is still blocked 202 ms after it began
    although the configured timeout is 50 ms; the release of ["s1"] does
    not let it through; and it fails 10100 ms after it began, not at the
    timeout. *)
Lemma wait_ignores_configuration_and_release :
  scan c3_full = None /\
  Z.of_nat (length (browsers c3_full)) = maxBrowsers (config c3_full) /\
  timeout (config c3_full) = 50 /\
  (getAvailableBrowser 1000 LaunchFailed [1000; 1101; 1202] c3_full).1 =
    Pending /\
  sessions c3_released = ∅ /\
  waitForAvailableBrowser wait_timeout 1000 c3_wakeups = TimedOut 11100 /\
  11100 - 1000 <> timeout (config c3_full) /\
  11100 - 1000 <> wait_timeout.
Proof. vm_compute. repeat split; try reflexivity; discriminate. Qed.

(** ** C8 *)

(** What the release of sessions and the removal of browsers leave alone. *)
Lemma release_all_effect ids closes p :
  let p' := release_all ids closes p in
  config p' = config p /\ isShuttingDown p' = isShuttingDown p /\
  browsers p' = browsers p /\ launched p' = launched p /\
  healthCheckTimer p' = healthCheckTimer p /\ slack p' = slack p.
Proof.
  cbn zeta. revert p. induction ids as [|sid ids IH]; intros p.
  - cbn. auto 10.
  - change (release_all (sid :: ids) closes p)
      with (release_all ids closes (releasePage sid (closes sid) p).2).
    destruct (IH (releasePage sid (closes sid) p).2) as (H1 & H2 & H3 & H4 & H5 & H6).
    destruct (releasePage_effect sid (closes sid) p) as (G1 & G2 & G3 & G4 & G5 & G6).
    cbn zeta in *. repeat split; congruence.
Qed.

(** The sessions a loop of releases leaves: those it did not name and
    those whose close threw. *)
Lemma release_all_lookup ids closes p k :
  sessions (release_all ids closes p) !! k =
    if bool_decide (k ∈ ids) && closes_ok (closes k)
    then None else sessions p !! k.
Proof.
  revert p. induction ids as [|sid ids IH]; intros p.
  - cbn. rewrite bool_decide_eq_false_2 by apply not_elem_of_nil. reflexivity.
  - change (release_all (sid :: ids) closes p)
      with (release_all ids closes (releasePage sid (closes sid) p).2).
    rewrite IH.
    assert (Hone : sessions (releasePage sid (closes sid) p).2 !! k =
              if bool_decide (k = sid) && closes_ok (closes k)
              then None else sessions p !! k).
    { clear IH. destruct (decide (k = sid)) as [->|Hk];
        [rewrite bool_decide_eq_true_2 by reflexivity
        |rewrite bool_decide_eq_false_2 by exact Hk]; cbn [andb].
      - destruct (sessions p !! sid) as [s|] eqn:Hs.
        + destruct (closes_ok (closes sid)) eqn:Hc.
          * rewrite (releasePage_done sid _ p s Hs Hc). cbn.
            apply lookup_delete_eq.
          * rewrite (releasePage_failed sid _ p s Hs Hc). exact Hs.
        + rewrite (releasePage_absent sid _ p Hs). cbn. rewrite Hs.
          destruct (closes_ok (closes sid)); reflexivity.
      - destruct (sessions p !! sid) as [s|] eqn:Hs.
        + destruct (closes_ok (closes sid)) eqn:Hc.
          * rewrite (releasePage_done sid _ p s Hs Hc). cbn.
            apply lookup_delete_ne. congruence.
          * rewrite (releasePage_failed sid _ p s Hs Hc). reflexivity.
        + rewrite (releasePage_absent sid _ p Hs). reflexivity. }
    rewrite Hone. clear IH Hone.
    destruct (closes_ok (closes k)); rewrite ?andb_false_r; [|reflexivity].
    rewrite !andb_true_r.
    rewrite (bool_decide_ext (k ∈ sid :: ids) (k = sid \/ k ∈ ids))
      by apply elem_of_cons.
    repeat case_bool_decide; cbn in *; try reflexivity; tauto.
Qed.

Lemma removeBrowser_effect k p :
  let p' := removeBrowser k p in
  config p' = config p /\ isShuttingDown p' = isShuttingDown p /\
  sessions p' = sessions p /\ launched p' = launched p /\
  healthCheckTimer p' = healthCheckTimer p /\
  activePages (metrics p') = activePages (metrics p) /\
  browsers p' = JsMap.delete k (browsers p).
Proof.
  cbn zeta. unfold removeBrowser.
  destruct (JsMap.get k (browsers p)) eqn:Hg; cbn.
  - auto 10.
  - rewrite (get_None_delete k _ Hg). auto 10.
Qed.

Lemma remove_all_effect ks p :
  let p' := foldl (fun p k => removeBrowser k p) p ks in
  config p' = config p /\ isShuttingDown p' = isShuttingDown p /\
  sessions p' = sessions p /\ launched p' = launched p /\
  healthCheckTimer p' = healthCheckTimer p /\
  activePages (metrics p') = activePages (metrics p) /\
  browsers p' = foldl (fun m k => JsMap.delete k m) (browsers p) ks.
Proof.
  cbn zeta. revert p. induction ks as [|k ks IH]; intros p; cbn [foldl].
  - auto 10.
  - destruct (IH (removeBrowser k p)) as (H1 & H2 & H3 & H4 & H5 & H6 & H7).
    destruct (removeBrowser_effect k p) as (G1 & G2 & G3 & G4 & G5 & G6 & G7).
    cbn zeta in *. repeat split; congruence.
Qed.

Lemma in_keys {K V : Type} (m : list (K * V)) kv :
  In kv m -> In kv.1 (JsMap.keys m).
Proof. apply List.in_map. Qed.

(** What [shutdown] leaves. *)
Lemma shutdown_effect closes p :
  let p1 := shutdown closes p in
  config p1 = config p /\ isShuttingDown p1 = true /\ browsers p1 = [] /\
  healthCheckTimer p1 <> Some true /\ launched p1 = launched p /\
  (forall sid, sessions p1 !! sid =
     if closes_ok (closes sid) then None else sessions p !! sid).
Proof.
  cbn zeta. unfold shutdown.
  set (p0 := clear_timer (set_isShuttingDown true p)).
  assert (H0 : config p0 = config p /\ isShuttingDown p0 = true /\
               browsers p0 = browsers p /\ sessions p0 = sessions p /\
               healthCheckTimer p0 <> Some true /\ launched p0 = launched p).
  { unfold p0, clear_timer. cbn.
    destruct (healthCheckTimer p) eqn:E; cbn; rewrite ?E;
      repeat split; congruence. }
  destruct H0 as (C0 & S0 & B0 & SS0 & T0 & L0).
  set (ids := (map_to_list (sessions p0)).*1).
  destruct (release_all_effect ids closes p0) as (C1 & S1 & B1 & L1 & T1 & _).
  cbn zeta in *.
  set (pr := release_all ids closes p0) in *.
  destruct (remove_all_effect (JsMap.keys (browsers pr)) pr)
    as (C2 & S2 & SS2 & L2 & T2 & _ & B2).
  cbn zeta in *.
  split; [congruence|]. split; [congruence|]. split; [|split; [|split]].
  - rewrite B2. apply delete_all. intros kv. apply in_keys.
  - congruence.
  - congruence.
  - intros sid. rewrite SS2. unfold pr. rewrite release_all_lookup.
    destruct (closes_ok (closes sid)); rewrite ?andb_false_r, ?andb_true_r;
      [|congruence].
    case_bool_decide as Hin; [reflexivity|]. rewrite SS0.
    destruct (sessions p !! sid) as [s|] eqn:Hs; [|reflexivity].
    exfalso. apply Hin. unfold ids. rewrite SS0.
    apply list_elem_of_fmap. exists (sid, s).
    split; [reflexivity|]. apply elem_of_map_to_list. exact Hs.
Qed.

(** A pool that is shut down, holds nothing and has no armed timer is a
    fixed point of [shutdown]. *)
Lemma shutdown_idle closes p :
  isShuttingDown p = true -> healthCheckTimer p <> Some true ->
  sessions p = ∅ -> browsers p = [] ->
  shutdown closes p = p.
Proof.
  destruct p as [c bs ss m t sd n]. cbn. intros -> Ht -> ->.
  unfold shutdown, clear_timer. cbn.
  destruct t as [[|]|]; [congruence| |]; cbn;
    rewrite map_to_list_empty; reflexivity.
Qed.

(** No call clears [isShuttingDown]. *)
Lemma createBrowser_shutting now l p :
  isShuttingDown (createBrowser now l p).2 = isShuttingDown p.
Proof. destruct l; reflexivity. Qed.

Lemma ensure_minimum_shutting attempts p :
  isShuttingDown (ensure_minimum attempts p).2 = isShuttingDown p.
Proof.
  revert p. induction attempts as [|[now l] rest IH]; intros p; cbn.
  - destruct (_ && _); reflexivity.
  - destruct (_ && _); [|reflexivity].
    pose proof (createBrowser_shutting now l p) as Hc.
    destruct (createBrowser now l p) as [[i|e|] p']; cbn in *;
      [rewrite IH|..]; exact Hc.
Qed.

Lemma create_browsers_shutting n attempts p :
  isShuttingDown (create_browsers n attempts p).2 = isShuttingDown p.
Proof.
  revert attempts p. induction n as [|n IH]; intros attempts p; cbn.
  - reflexivity.
  - destruct attempts as [|[now l] rest]; [reflexivity|].
    pose proof (createBrowser_shutting now l p) as Hc.
    destruct (createBrowser now l p) as [[i|e|] p']; cbn in *;
      [rewrite IH|..]; exact Hc.
Qed.

Lemma checkBrowserHealth_shutting k pr now p :
  isShuttingDown (checkBrowserHealth k pr now p) = isShuttingDown p.
Proof. unfold checkBrowserHealth. destruct (probe_passes pr); reflexivity. Qed.

Lemma probe_all_shutting (f : Z -> Probe) now p :
  isShuttingDown (probe_all f now p) = isShuttingDown p.
Proof.
  unfold probe_all. generalize (JsMap.keys (browsers p)). intros ks.
  revert p. induction ks as [|k ks IH]; intros p; cbn [foldl]; [reflexivity|].
  rewrite IH. apply checkBrowserHealth_shutting.
Qed.

Lemma finish_health_check_shutting attempts now closes p :
  isShuttingDown (finish_health_check attempts now closes p).2 =
    isShuttingDown p.
Proof.
  unfold finish_health_check, cleanupUnhealthyBrowsers, cleanupStaleSessions.
  set (p2 := foldl _ p (unhealthy_ids p)).
  assert (H2 : isShuttingDown p2 = isShuttingDown p)
    by apply (remove_all_effect (unhealthy_ids p) p).
  pose proof (ensure_minimum_shutting attempts p2) as H3.
  destruct (ensure_minimum attempts p2) as [[u|e|] p3]; cbn in *;
    try congruence.
  destruct (release_all_effect (stale_ids now p3) closes p3) as (_ & H4 & _).
  cbn zeta in H4. congruence.
Qed.

Lemma performHealthCheck_shutting env p :
  isShuttingDown (performHealthCheck env p).2 = isShuttingDown p.
Proof.
  unfold performHealthCheck.
  rewrite finish_health_check_shutting. apply probe_all_shutting.
Qed.

Lemma apply_shutting e p :
  isShuttingDown p = true -> isShuttingDown (apply e p) = true.
Proof.
  intros Hp.
  destruct e as [att|sid now env|sid c|env|k pr now|att now closes|k|sid c
                |sid|sid now|closes];
    cbn [apply].
  - unfold initialize.
    pose proof (create_browsers_shutting
                  (Z.to_nat (minBrowsers (config p))) att p) as Hc.
    destruct (create_browsers _ att p) as [[u|e|] p']; cbn in *; congruence.
  - destruct (getPage sid now env p) as [r p'] eqn:Hg.
    apply getPage_effect in Hg as (_ & Hs & _). cbn. congruence.
  - destruct (releasePage_effect sid c p) as (_ & Hs & _). cbn zeta in Hs.
    congruence.
  - rewrite performHealthCheck_shutting. exact Hp.
  - rewrite checkBrowserHealth_shutting. exact Hp.
  - rewrite finish_health_check_shutting. exact Hp.
  - exact Hp.
  - unfold handlePageCrash.
    destruct (releasePage_effect sid c
                (set_metrics (add_crashed 1 (metrics p)) p)) as (_ & Hs & _).
    cbn zeta in Hs. rewrite Hs. exact Hp.
  - unfold handlePageError. destruct (sessions p !! sid); exact Hp.
  - exact Hp.
  - apply (shutdown_effect closes p).
Qed.

Lemma run_shutting es p :
  isShuttingDown p = true -> isShuttingDown (run es p) = true.
Proof.
  revert p. induction es as [|e es IH]; intros p Hp; [exact Hp|].
  change (run (e :: es) p) with (run es (apply e p)).
  apply IH, apply_shutting, Hp.
Qed.

Lemma getPage_shutting sid now env p :
  isShuttingDown p = true ->
  getPage sid now env p =
    (Threw PoolShuttingDown,
     count_failed_request (set_metrics (add_totalRequests 1 (metrics p)) p)).
Proof. intros Hp. unfold getPage. cbn. rewrite Hp. reflexivity. Qed.

(** C8, as the code has it. After [shutdown]: every later [getPage],
    after any further calls, throws the shutting-down error and registers
    nothing; no handle is left, so no handle reports a session; a session
    is gone if its page and context closed without a throw, and it is still
    registered if a close threw. When every registered session closes
    without a throw, no session is left and a second [shutdown] changes
    nothing. *)
Theorem shutdown_refuses_and_empties closes p :
  let p1 := shutdown closes p in
  (forall es sid now env,
      let q := run es p1 in
      (getPage sid now env q).1 = Threw PoolShuttingDown /\
      sessions (getPage sid now env q).2 = sessions q /\
      browsers (getPage sid now env q).2 = browsers q) /\
  browsers p1 = [] /\ sum_counts p1 = 0%nat /\
  (forall sid, sessions p1 !! sid =
     if closes_ok (closes sid) then None else sessions p !! sid) /\
  ((forall sid s, sessions p !! sid = Some s -> closes_ok (closes sid) = true) ->
   sessions p1 = ∅ /\ forall closes', shutdown closes' p1 = p1).
Proof.
  cbn zeta.
  destruct (shutdown_effect closes p) as (Hc & Hsd & Hb & Ht & _ & Hs).
  cbn zeta in *.
  split; [|split; [|split; [|split]]].
  - intros es sid now env.
    rewrite (getPage_shutting sid now env _ (run_shutting es _ Hsd)).
    cbn. auto.
  - exact Hb.
  - unfold sum_counts. rewrite Hb. reflexivity.
  - exact Hs.
  - intros Hall.
    assert (He : sessions (shutdown closes p) = ∅).
    { apply map_eq. intros sid. rewrite lookup_empty, Hs.
      destruct (closes_ok (closes sid)) eqn:Hcl; [reflexivity|].
      destruct (sessions p !! sid) as [s|] eqn:Hl; [|reflexivity].
      rewrite (Hall sid s Hl) in Hcl. discriminate. }
    split; [exact He|]. intros closes'.
    apply shutdown_idle; assumption.
Qed.

(** C8 as stated fails when a close throws: the page of ["s1"] throws on
    [close()] during [shutdown]; ["s1"] is still registered afterwards, and
    a second [shutdown], which manages to close it, is not a no-op. *)
Lemma shutdown_leaves_session_when_close_throws :
  is_Some (sessions c8_after !! "s1") /\
  sessions c8_after <> ∅ /\
  activePages (metrics c8_after) = 1 /\
  shutdown (fun _ => close_ok) c8_after <> c8_after.
Proof.
  assert (Hs : sessions c8_after !! "s1" =
               Some (mkSession "s1" 0%nat 1%nat 1%nat 6 6))
    by (vm_compute; reflexivity).
  split; [rewrite Hs; eauto|]. split; [|split].
  - intros He. rewrite He, lookup_empty in Hs. discriminate.
  - vm_compute. reflexivity.
  - intros He.
    assert (Hs' : sessions (shutdown (fun _ => close_ok) c8_after) !! "s1" = None)
      by (vm_compute; reflexivity).
    rewrite He, Hs in Hs'. discriminate.
Qed.

(** ** C5 *)

Lemma monitor_run_fires n m :
  healthCheckTimer (pool m) = Some true ->
  monitor_run (repeat TimerFires n) m =
    mkMonitor (pool m) (n + runs_in_progress m).
Proof.
  revert m. induction n as [|n IH]; intros [p r] Ht; cbn in *.
  - reflexivity.
  - rewrite Ht. change (foldl _ ?m0 (repeat TimerFires n))
      with (monitor_run (repeat TimerFires n) m0).
    rewrite IH by exact Ht. cbn. f_equal. lia.
Qed.




(** ** C7 *)

Lemma in_insts m kb : In kb m -> In (instance kb.2) (insts m).
Proof. intros H. apply (List.in_map (fun kb : Z * Browser => instance kb.2)), H. Qed.

Lemma insts_inv m i :
  In i (insts m) -> exists kb, In kb m /\ instance kb.2 = i.
Proof.
  unfold insts. rewrite List.in_map_iff. intros (kb & E & H). eauto.
Qed.

(** With distinct instances, an instance names its entry. *)
Lemma insts_NoDup_eq m kb kb' :
  List.NoDup (insts m) -> In kb m -> In kb' m ->
  instance kb.2 = instance kb'.2 -> kb = kb'.
Proof.
  induction m as [|x m IH]; cbn; [tauto|].
  intros Hnd. inversion Hnd as [|? ? Hx Hm]; subst.
  intros [<-|H1] [<-|H2] E.
  - reflexivity.
  - exfalso. apply Hx. rewrite E. apply in_insts, H2.
  - exfalso. apply Hx. rewrite <- E. apply in_insts, H1.
  - apply IH; assumption.
Qed.

Lemma in_set_new {V : Type} (k : Z) (v : V) m : In (k, v) (JsMap.set k v m).
Proof.
  induction m as [|kv m IH]; cbn; [now left|].
  destruct (JsMap.has_key k kv); cbn; auto.
Qed.

Lemma insts_set k b m i :
  In i (insts (JsMap.set k b m)) -> i = instance b \/ In i (insts m).
Proof.
  intros H. apply insts_inv in H as (kb & Hin & <-).
  apply in_set in Hin as [->|Hin]; [now left|]. right. apply in_insts, Hin.
Qed.

Lemma insts_set_NoDup k b m :
  ~ In (instance b) (insts m) -> List.NoDup (insts m) ->
  List.NoDup (insts (JsMap.set k b m)).
Proof.
  induction m as [|kv m IH]; cbn; intros Hb Hnd.
  - constructor; [tauto|constructor].
  - inversion Hnd as [|? ? Hx Hm]; subst.
    destruct (JsMap.has_key k kv); cbn.
    + constructor; [tauto|exact Hm].
    + constructor.
      * intros Hin. apply insts_set in Hin as [E|Hin]; [|tauto].
        apply Hb. left. exact E.
      * apply IH; [tauto|exact Hm].
Qed.

Lemma insts_alter (f : Browser -> Browser) k m :
  (forall b, instance (f b) = instance b) ->
  insts (JsMap.alter f k m) = insts m.
Proof.
  intros Hf. unfold insts, JsMap.alter. rewrite List.map_map.
  apply List.map_ext. intros kb. destruct (JsMap.has_key k kb); cbn; auto.
Qed.

Lemma insts_delete_NoDup k m :
  List.NoDup (insts m) -> List.NoDup (insts (JsMap.delete k m)).
Proof.
  induction m as [|kv m IH]; cbn; intros Hnd; [constructor|].
  inversion Hnd as [|? ? Hx Hm]; subst.
  destruct (negb (JsMap.has_key k kv)); cbn; [|apply IH, Hm].
  constructor; [|apply IH, Hm].
  intros Hin. apply Hx. apply insts_inv in Hin as (kb & Hkb & <-).
  apply in_delete in Hkb as [Hkb _]. apply in_insts, Hkb.
Qed.

Lemma insts_count_error i m : insts (count_error i m) = insts m.
Proof.
  induction m as [|[k b] m IH]; cbn; [reflexivity|].
  case_bool_decide; cbn; [reflexivity|]. f_equal. exact IH.
Qed.

Lemma in_count_error i m k b' :
  In (k, b') (count_error i m) ->
  exists b, In (k, b) m /\ instance b' = instance b /\
            isHealthy b' = isHealthy b.
Proof.
  induction m as [|[k0 b0] m IH]; cbn; [tauto|].
  case_bool_decide; cbn.
  - intros [E|Hin]; [inversion E; subst; eauto|eauto].
  - intros [E|Hin]; [inversion E; subst; eauto|].
    destruct (IH Hin) as (b & Hb & ?). eauto.
Qed.

Lemma evolves_refl rev p : evolves rev p p.
Proof.
  split; [auto|]. split; [lia|]. intros k b' Hin. right. eauto.
Qed.

Lemma evolves_trans rev p p' p'' :
  evolves rev p p' -> evolves rev p' p'' -> evolves rev p p''.
Proof.
  intros (W1 & L1 & H1) (W2 & L2 & H2).
  split; [auto|]. split; [lia|]. intros k b'' Hin.
  destruct (H2 k b'' Hin) as [Hnew|(b' & Hin' & Ei & Hh)]; [left; lia|].
  destruct (H1 k b' Hin') as [Hnew|(b & Hin0 & Ei0 & Hh0)].
  - left. rewrite Ei. lia.
  - right. exists b. split; [exact Hin0|]. split; [congruence|].
    intros Ht. destruct (Hh Ht) as [Ht'|]; [|now right]. auto.
Qed.

(** A call that leaves handles and launch count alone. *)
Lemma evolves_same rev p p' :
  browsers p' = browsers p -> launched p' = launched p -> evolves rev p p'.
Proof.
  intros Hb Hl. unfold evolves, wf. rewrite Hb, Hl.
  split; [auto|]. split; [lia|]. intros k b' Hin. right. eauto.
Qed.

(** A call that writes fields of handles, keeping id and browser, and
    raises [isHealthy] only where [rev] allows. *)
Lemma evolves_alter rev (f : Browser -> Browser) k0 p p' :
  browsers p' = JsMap.alter f k0 (browsers p) -> launched p' = launched p ->
  (forall b, instance (f b) = instance b) ->
  (forall b, isHealthy (f b) = true -> isHealthy b = true \/ rev k0 = true) ->
  evolves rev p p'.
Proof.
  intros Hb Hl Hi Hh. unfold evolves, wf. rewrite Hb, Hl.
  rewrite (insts_alter f k0 _ Hi).
  split; [auto|]. split; [lia|]. intros k b' Hin. right.
  apply in_alter in Hin as [[Hin _]|(b & Hin & E)].
  - eauto.
  - inversion E; subst. exists b. auto.
Qed.

Lemma evolves_delete rev k0 p p' :
  browsers p' = JsMap.delete k0 (browsers p) -> launched p' = launched p ->
  evolves rev p p'.
Proof.
  intros Hb Hl. unfold evolves, wf. rewrite Hb, Hl. split; [|split; [lia|]].
  - intros [Hnd Hlt]. split; [apply insts_delete_NoDup, Hnd|].
    intros i Hin. apply Hlt. apply insts_inv in Hin as (kb & Hkb & <-).
    apply in_delete in Hkb as [Hkb _]. apply in_insts, Hkb.
  - intros k b' Hin. right. apply in_delete in Hin as [Hin _]. eauto.
Qed.

Lemma grows_refl p : grows p p.
Proof. split; [auto|]. split; [lia|]. auto. Qed.

Lemma grows_trans p p' p'' : grows p p' -> grows p' p'' -> grows p p''.
Proof.
  intros (W1 & L1 & H1) (W2 & L2 & H2).
  split; [auto|]. split; [lia|]. intros kb Hin.
  destruct (H2 kb Hin) as [Hin'|[Hnew Hh]]; [|right; split; [lia|exact Hh]].
  destruct (H1 kb Hin') as [Hin0|[Hnew Hh]]; [now left|].
  right. split; [lia|exact Hh].
Qed.

Lemma grows_same p p' :
  browsers p' = browsers p -> launched p' = launched p -> grows p p'.
Proof.
  intros Hb Hl. unfold grows, wf. rewrite Hb, Hl.
  split; [auto|]. split; [lia|]. auto.
Qed.

Lemma grows_evolves rev p p' : grows p p' -> evolves rev p p'.
Proof.
  intros (W & L & H). split; [exact W|]. split; [exact L|].
  intros k b' Hin. destruct (H (k, b') Hin) as [Hin0|[Hnew _]]; [|now left].
  right. eauto.
Qed.

Lemma createBrowser_grows now l p : grows p (createBrowser now l p).2.
Proof.
  destruct l as [t|]; cbn; [|apply grows_refl].
  unfold grows, wf. cbn. split; [|split; [lia|]].
  - intros [Hnd Hlt]. split.
    + apply insts_set_NoDup; [|exact Hnd]. cbn. intros Hin.
      apply Hlt in Hin. lia.
    + intros i Hin. apply insts_set in Hin as [->|Hin]; cbn; [lia|].
      apply Hlt in Hin. lia.
  - intros kb Hin. apply in_set in Hin as [->|Hin]; [|now left].
    right. cbn. split; [lia|reflexivity].
Qed.

Lemma getAvailableBrowser_grows now l clock p :
  grows p (getAvailableBrowser now l clock p).2.
Proof.
  unfold getAvailableBrowser. destruct (scan p); [apply grows_refl|].
  destruct (_ <? _); [apply createBrowser_grows|].
  destruct (waitForAvailableBrowser _ _ _); apply grows_refl.
Qed.

Lemma getPage_grows sid now env p : grows p (getPage sid now env p).2.
Proof.
  unfold getPage. cbn [isShuttingDown set_metrics].
  destruct (isShuttingDown p); [apply grows_same; reflexivity|].
  pose proof (getAvailableBrowser_grows now (launch env) (readings env)
                (set_metrics (add_totalRequests 1 (metrics p)) p)) as Hg.
  destruct (getAvailableBrowser _ _ _ _) as [r p0]. cbn [snd] in Hg.
  assert (H0 : grows p p0).
  { eapply grows_trans; [|exact Hg]. apply grows_same; reflexivity. }
  assert (Hf : grows p (count_failed_request p0)).
  { eapply grows_trans; [exact H0|]. apply grows_same; reflexivity. }
  destruct r as [inst|e|]; cbn [snd]; try assumption.
  destruct (newContext env); [|exact Hf].
  destruct (newPage env); [|exact Hf].
  cbn [snd]. eapply grows_trans; [exact H0|]. apply grows_same; reflexivity.
Qed.

Lemma ensure_minimum_grows attempts p :
  grows p (ensure_minimum attempts p).2.
Proof.
  revert p. induction attempts as [|[now l] rest IH]; intros p; cbn.
  - destruct (_ && _); apply grows_refl.
  - destruct (_ && _); [|apply grows_refl].
    pose proof (createBrowser_grows now l p) as Hc.
    destruct (createBrowser now l p) as [[i|e|] p']; cbn [snd] in *;
      try exact Hc.
    eapply grows_trans; [exact Hc|apply IH].
Qed.

Lemma create_browsers_grows n attempts p :
  grows p (create_browsers n attempts p).2.
Proof.
  revert attempts p. induction n as [|n IH]; intros attempts p; cbn.
  - apply grows_refl.
  - destruct attempts as [|[now l] rest]; [apply grows_refl|].
    pose proof (createBrowser_grows now l p) as Hc.
    destruct (createBrowser now l p) as [[i|e|] p']; cbn [snd] in *;
      try exact Hc.
    eapply grows_trans; [exact Hc|apply IH].
Qed.

Lemma release_all_grows ids closes p : grows p (release_all ids closes p).
Proof.
  destruct (release_all_effect ids closes p) as (_ & _ & Hb & Hl & _).
  apply grows_same; assumption.
Qed.

Lemma remove_all_evolves rev ks p :
  evolves rev p (foldl (fun p k => removeBrowser k p) p ks).
Proof.
  revert p. induction ks as [|k ks IH]; intros p; cbn [foldl].
  - apply evolves_refl.
  - eapply evolves_trans; [|apply IH].
    destruct (removeBrowser_effect k p) as (_ & _ & _ & Hl & _ & _ & Hb).
    eapply evolves_delete; eassumption.
Qed.

Lemma probe_browser_instance pr now b :
  instance (probe_browser pr now b) = instance b.
Proof. destruct pr as [|[cs|]|cs]; reflexivity. Qed.

Lemma probe_browser_health pr now b :
  isHealthy (probe_browser pr now b) = probe_passes pr.
Proof. destruct pr as [|[cs|]|cs]; reflexivity. Qed.

Lemma checkBrowserHealth_fields k pr now p :
  browsers (checkBrowserHealth k pr now p) =
    JsMap.alter (probe_browser pr now) k (browsers p) /\
  launched (checkBrowserHealth k pr now p) = launched p.
Proof. unfold checkBrowserHealth. destruct (probe_passes pr); auto. Qed.

Lemma checkBrowserHealth_evolves (f : Z -> Probe) k now p :
  evolves (fun k => probe_passes (f k)) p (checkBrowserHealth k (f k) now p).
Proof.
  destruct (checkBrowserHealth_fields k (f k) now p) as [Hb Hl].
  eapply evolves_alter; [exact Hb|exact Hl| |].
  - intros b. apply probe_browser_instance.
  - intros b. rewrite probe_browser_health. auto.
Qed.

Lemma checkBrowserHealth_settles rev k pr now p :
  (probe_passes pr = true -> rev k = true) ->
  evolves rev p (checkBrowserHealth k pr now p).
Proof.
  intros Hrev. destruct (checkBrowserHealth_fields k pr now p) as [Hb Hl].
  eapply evolves_alter; [exact Hb|exact Hl| |].
  - intros b. apply probe_browser_instance.
  - intros b. rewrite probe_browser_health. auto.
Qed.

Lemma probe_all_evolves (f : Z -> Probe) now p :
  evolves (fun k => probe_passes (f k)) p (probe_all f now p).
Proof.
  unfold probe_all. generalize (JsMap.keys (browsers p)). intros ks.
  revert p. induction ks as [|k ks IH]; intros p; cbn [foldl].
  - apply evolves_refl.
  - eapply evolves_trans; [apply checkBrowserHealth_evolves|apply IH].
Qed.

Lemma finish_health_check_evolves rev attempts now closes p :
  evolves rev p (finish_health_check attempts now closes p).2.
Proof.
  unfold finish_health_check, cleanupUnhealthyBrowsers, cleanupStaleSessions.
  set (p2 := foldl _ p (unhealthy_ids p)).
  assert (H2 : evolves rev p p2) by apply remove_all_evolves.
  pose proof (ensure_minimum_grows attempts p2) as H3.
  destruct (ensure_minimum attempts p2) as [[u|e|] p3]; cbn [snd] in *.
  - eapply evolves_trans; [exact H2|].
    eapply evolves_trans; [apply grows_evolves, H3|].
    apply grows_evolves, release_all_grows.
  - eapply evolves_trans; [exact H2|apply grows_evolves, H3].
  - eapply evolves_trans; [exact H2|apply grows_evolves, H3].
Qed.

Lemma performHealthCheck_evolves env p :
  evolves (fun k => probe_passes (probes env k)) p (performHealthCheck env p).2.
Proof.
  unfold performHealthCheck.
  eapply evolves_trans;
    [apply probe_all_evolves|apply finish_health_check_evolves].
Qed.

Lemma apply_evolves e p : evolves (revives e) p (apply e p).
Proof.
  destruct e as [att|sid now env|sid c|env|k pr now|att now closes|k|sid c
                |sid|sid now|closes];
    cbn [apply].
  - unfold initialize.
    pose proof (create_browsers_grows
                  (Z.to_nat (minBrowsers (config p))) att p) as Hc.
    destruct (create_browsers _ att p) as [[u|e|] p']; cbn [snd] in *;
      [|apply grows_evolves, Hc..].
    eapply evolves_trans; [apply grows_evolves, Hc|].
    apply evolves_same; reflexivity.
  - apply grows_evolves, getPage_grows.
  - destruct (releasePage_effect sid c p) as (_ & _ & Hb & Hl & _).
    apply evolves_same; assumption.
  - apply performHealthCheck_evolves.
  - apply checkBrowserHealth_settles. cbn. intros ->.
    rewrite bool_decide_eq_true_2 by reflexivity. reflexivity.
  - apply finish_health_check_evolves.
  - unfold handleBrowserDisconnect.
    eapply evolves_alter; [reflexivity|reflexivity| |]; cbn; [auto|].
    intros b Hb. discriminate Hb.
  - unfold handlePageCrash.
    destruct (releasePage_effect sid c
                (set_metrics (add_crashed 1 (metrics p)) p))
      as (_ & _ & Hb & Hl & _).
    apply evolves_same; assumption.
  - unfold handlePageError. destruct (sessions p !! sid) as [s|];
      [|apply evolves_refl].
    unfold evolves, wf. cbn. rewrite insts_count_error.
    split; [auto|]. split; [lia|]. intros k b' Hin. right.
    apply in_count_error in Hin as (b & Hin & Ei & Eh).
    exists b. split; [exact Hin|]. split; [exact Ei|]. rewrite Eh. auto.
  - apply evolves_same; reflexivity.
  - destruct (shutdown_effect closes p) as (_ & _ & Hb & _ & Hl & _).
    cbn zeta in *. unfold evolves, wf. rewrite Hb, Hl. cbn.
    split; [intros _; split; [constructor|tauto]|]. split; [lia|tauto].
Qed.

(** The pools the constructor and any sequence of events lead to are
    well formed. *)
Lemma wf_run es p : wf p -> wf (run es p).
Proof.
  revert p. induction es as [|e es IH]; intros p Hp; [exact Hp|].
  change (run (e :: es) p) with (run es (apply e p)).
  apply IH. apply (apply_evolves e p), Hp.
Qed.

Lemma wf_new o : wf (new o).
Proof. split; [constructor|]. intros i []. Qed.

(** *** Selection *)

Lemma scan_healthy p i :
  scan p = Some i ->
  exists k b, In (k, b) (browsers p) /\ instance b = i /\ isHealthy b = true.
Proof.
  unfold scan.
  destruct (List.find _ (browsers p)) as [[k b]|] eqn:Hf; [|discriminate].
  cbn. intros [= <-]. apply List.find_some in Hf as [Hin Hcap].
  unfold has_capacity in Hcap. cbn in Hcap.
  apply andb_true_iff in Hcap as [Hh _]. eauto.
Qed.

Lemma wait_found_scan timeout startTime clock p i t :
  waitForAvailableBrowser timeout startTime (List.map (fun t => (t, p)) clock) =
    Found i t ->
  scan p = Some i.
Proof.
  intros Hw.
  pose proof (waitForAvailableBrowser_post timeout startTime
                (List.map (fun t => (t, p)) clock)) as Hpost.
  rewrite Hw in Hpost. cbn in Hpost.
  destruct Hpost as (before & p0 & after & E & _ & _ & Hscan).
  assert (Hin : In (t, p0) (List.map (fun t => (t, p)) clock)).
  { rewrite E. apply List.in_or_app. right. now left. }
  apply List.in_map_iff in Hin as (t' & Et & _). inversion Et; subst.
  exact Hscan.
Qed.

Lemma getAvailableBrowser_healthy now l clock p i p' :
  getAvailableBrowser now l clock p = (Returned i, p') ->
  exists k b, In (k, b) (browsers p') /\ instance b = i /\ isHealthy b = true.
Proof.
  unfold getAvailableBrowser. destruct (scan p) as [i0|] eqn:Hscan.
  { intros E; inversion E; subst. apply scan_healthy, Hscan. }
  destruct (_ <? _).
  - unfold createBrowser. destruct l as [t|]; [|discriminate].
    intros E; inversion E; subst. cbn.
    eexists now, _. split; [apply in_set_new|]. split; reflexivity.
  - destruct (waitForAvailableBrowser _ _ _) as [i0 t| |] eqn:Hw;
      intros E; inversion E; subst.
    apply wait_found_scan in Hw. rewrite Hw in Hscan. discriminate.
Qed.

(** The browser of a session that [getPage] registers is held by a handle
    that is healthy when the call returns. *)
Lemma lease_healthy e p i :
  lease e p = Some i ->
  exists k b, In (k, b) (browsers (apply e p)) /\ instance b = i /\
              isHealthy b = true.
Proof.
  destruct e as [|sid now env| | | | | | | | |]; try discriminate.
  cbn [lease apply]. unfold getPage. cbn [isShuttingDown set_metrics].
  destruct (isShuttingDown p); [discriminate|].
  destruct (getAvailableBrowser _ _ _ _) as [r p0] eqn:Hg.
  destruct r as [inst|e|]; try discriminate.
  apply getAvailableBrowser_healthy in Hg.
  destruct (newContext env); [|discriminate].
  destruct (newPage env); [|discriminate].
  cbn. rewrite lookup_insert_eq. cbn. intros [= <-]. exact Hg.
Qed.

(** *** Handles that are gone, handles that are barred *)

Lemma gone_evolves rev i p p' : gone i p -> evolves rev p p' -> gone i p'.
Proof.
  intros [Hlt Hno] (_ & Hl & Hrec). split; [lia|].
  intros k b' Hin E. destruct (Hrec k b' Hin) as [Hnew|(b & Hin0 & Ei & _)].
  - lia.
  - apply (Hno k b Hin0). congruence.
Qed.

Lemma barred_evolves rev i k p p' :
  barred i k p -> evolves rev p p' -> rev k = false -> barred i k p'.
Proof.
  intros [Hlt Hbar] (_ & Hl & Hrec) Hrev. split; [lia|].
  intros k' b' Hin E. destruct (Hrec k' b' Hin) as [Hnew|(b & Hin0 & Ei & Hh)].
  - lia.
  - destruct (Hbar k' b Hin0 ltac:(congruence)) as [-> Hb]. split; [reflexivity|].
    destruct (isHealthy b') eqn:Hb'; [|reflexivity].
    destruct (Hh eq_refl); congruence.
Qed.

Lemma barred_start p k b :
  wf p -> In (k, b) (browsers p) -> isHealthy b = false ->
  barred (instance b) k p.
Proof.
  intros [Hnd Hlt] Hin Hb. split; [apply Hlt, (in_insts _ (k, b)), Hin|].
  intros k' b' Hin' E.
  assert (Eq : (k', b') = (k, b))
    by (apply (insts_NoDup_eq (browsers p)); assumption).
  inversion Eq; subst. auto.
Qed.

Lemma barred_not_leased i k es p :
  barred i k p -> quiet k es -> ~ In i (leases es p).
Proof.
  intros Hbar Hq. revert p Hbar.
  induction Hq as [|e es He Hq IH]; intros p Hbar; cbn [leases]; [tauto|].
  assert (Hbar' : barred i k (apply e p))
    by (eapply barred_evolves; [exact Hbar|apply apply_evolves|exact He]).
  destruct (lease e p) as [i'|] eqn:Hl; [|apply IH, Hbar'].
  intros [E|Hin]; [|exact (IH _ Hbar' Hin)].
  subst i'. apply lease_healthy in Hl as (k' & b' & Hin & Ei & Hh).
  destruct Hbar' as [_ Hb]. destruct (Hb k' b' Hin Ei) as [_ Hf]. congruence.
Qed.

Lemma gone_not_leased i es p : gone i p -> ~ In i (leases es p).
Proof.
  intros Hg. revert p Hg.
  induction es as [|e es IH]; intros p Hg; cbn [leases]; [tauto|].
  assert (Hg' : gone i (apply e p))
    by (eapply gone_evolves; [exact Hg|apply apply_evolves]).
  destruct (lease e p) as [i'|] eqn:Hl; [|apply IH, Hg'].
  intros [E|Hin]; [|exact (IH _ Hg' Hin)].
  subst i'. apply lease_healthy in Hl as (k' & b' & Hin & Ei & _).
  destruct Hg' as [_ Hno]. exact (Hno k' b' Hin Ei).
Qed.

(** *** What a run of the health check removes *)

(** After the probes of a run, every handle carries the verdict of the
    probe of its id. *)
Lemma probe_keys_records (f : Z -> Probe) now ks p k1 b1 :
  In (k1, b1) (browsers (foldl (fun p k => checkBrowserHealth k (f k) now p) p ks)) ->
  exists b0, In (k1, b0) (browsers p) /\ instance b1 = instance b0 /\
             (In k1 ks -> isHealthy b1 = probe_passes (f k1)).
Proof.
  revert k1 b1. induction ks as [|k0 ks IH] using rev_ind; intros k1 b1.
  - cbn. intros Hin. exists b1. split; [exact Hin|]. split; [reflexivity|tauto].
  - rewrite foldl_app. cbn [foldl].
    set (q := foldl _ p ks) in *.
    destruct (checkBrowserHealth_fields k0 (f k0) now q) as [Hb _].
    rewrite Hb. intros Hin.
    apply in_alter in Hin as [[Hin Hne]|(bq & Hin & E)].
    + destruct (IH k1 b1 Hin) as (b0 & Hin0 & Ei & Hh).
      exists b0. split; [exact Hin0|]. split; [exact Ei|].
      intros Hk. apply List.in_app_or in Hk as [Hk|[Hk|[]]]; [auto|].
      cbn in Hne. congruence.
    + inversion E; subst.
      destruct (IH k0 bq Hin) as (b0 & Hin0 & Ei & _).
      exists b0. split; [exact Hin0|].
      split; [rewrite probe_browser_instance; exact Ei|].
      intros _. apply probe_browser_health.
Qed.

Lemma probe_all_records (f : Z -> Probe) now p k1 b1 :
  In (k1, b1) (browsers (probe_all f now p)) ->
  exists b0, In (k1, b0) (browsers p) /\ instance b1 = instance b0 /\
             isHealthy b1 = probe_passes (f k1).
Proof.
  intros Hin. apply probe_keys_records in Hin as (b0 & Hin0 & Ei & Hh).
  exists b0. split; [exact Hin0|]. split; [exact Ei|].
  apply Hh. apply (in_keys (browsers p) (k1, b0)), Hin0.
Qed.

Lemma in_delete_all {V : Type} (ks : list Z) (m : list (Z * V)) kv :
  In kv (foldl (fun m k => JsMap.delete k m) m ks) ->
  In kv m /\ ~ In kv.1 ks.
Proof.
  revert m. induction ks as [|k ks IH]; intros m; cbn [foldl].
  - cbn. tauto.
  - intros Hin. apply IH in Hin as [Hin Hks].
    apply in_delete in Hin as [Hin Hne]. split; [exact Hin|].
    intros [E|Hk]; [congruence|tauto].
Qed.

Lemma in_unhealthy_ids p k b :
  In (k, b) (browsers p) -> isHealthy b = false -> In k (unhealthy_ids p).
Proof.
  intros Hin Hb. unfold unhealthy_ids.
  apply (in_keys _ (k, b)). apply List.filter_In. split; [exact Hin|].
  cbn. rewrite Hb. reflexivity.
Qed.

(** The clean-up removes every handle that is marked unhealthy when it
    starts. *)
Lemma finish_health_check_removes attempts now closes p k b :
  wf p -> In (k, b) (browsers p) -> isHealthy b = false ->
  gone (instance b) (finish_health_check attempts now closes p).2.
Proof.
  intros Hwf Hin Hb.
  unfold finish_health_check, cleanupUnhealthyBrowsers, cleanupStaleSessions.
  set (p2 := foldl _ p (unhealthy_ids p)).
  assert (Hg2 : gone (instance b) p2).
  { destruct (remove_all_effect (unhealthy_ids p) p)
      as (_ & _ & _ & Hl & _ & _ & Hbs).
    cbn zeta in Hl, Hbs. fold p2 in Hl, Hbs. split.
    - rewrite Hl. apply Hwf, (in_insts _ (k, b)), Hin.
    - intros k2 b2 Hin2 E. rewrite Hbs in Hin2.
      apply in_delete_all in Hin2 as [Hin2 Hno]. cbn in Hno.
      assert (Eq : (k2, b2) = (k, b))
        by (apply (insts_NoDup_eq (browsers p)); [apply Hwf|assumption..]).
      inversion Eq; subst. apply Hno. eapply in_unhealthy_ids; eassumption. }
  pose proof (ensure_minimum_grows attempts p2) as H3.
  destruct (ensure_minimum attempts p2) as [[u|e|] p3]; cbn [snd] in *.
  - eapply (gone_evolves (fun _ => false)); [|apply grows_evolves, release_all_grows].
    eapply (gone_evolves (fun _ => false)); [exact Hg2|apply grows_evolves, H3].
  - eapply (gone_evolves (fun _ => false)); [exact Hg2|apply grows_evolves, H3].
  - eapply (gone_evolves (fun _ => false)); [exact Hg2|apply grows_evolves, H3].
Qed.

(** A run whose probe of a handle does not pass removes the handle. *)
Lemma performHealthCheck_removes env p k b :
  wf p -> In (k, b) (browsers p) -> probe_passes (probes env k) = false ->
  gone (instance b) (performHealthCheck env p).2.
Proof.
  intros Hwf Hin Hpr. unfold performHealthCheck.
  set (p1 := probe_all (probes env) (probedAt env) p).
  assert (Hwf1 : wf p1) by (apply (probe_all_evolves _ _ p), Hwf).
  assert (Hl1 : launched p1 = launched p).
  { unfold p1, probe_all. generalize (JsMap.keys (browsers p)). intros ks.
    generalize p. induction ks as [|k0 ks IH]; intros q; cbn [foldl];
      [reflexivity|].
    rewrite IH. apply checkBrowserHealth_fields. }
  destruct (List.in_dec Nat.eq_dec (instance b) (insts (browsers p1)))
    as [Hthere|Hnot].
  - apply insts_inv in Hthere as ([k1 b1] & Hin1 & Ei). cbn in Ei.
    destruct (probe_all_records _ _ _ _ _ Hin1) as (b0 & Hin0 & Ei0 & Hh).
    assert (Eq : (k1, b0) = (k, b)).
    { apply (insts_NoDup_eq (browsers p)); [apply Hwf|assumption..|].
      cbn. congruence. }
    inversion Eq; subst. rewrite <- Ei.
    apply (finish_health_check_removes _ _ _ p1 k b1 Hwf1 Hin1). congruence.
  - eapply (gone_evolves (fun _ => false));
      [|apply finish_health_check_evolves].
    split.
    + rewrite Hl1. apply Hwf, (in_insts _ (k, b)), Hin.
    + intros k1 b1 Hin1 E. apply Hnot. rewrite <- E.
      apply (in_insts _ (k1, b1)), Hin1.
Qed.

(** C7, as the code has it. Take any pool the constructor and a sequence
    of events lead to, the probes and clean-ups of overlapping health checks
    included.

    - Selection: a browser returned by [getAvailableBrowser], and so the
      browser of every session [getPage] registers, belongs to a handle of
      the pool whose [isHealthy] is true at that time.
    - A disconnect signal marks the handle unhealthy.
    - A handle marked unhealthy (by a failed probe or by a disconnect
      signal) is leased by no later [getPage], through any sequence of
      events in which no probe of that handle passes.
    - The clean-up of a health check removes every handle that is marked
      unhealthy when it starts; an uninterrupted run in which the probe of
      a handle does not pass removes the handle.
    - A handle that has been removed is never leased again, whatever
      follows. *)
Theorem unhealthy_or_destroyed_handle_not_leased o es0 :
  let p := run es0 (new o) in
  (forall now l clock i p',
      getAvailableBrowser now l clock p = (Returned i, p') ->
      exists k b, In (k, b) (browsers p') /\ instance b = i /\
                  isHealthy b = true) /\
  (forall e i,
      lease e p = Some i ->
      exists k b, In (k, b) (browsers (apply e p)) /\ instance b = i /\
                  isHealthy b = true) /\
  (forall k b,
      In (k, b) (browsers (handleBrowserDisconnect k p)) ->
      isHealthy b = false) /\
  (forall k b es,
      In (k, b) (browsers p) -> isHealthy b = false -> quiet k es ->
      ~ In (instance b) (leases es p)) /\
  (forall k b attempts now closes es,
      In (k, b) (browsers p) -> isHealthy b = false ->
      gone (instance b) (apply (Cleanup attempts now closes) p) /\
      ~ In (instance b) (leases (Cleanup attempts now closes :: es) p)) /\
  (forall k b env es,
      In (k, b) (browsers p) -> probe_passes (probes env k) = false ->
      gone (instance b) (apply (HealthCheck env) p) /\
      ~ In (instance b) (leases (HealthCheck env :: es) p)) /\
  (forall i es, gone i p -> ~ In i (leases es p)).
Proof.
  cbn zeta.
  assert (Hwf : wf (run es0 (new o))) by apply wf_run, wf_new.
  set (p := run es0 (new o)) in *.
  split; [|split; [|split; [|split; [|split; [|split]]]]].
  - intros now l clock i p'. apply getAvailableBrowser_healthy.
  - intros e i. apply lease_healthy.
  - intros k b Hin. unfold handleBrowserDisconnect in Hin. cbn in Hin.
    apply in_alter in Hin as [[_ Hne]|(b0 & _ & E)]; [cbn in Hne; congruence|].
    inversion E; subst. reflexivity.
  - intros k b es Hin Hb Hq.
    eapply barred_not_leased; [|exact Hq]. apply barred_start; assumption.
  - intros k b attempts now closes es Hin Hb.
    assert (Hg : gone (instance b) (apply (Cleanup attempts now closes) p))
      by (cbn [apply]; eapply finish_health_check_removes; eassumption).
    split; [exact Hg|]. cbn [leases lease]. apply gone_not_leased, Hg.
  - intros k b env es Hin Hpr.
    assert (Hg : gone (instance b) (apply (HealthCheck env) p))
      by (cbn [apply]; eapply performHealthCheck_removes; eassumption).
    split; [exact Hg|]. cbn [leases lease]. apply gone_not_leased, Hg.
  - intros i es. apply gone_not_leased.
Qed.

(** C7 as stated fails when health checks overlap: the probe of the
    handle 0 has failed and the handle is marked unhealthy; a probe of the
    same handle by a second run passes before the first run cleans up, so
    the handle is kept, and the next [getPage] leases its browser. *)
Lemma failed_probe_then_passing_probe_leases :
  (exists b, In (0, b) (browsers c7_failed) /\ instance b = 0%nat /\
             isHealthy b = false) /\
  leases c7_overlap c7_failed = [0%nat] /\
  In 0%nat (leases c7_overlap c7_failed).
Proof.
  split; [|split].
  - eexists. split; [left; reflexivity|]. split; reflexivity.
  - vm_compute. reflexivity.
  - vm_compute. left. reflexivity.
Qed.

(** The sample run of C7: the disconnected browser 0 is leased to ["s1"]
    before the signal only; ["s2"] and ["s3"] get browser 1, and the health
    check replaces the handle of browser 0 by a new one. *)
Example disconnected_browser_is_passed_over :
  leases c7_before (new no_options) = [0%nat] /\
  insts (browsers (run c7_before (new no_options))) = [0%nat] /\
  leases c7_after (run c7_before (new no_options)) = [1%nat; 1%nat] /\
  insts (browsers (run (c7_before ++ c7_after) (new no_options))) =
    [1%nat; 2%nat].
Proof. vm_compute. repeat split; reflexivity. Qed.

End PoolFacts.

(* ===================================================================== *)
(** * Further properties of the breaker                                   *)
(* ===================================================================== *)

Module BreakerMoreFacts.
Import Breaker BreakerSpec BreakerMore BreakerMoreSpec.
Local Open Scope Z_scope.

Section WithComparison.
Variable float_pct_ge : nat -> nat -> Z -> bool.

Local Abbreviation step := (Breaker.step float_pct_ge).
Local Abbreviation reachable := (Breaker.reachable float_pct_ge).
Local Abbreviation execute_settle := (Breaker.execute_settle float_pct_ge).
Local Abbreviation onFailure := (Breaker.onFailure float_pct_ge).
Local Abbreviation call := (BreakerMore.call float_pct_ge).
Local Abbreviation calls := (BreakerMore.calls float_pct_ge).

(** ** The counters *)

Lemma accounted_step s s' : step s s' -> accounted s -> accounted s'.
Proof.
  intros Hs [H1 H2 H3 H4 H5 H6].
  inversion Hs; subst; clear Hs;
    cbn [breaker in_flight] in *; rewrite ?Nat2Z.inj_succ in *.
  - unfold execute_enter in H. cbn in H.
    destruct (state b); [| destruct (_ >=? _) in H |];
      inversion H; subst; clear H; split; cbn; lia.
  - unfold execute_enter in H. cbn in H.
    destruct (state b); [| destruct (_ >=? _) in H |];
      inversion H; subst; clear H; split; cbn; lia.
  - destruct s0; cbn;
      unfold Breaker.onFailure, onSuccess; cbn;
      destruct (state b); cbn;
      try destruct (Breaker.shouldOpen _ _ _); split; cbn; try lia.
  - unfold late_settle. split; cbn; lia.
  - split; cbn; lia.
  - split; cbn; lia.
  - split; cbn; lia.
Qed.

Lemma requestWindow_settle s now b :
  requestWindow (execute_settle s now b) =
    List.filter (in_window (config b) now)
      (requestWindow b ++ [mkRequest now (resolved s)]) /\
  config (execute_settle s now b) = config b.
Proof.
  destruct s; cbn; unfold Breaker.onFailure, onSuccess; cbn;
    destruct (state b); cbn; try destruct (Breaker.shouldOpen _ _ _);
    split; reflexivity.
Qed.

Lemma filter_filter_length {A : Type} (p q : A -> bool) l :
  (length (List.filter p (List.filter q l)) <= length (List.filter p l))%nat.
Proof.
  induction l as [|x l IH]; cbn; [lia|].
  destruct (q x), (p x) eqn:Hp; cbn; rewrite ?Hp; cbn; lia.
Qed.

Lemma window_accounted_settle s now b :
  window_accounted b -> window_accounted (execute_settle s now b).
Proof.
  intros (H1 & H2 & H3). unfold window_accounted.
  destruct (requestWindow_settle s now b) as [-> _].
  pose proof (List.filter_length_le (in_window (config b) now)
                (requestWindow b ++ [mkRequest now (resolved s)])) as L1.
  pose proof (filter_filter_length is_error (in_window (config b) now)
                (requestWindow b ++ [mkRequest now (resolved s)])) as L2.
  rewrite List.length_app in L1.
  rewrite (List.filter_app is_error), List.length_app in L2.
  cbn [length] in L1.
  assert (Hm : successfulRequests (metrics (execute_settle s now b)) +
               failedRequests (metrics (execute_settle s now b)) =
               successfulRequests (metrics b) + failedRequests (metrics b) + 1 /\
               failedRequests (metrics (execute_settle s now b)) =
               failedRequests (metrics b) + (if resolved s then 0 else 1) /\
               successfulRequests (metrics b) <=
               successfulRequests (metrics (execute_settle s now b))).
  { destruct s; cbn; unfold Breaker.onFailure, onSuccess; cbn;
      destruct (state b); cbn; try destruct (Breaker.shouldOpen _ _ _);
      cbn; lia. }
  destruct Hm as (M1 & M2 & M3).
  destruct s; cbn [resolved List.filter is_error success negb length] in *; lia.
Qed.

Lemma window_accounted_step s s' :
  step s s' -> window_accounted (breaker s) -> window_accounted (breaker s').
Proof.
  intros Hs Hw. inversion Hs; subst; clear Hs; cbn [breaker] in *.
  - unfold execute_enter in H. cbn in H. destruct Hw as (H1 & H2 & H3).
    destruct (state b); [| destruct (_ >=? _) in H |];
      inversion H; subst; clear H; unfold window_accounted; cbn; auto.
  - unfold execute_enter in H. cbn in H. destruct Hw as (H1 & H2 & H3).
    destruct (state b); [| destruct (_ >=? _) in H |];
      inversion H; subst; clear H; unfold window_accounted; cbn; auto.
  - apply window_accounted_settle, Hw.
  - exact Hw.
  - exact Hw.
  - exact Hw.
  - destruct Hw as (H1 & H2 & H3). cbn [breaker] in *.
    unfold window_accounted. cbn. lia.
Qed.

(** X1. In every state a breaker can reach, whatever the interleaving of
    callers: every counted request is a success, a failure, a rejection or
    still in flight; time-outs are among the failures; [failures] and
    [successes] never exceed the failed and successful totals;
    [requestCount] is still 0, no method ever writes it; and what
    [getMetrics] reports of the rolling window, at any clock reading, is
    within the settled calls, its errors within the failed ones. *)
Theorem breaker_books_balance s :
  reachable s ->
  accounted s /\
  forall now,
    Z.of_nat (recentRequestCount (getMetrics now (breaker s))) <=
      successfulRequests (report_metrics (getMetrics now (breaker s))) +
      failedRequests (report_metrics (getMetrics now (breaker s))) /\
    Z.of_nat (recentErrorCount (getMetrics now (breaker s))) <=
      failedRequests (report_metrics (getMetrics now (breaker s))).
Proof.
  intros Hr.
  assert (H : accounted s /\ window_accounted (breaker s)).
  { induction Hr as [nm o now | s s' _ [IH1 IH2] Hs].
    - split; [split; cbn; lia | unfold window_accounted; cbn; lia].
    - split; [eapply accounted_step; eassumption|].
      eapply window_accounted_step; eassumption. }
  destruct H as [Ha (H1 & H2 & H3)]. split; [exact Ha|].
  intros now. cbn.
  pose proof (List.filter_length_le (in_window (config (breaker s)) now)
                (requestWindow (breaker s))) as L1.
  pose proof (filter_filter_length is_error
                (in_window (config (breaker s)) now)
                (requestWindow (breaker s))) as L2.
  lia.
Qed.

(** ** The rolling window *)

(** X2. When a call settles at clock reading [now], the rolling window is
    pruned in the same turn: every entry left is at most
    [rollingWindowSize] old, so [getRecentRequests] at that reading is the
    whole window; and unless [rollingWindowSize] is negative the entry of
    the call itself is the last one. *)
Theorem settled_window_is_recent s now b :
  Forall (fun r => now - timestamp r <= rollingWindowSize (config b))
    (requestWindow (execute_settle s now b)) /\
  getRecentRequests now (execute_settle s now b) =
    requestWindow (execute_settle s now b) /\
  (0 <= rollingWindowSize (config b) ->
   last (requestWindow (execute_settle s now b)) =
     Some (mkRequest now (resolved s))).
Proof.
  destruct (requestWindow_settle s now b) as [Hw Hc].
  unfold getRecentRequests. rewrite Hc, Hw. split; [|split].
  - apply List.Forall_forall. intros r Hr. apply filter_In in Hr as [_ Hr].
    unfold in_window in Hr. lia.
  - apply forallb_filter_id. apply forallb_forall. intros r Hr.
    apply filter_In in Hr as [_ Hr]. exact Hr.
  - intros Hsz. rewrite List.filter_app. cbn [List.filter].
    replace (in_window (config b) now (mkRequest now _)) with true.
    + apply last_snoc.
    + symmetry. unfold in_window. cbn. apply Z.leb_le. lia.
Qed.

(** ** The fallback *)

Section Fallback.
Variables (W V : Type).
Local Abbreviation execute := (Breaker.execute float_pct_ge (W:=W) (V:=V)).


End Fallback.

(** ** [resetTimeout] *)

Lemma setState_resetTimeout r now s b :
  setState now s (with_resetTimeout r b) =
    with_resetTimeout r (setState now s b).
Proof. destruct s; reflexivity. Qed.

Lemma shouldOpen_resetTimeout r now b :
  Breaker.shouldOpen float_pct_ge now (with_resetTimeout r b) =
    Breaker.shouldOpen float_pct_ge now b.
Proof. reflexivity. Qed.

Lemma call_resetTimeout r c b :
  call c (with_resetTimeout r b) = with_resetTimeout r (call c b).
Proof.
  destruct c as [now|s now|now|now|now]; cbn; try reflexivity.
  - unfold execute_enter. cbn. destruct (state b); try reflexivity.
    destruct (_ >=? _); reflexivity.
  - destruct s; cbn; unfold Breaker.onFailure, onSuccess; cbn;
      destruct (state b); try reflexivity;
      match goal with
      | |- (if ?c then _ else _) = with_resetTimeout _ (if ?d then _ else _) =>
          change c with d; destruct d; reflexivity
      end.
Qed.

(** X4. [resetTimeout] is a dead setting: the constructor stores it and no
    method reads it. Two breakers that differ in it only answer every
    sequence of calls alike (same admissions, same fields apart from the
    setting itself), and the middleware answers alike. *)
Theorem resetTimeout_is_never_read r cs b :
  calls cs (with_resetTimeout r b) = with_resetTimeout r (calls cs b) /\
  (forall now,
     (execute_enter now (calls cs (with_resetTimeout r b))).1 =
       (execute_enter now (calls cs b)).1 /\
     middleware now (calls cs (with_resetTimeout r b)) =
       middleware now (calls cs b)) /\
  (forall nm t1 t2 t3 t4 t5 t6 now,
     new nm (mkOptions t1 t2 (Some r) t3 t4 t5 t6) now =
       with_resetTimeout r (new nm (mkOptions t1 t2 None t3 t4 t5 t6) now)).
Proof.
  assert (Hc : calls cs (with_resetTimeout r b) =
               with_resetTimeout r (calls cs b)).
  { revert b. induction cs as [|c cs IH]; intros b; [reflexivity|].
    cbn. rewrite call_resetTimeout. apply IH. }
  split; [exact Hc|]. split; [|reflexivity].
  intros now. rewrite Hc. generalize (calls cs b). intros b'.
  unfold execute_enter, middleware. cbn.
  destruct (state b'); try (split; reflexivity).
  destruct (_ >=? _); split; reflexivity.
Qed.

(** ** The middleware *)


(** ** The log of state changes *)

Lemma follow_snoc s l c :
  follow s (l ++ [c]) =
    match follow s l with
    | Some s' =>
        if bool_decide (change_from c = s') then Some (change_to c) else None
    | None => None
    end.
Proof.
  revert s. induction l as [|d l IH]; intros s; cbn.
  - destruct (bool_decide _); reflexivity.
  - destruct (bool_decide (change_from d = s)); [apply IH | reflexivity].
Qed.

Lemma call_logs_move c b :
  is_reset c = false -> logs_move b (call c b).
Proof.
  destruct c as [now|s now|now|now|now]; cbn; try discriminate; intros _.
  - unfold execute_enter. cbn. destruct (state b) eqn:E.
    + left. cbn. auto.
    + destruct (_ >=? _); [right; exists now | left]; cbn; rewrite ?E; auto.
    + left. cbn. auto.
  - destruct s; cbn; unfold Breaker.onFailure, onSuccess; cbn;
      destruct (state b) eqn:E; cbn;
      try destruct (Breaker.shouldOpen _ _ _);
      first [ left; cbn; rewrite ?E; split; reflexivity
            | right; exists now; cbn; rewrite ?E; reflexivity ].
  - right. exists now. reflexivity.
  - right. exists now. reflexivity.
Qed.

Lemma follow_move s0 b b' :
  logs_move b b' ->
  follow s0 (stateChanges (metrics b)) = Some (state b) ->
  follow s0 (stateChanges (metrics b')) = Some (state b').
Proof.
  intros [[-> ->]|[t ->]] H; [exact H|].
  rewrite follow_snoc, H. cbn. rewrite bool_decide_eq_true_2; reflexivity.
Qed.

(** X6. As long as [reset] is not called, [metrics.stateChanges] is a
    faithful history: read from CLOSED, every entry starts in the state
    the entry before it reached, and the last one ends in the current
    state. ([reset] moves to CLOSED without logging.) *)
Theorem state_log_is_a_chain nm o t0 cs :
  forallb (fun c => negb (is_reset c)) cs = true ->
  follow CLOSED (stateChanges (metrics (calls cs (new nm o t0)))) =
    Some (state (calls cs (new nm o t0))).
Proof.
  assert (Hg : forall b,
    forallb (fun c => negb (is_reset c)) cs = true ->
    follow CLOSED (stateChanges (metrics b)) = Some (state b) ->
    follow CLOSED (stateChanges (metrics (calls cs b))) =
      Some (state (calls cs b))).
  { induction cs as [|c cs IH]; intros b Hcs Hb; [exact Hb|].
    cbn in Hcs. apply andb_prop in Hcs as [Hc Hcs].
    cbn. apply IH; [exact Hcs|].
    eapply follow_move; [|exact Hb]. apply call_logs_move.
    apply negb_true_iff, Hc. }
  intros Hcs. apply Hg; [exact Hcs | reflexivity].
Qed.

Lemma call_execute_edge c b :
  is_execute c = true ->
  Forall execute_edge (stateChanges (metrics b)) ->
  Forall execute_edge (stateChanges (metrics (call c b))).
Proof.
  unfold execute_edge.
  destruct c as [now|s now|now|now|now]; cbn; try discriminate; intros _ H.
  - unfold execute_enter. cbn. destruct (state b) eqn:E; cbn; auto.
    destruct (_ >=? _); cbn; auto.
    apply Forall_app. split; [exact H|]. constructor; [|constructor].
    cbn. rewrite ?E. tauto.
  - destruct s; cbn; unfold Breaker.onFailure, onSuccess; cbn;
      destruct (state b) eqn:E; cbn;
      try destruct (Breaker.shouldOpen _ _ _); cbn; auto;
      (apply Forall_app; split; [exact H|]; constructor; [|constructor];
       cbn; rewrite ?E; tauto).
Qed.

(** X7. When the state is moved by [execute] alone (no [open], [close] or
    [reset]), whatever the interleaving of callers, the log holds only the
    four moves CLOSED to OPEN, OPEN to HALF_OPEN, HALF_OPEN to CLOSED and
    HALF_OPEN to OPEN: an OPEN breaker is closed only through a trial,
    and a CLOSED breaker never starts one. *)
Theorem execute_moves_along_four_edges nm o t0 cs :
  forallb is_execute cs = true ->
  Forall execute_edge (stateChanges (metrics (calls cs (new nm o t0)))).
Proof.
  assert (Hg : forall b,
    forallb is_execute cs = true ->
    Forall execute_edge (stateChanges (metrics b)) ->
    Forall execute_edge (stateChanges (metrics (calls cs b)))).
  { induction cs as [|c cs IH]; intros b Hcs Hb; [exact Hb|].
    cbn in Hcs. apply andb_prop in Hcs as [Hc Hcs].
    cbn. apply IH; [exact Hcs|]. apply call_execute_edge; assumption. }
  intros Hcs. apply Hg; [exact Hcs | constructor].
Qed.

End WithComparison.

Lemma breaker_books_balance_witness :
  accounted (mkSystem c4_b3 1) /\
  forall now,
    Z.of_nat (recentRequestCount (getMetrics now c4_b3)) <=
      successfulRequests (report_metrics (getMetrics now c4_b3)) +
      failedRequests (report_metrics (getMetrics now c4_b3)) /\
    Z.of_nat (recentErrorCount (getMetrics now c4_b3)) <=
      failedRequests (report_metrics (getMetrics now c4_b3)).
Proof.
  exact (breaker_books_balance exact_pct_ge (mkSystem c4_b3 1)
           BreakerFacts.c4_trace_reachable).
Defined.

Lemma settled_window_is_recent_witness :
  last (requestWindow (Breaker.execute_settle exact_pct_ge Throws 1 c4_b1)) =
    Some (mkRequest 1 false).
Proof.
  apply (settled_window_is_recent exact_pct_ge Throws 1 c4_b1).
  vm_compute. discriminate.
Defined.



Lemma state_log_is_a_chain_witness :
  follow CLOSED
    (stateChanges
       (metrics
          (BreakerMore.calls exact_pct_ge sample_calls
             (new "target" sample_options 0)))) =
    Some (state
            (BreakerMore.calls exact_pct_ge sample_calls
               (new "target" sample_options 0))).
Proof.
  apply (state_log_is_a_chain exact_pct_ge "target" sample_options 0
           sample_calls).
  vm_compute. reflexivity.
Defined.

Lemma execute_moves_along_four_edges_witness :
  Forall execute_edge
    (stateChanges
       (metrics
          (BreakerMore.calls exact_pct_ge sample_execute_calls
             (new "target" sample_options 0)))).
Proof.
  apply (execute_moves_along_four_edges exact_pct_ge "target" sample_options
           0 sample_execute_calls).
  vm_compute. reflexivity.
Defined.

End BreakerMoreFacts.

(* ===================================================================== *)
(** * Further properties of the pool                                      *)
(* ===================================================================== *)

Module PoolMoreFacts.
Import Pool PoolSpec PoolMore PoolMoreSpec.
Local Open Scope Z_scope.

(** ** The counters *)

Lemma length_delete_present {V : Type} (k : Z) (m : list (Z * V)) v :
  JsMap.get k m = Some v ->
  (S (length (JsMap.delete k m)) <= length m)%nat.
Proof.
  unfold JsMap.get, JsMap.delete.
  induction m as [|kv m IH]; cbn; [discriminate|].
  destruct (JsMap.has_key k kv) eqn:E; cbn.
  - intros _. pose proof (List.filter_length_le
      (fun kv => negb (JsMap.has_key k kv)) m). lia.
  - intros H. apply IH in H. lia.
Qed.

Lemma length_alter {V : Type} (f : V -> V) (k : Z) (m : list (Z * V)) :
  length (JsMap.alter f k m) = length m.
Proof. apply List.length_map. Qed.

Lemma length_count_error i m : length (count_error i m) = length m.
Proof.
  induction m as [|[k b] m IH]; cbn; [reflexivity|].
  destruct (bool_decide _); cbn; congruence.
Qed.

Lemma tallied_new o : tallied (new o).
Proof. split; cbn -[size]; try lia. rewrite map_size_empty. lia. Qed.

Lemma tallied_createBrowser now l p :
  tallied p -> tallied (createBrowser now l p).2.
Proof.
  intros [H1 H2 H3 H4 H5 H6 H7]. destruct l as [t|]; cbn; [|split; assumption].
  pose proof (PoolFacts.length_set now
    (mkBrowser now (launched p) [] true t t 0) (browsers p)).
  split; cbn -[size]; try lia.
Qed.

Lemma tallied_releasePage sid c p :
  tallied p -> tallied (releasePage sid c p).2.
Proof.
  intros [H1 H2 H3 H4 H5 H6 H7]. unfold releasePage.
  destruct (sessions p !! sid) as [s|] eqn:E; [|split; assumption].
  destruct (pageClose c), (contextClose c); try (split; assumption).
  all: split; cbn -[size]; try lia.
  all: rewrite map_size_delete, E;
    pose proof (map_size_ne_0_lookup_2 (sessions p) sid (mk_is_Some _ _ E));
    lia.
Qed.

Lemma tallied_removeBrowser k p : tallied p -> tallied (removeBrowser k p).
Proof.
  intros [H1 H2 H3 H4 H5 H6 H7]. unfold removeBrowser.
  destruct (JsMap.get k (browsers p)) as [b|] eqn:E; [|split; assumption].
  pose proof (length_delete_present k (browsers p) b E).
  split; cbn -[size]; lia.
Qed.

Lemma tallied_checkBrowserHealth k pr now p :
  tallied p -> tallied (checkBrowserHealth k pr now p).
Proof.
  intros [H1 H2 H3 H4 H5 H6 H7]. unfold checkBrowserHealth.
  destruct (probe_passes pr); split; cbn -[size]; rewrite ?length_alter, ?List.length_map; lia.
Qed.

Lemma tallied_fold {A : Type} (f : Pool -> A -> Pool) (l : list A) p :
  (forall p a, tallied p -> tallied (f p a)) ->
  tallied p -> tallied (foldl f p l).
Proof.
  intros Hf. revert p. induction l as [|a l IH]; intros p Hp; cbn; auto.
Qed.

Lemma tallied_ensure_minimum attempts p :
  tallied p -> tallied (ensure_minimum attempts p).2.
Proof.
  revert p. induction attempts as [|[now l] rest IH]; intros p Hp; cbn.
  - destruct (_ && _); exact Hp.
  - destruct (_ && _); [|exact Hp].
    pose proof (tallied_createBrowser now l p Hp) as Hc.
    destruct (createBrowser now l p) as [[i|e|] p1]; cbn in *; auto.
Qed.

Lemma tallied_create_browsers n attempts p :
  tallied p -> tallied (create_browsers n attempts p).2.
Proof.
  revert attempts p. induction n as [|n IH]; intros attempts p Hp; cbn;
    [exact Hp|].
  destruct attempts as [|[now l] rest]; [exact Hp|].
  pose proof (tallied_createBrowser now l p Hp) as Hc.
  destruct (createBrowser now l p) as [[i|e|] p1]; cbn in *; auto.
Qed.

Lemma tallied_release_all ids closes p :
  tallied p -> tallied (release_all ids closes p).
Proof.
  apply tallied_fold. intros q sid. apply tallied_releasePage.
Qed.

Lemma tallied_finish_health_check attempts now closes p :
  tallied p -> tallied (finish_health_check attempts now closes p).2.
Proof.
  intros Hp. unfold finish_health_check, cleanupUnhealthyBrowsers.
  set (q := foldl _ p _).
  assert (Hq : tallied q).
  { apply tallied_fold; [|exact Hp]. intros q' k. apply tallied_removeBrowser. }
  pose proof (tallied_ensure_minimum attempts q Hq) as He.
  destruct (ensure_minimum attempts q) as [[u|e|] q1]; cbn in *; auto.
  apply tallied_release_all, He.
Qed.

Lemma size_insert_le (m : gmap string Session) k v :
  (size (<[k:=v]> m) <= S (size m))%nat.
Proof. rewrite map_size_insert. destruct (m !! k); cbn -[size]; lia. Qed.

Lemma tallied_register sid s q :
  tallied q ->
  tallied
    (set_metrics
       (add_activePages 1 (metrics (set_sessions (<[sid:=s]> (sessions q)) q)))
       (set_sessions (<[sid:=s]> (sessions q)) q)).
Proof.
  intros [H1 H2 H3 H4 H5 H6 H7].
  pose proof (size_insert_le (sessions q) sid s).
  split; cbn -[size]; lia.
Qed.

Lemma tallied_getAvailableBrowser now l clock p :
  tallied p ->
  tallied (getAvailableBrowser now l clock p).2 /\
  totalRequests (metrics (getAvailableBrowser now l clock p).2) =
    totalRequests (metrics p) /\
  failedRequests (metrics (getAvailableBrowser now l clock p).2) =
    failedRequests (metrics p).
Proof.
  intros Hp. unfold getAvailableBrowser.
  destruct (scan p); [auto|].
  destruct (_ <? _).
  - split; [apply tallied_createBrowser, Hp|]. destruct l; cbn; auto.
  - destruct (waitForAvailableBrowser _ _ _); auto.
Qed.

Lemma tallied_getPage sid now env p :
  tallied p -> tallied (getPage sid now env p).2.
Proof.
  intros Hp. unfold getPage.
  set (p0 := set_metrics (add_totalRequests 1 (metrics p)) p).
  assert (H0 : tallied p0) by (destruct Hp; split; cbn -[size]; lia).
  assert (Hfail : forall q, tallied q ->
            failedRequests (metrics q) < totalRequests (metrics q) ->
            tallied (count_failed_request q)).
  { intros q [H1 H2 H3 H4 H5 H6 H7] Hlt. split; cbn -[size]; lia. }
  assert (Hlt : failedRequests (metrics p0) < totalRequests (metrics p0))
    by (destruct Hp; cbn -[size]; lia).
  destruct (isShuttingDown p0); [apply Hfail; assumption|].
  destruct (tallied_getAvailableBrowser now (launch env) (readings env) p0 H0)
    as (Hq & Ht & Hf).
  destruct (getAvailableBrowser now (launch env) (readings env) p0)
    as [[i|e|] q]; cbn [snd] in *.
  - destruct (newContext env); [|apply Hfail; [assumption | lia]].
    destruct (newPage env); [|apply Hfail; [assumption | lia]].
    apply tallied_register, Hq.
  - apply Hfail; [assumption | lia].
  - exact Hq.
Qed.

Lemma size_alter (f : Session -> Session) k (m : gmap string Session) :
  size (alter f k m) = size m.
Proof.
  rewrite <- (size_dom (D:=gset string) (alter f k m)).
  rewrite <- (size_dom (D:=gset string) m).
  rewrite dom_alter_L. reflexivity.
Qed.

Lemma tallied_apply e p : tallied p -> tallied (apply e p).
Proof.
  intros Hp.
  destruct e as [att|sid now env|sid c|env|k pr now|att now closes|k|sid c
                |sid|sid now|closes]; cbn -[size].
  - unfold initialize.
    pose proof (tallied_create_browsers
      (Z.to_nat (minBrowsers (config p))) att p Hp) as Hc.
    destruct (create_browsers _ att p) as [[u|e|] q]; cbn -[size] in *; auto.
    destruct Hc; split; cbn -[size]; assumption.
  - apply tallied_getPage, Hp.
  - apply tallied_releasePage, Hp.
  - apply tallied_finish_health_check. unfold probe_all.
    apply tallied_fold; [|exact Hp].
    intros q k. apply tallied_checkBrowserHealth.
  - apply tallied_checkBrowserHealth, Hp.
  - apply tallied_finish_health_check, Hp.
  - destruct Hp. split; cbn -[size]; rewrite ?length_alter, ?List.length_map; lia.
  - apply tallied_releasePage. destruct Hp. split; cbn -[size]; lia.
  - unfold handlePageError. destruct (sessions p !! sid); [|exact Hp].
    destruct Hp. split; cbn -[size]; rewrite ?length_count_error; lia.
  - destruct Hp. split; cbn -[size]; rewrite ?size_alter; lia.
  - unfold shutdown. apply tallied_fold.
    { intros q k. apply tallied_removeBrowser. }
    apply tallied_release_all.
    unfold clear_timer. cbn -[size]. destruct (healthCheckTimer p);
      destruct Hp; split; cbn -[size]; assumption.
Qed.

Lemma tallied_run es p : tallied p -> tallied (run es p).
Proof. apply tallied_fold. intros q e. apply tallied_apply. Qed.


(** ** [getPage] and [releasePage] *)

Lemma getAvailableBrowser_requests now l clock p :
  totalRequests (metrics (getAvailableBrowser now l clock p).2) =
    totalRequests (metrics p) /\
  failedRequests (metrics (getAvailableBrowser now l clock p).2) =
    failedRequests (metrics p).
Proof.
  unfold getAvailableBrowser.
  destruct (scan p); [auto|].
  destruct (_ <? _).
  - destruct l; cbn; auto.
  - destruct (waitForAvailableBrowser _ _ _); auto.
Qed.

(** X9. Every call of [getPage] is counted in [totalRequests], and in
    [failedRequests] exactly when it throws. A call that returns a page
    has registered, under its session id and nowhere else, a session that
    holds that page and a browser whose handle is marked healthy in the
    pool it leaves; a call that throws leaves the sessions and
    [activePages] as they were. *)
Theorem getPage_counts_every_request sid now env p :
  totalRequests (metrics (getPage sid now env p).2) =
    totalRequests (metrics p) + 1 /\
  match (getPage sid now env p).1 with
  | Returned pg =>
      failedRequests (metrics (getPage sid now env p).2) =
        failedRequests (metrics p) /\
      isShuttingDown p = false /\
      (exists s,
         sessions (getPage sid now env p).2 = <[sid := s]> (sessions p) /\
         page s = pg /\ lastActivity s = registeredAt env /\
         exists k b, In (k, b) (browsers (getPage sid now env p).2) /\
                     instance b = browser s /\ isHealthy b = true)
  | Threw _ =>
      failedRequests (metrics (getPage sid now env p).2) =
        failedRequests (metrics p) + 1 /\
      sessions (getPage sid now env p).2 = sessions p /\
      activePages (metrics (getPage sid now env p).2) =
        activePages (metrics p)
  | Pending =>
      failedRequests (metrics (getPage sid now env p).2) =
        failedRequests (metrics p) /\
      sessions (getPage sid now env p).2 = sessions p
  end.
Proof.
  unfold getPage. cbn [isShuttingDown set_metrics].
  destruct (isShuttingDown p) eqn:Hsd; [cbn; auto|].
  set (p0 := set_metrics (add_totalRequests 1 (metrics p)) p).
  destruct (getAvailableBrowser_requests now (launch env) (readings env) p0)
    as [Ht Hf].
  destruct (getAvailableBrowser now (launch env) (readings env) p0)
    as [r q] eqn:Hg.
  pose proof (PoolFacts.getAvailableBrowser_effect _ _ _ _ _ _ Hg)
    as ([Hc Hs Hss Ha] & _ & _).
  cbn [snd] in Ht, Hf. cbn in Hss, Ha.
  destruct r as [i|e|]; cbn -[size].
  - apply PoolFacts.getAvailableBrowser_healthy in Hg as (k & b & Hin & Hi & Hh).
    destruct (newContext env) as [ctx|]; cbn;
      [|rewrite Ht, Hf, Hss, Ha; cbn; auto].
    destruct (newPage env) as [pg|]; cbn;
      [|rewrite Ht, Hf, Hss, Ha; cbn; auto].
    rewrite Ht, Hf, Hss. cbn. repeat split.
    eexists. split; [reflexivity|]. cbn. repeat split.
    exists k, b. auto.
  - rewrite Ht, Hf, Hss, Ha. cbn. auto.
  - rewrite Ht, Hf, Hss. cbn. auto.
Qed.

(** X10. Acquire and release are a round trip on the books: when
    [getPage] returns a page for an id that was not registered and the
    page and context then close without throwing, [releasePage] leaves the
    sessions and [activePages] exactly as they were before the [getPage];
    the handles are those [getPage] left (a browser launched for the
    session stays in the pool). *)
Theorem acquire_then_release_restores sid now env c p pg p1 :
  getPage sid now env p = (Returned pg, p1) ->
  sessions p !! sid = None ->
  closes_ok c = true ->
  (releasePage sid c p1).1 = PageReleased /\
  sessions (releasePage sid c p1).2 = sessions p /\
  activePages (metrics (releasePage sid c p1).2) = activePages (metrics p) /\
  browsers (releasePage sid c p1).2 = browsers p1.
Proof.
  intros Hg Hnone Hc.
  apply PoolFacts.getPage_effect in Hg
    as (_ & _ & _ & _ & [(_ & _ & Hn)|(s & pg' & _ & Hs & Ha)]).
  { exfalso. apply (Hn pg). reflexivity. }
  assert (Hl : sessions p1 !! sid = Some s)
    by (rewrite Hs; apply lookup_insert_eq).
  rewrite (PoolFacts.releasePage_done sid c p1 s Hl Hc). cbn.
  rewrite Hs, Ha. split; [reflexivity|].
  split; [apply delete_insert_id, Hnone|]. split; [lia | reflexivity].
Qed.

(** ** [createBrowser] *)

Lemma set_replaces (k : Z) (v old : Browser) m :
  JsMap.get k m = Some old ->
  length (JsMap.set k v m) = length m /\
  (List.NoDup (insts m) -> instance v <> instance old ->
   forall k' b', In (k', b') (JsMap.set k v m) -> instance b' <> instance old).
Proof.
  unfold JsMap.get.
  induction m as [|[k0 b0] m IH]; cbn; [discriminate|].
  destruct (JsMap.has_key k (k0, b0)) eqn:E; cbn.
  - intros H; inversion H; subst; clear H. split; [reflexivity|].
    intros Hnd Hne k' b' [Hin|Hin].
    + inversion Hin; subst. exact Hne.
    + inversion Hnd; subst. intros Heq. apply H1. rewrite <- Heq.
      apply (PoolFacts.in_insts m (k', b')), Hin.
  - intros H. destruct (IH H) as [Hlen Hrest]. split; [lia|].
    intros Hnd Hne k' b' [Hin|Hin].
    + inversion Hin; subst. inversion Hnd; subst. intros Heq. apply H2.
      rewrite Heq.
      destruct (List.find (JsMap.has_key k) m) as [[k1 b1]|] eqn:Ef;
        [|discriminate].
      cbn in H. inversion H; subst.
      apply List.find_some in Ef as [Hin' _].
      apply (PoolFacts.in_insts m (k1, old)), Hin'.
    + inversion Hnd; subst. exact (Hrest H3 Hne k' b' Hin).
Qed.

(** X11. The id of a handle is the clock reading at which [createBrowser]
    was called. A second call at the same reading overwrites the handle
    of the first: the launch is counted in [created], the number of
    handles does not grow, nothing is counted in [destroyed], and the
    browser of the first call is held by no handle from then on, whatever
    is called later; [removeBrowser] closes only browsers that a handle
    holds. *)
Theorem createBrowser_same_reading_overwrites now t p old :
  wf p ->
  JsMap.get now (browsers p) = Some old ->
  let p' := (createBrowser now (Launched t) p).2 in
  length (browsers p') = length (browsers p) /\
  created (metrics p') = created (metrics p) + 1 /\
  destroyed (metrics p') = destroyed (metrics p) /\
  forall es, gone (instance old) (run es p').
Proof.
  intros [Hnd Hlt] Hget p'. subst p'.
  assert (Hin : In (instance old) (insts (browsers p))).
  { unfold JsMap.get in Hget.
    destruct (List.find _ (browsers p)) as [[k1 b1]|] eqn:Ef; [|discriminate].
    cbn in Hget. inversion Hget; subst.
    apply List.find_some in Ef as [Hin' _].
    apply (PoolFacts.in_insts (browsers p) (k1, old)), Hin'. }
  pose proof (Hlt _ Hin) as Hold.
  destruct (set_replaces now
    (mkBrowser now (launched p) [] true t t 0) old (browsers p) Hget)
    as [Hlen Hrest].
  assert (Hg : gone (instance old) (createBrowser now (Launched t) p).2).
  { split; cbn; [lia|]. intros k b Hkb.
    assert (Hne : instance (mkBrowser now (launched p) [] true t t 0) <>
                  instance old) by (cbn; lia).
    exact (Hrest Hnd Hne k b Hkb). }
  split; [exact Hlen|]. split; [reflexivity|]. split; [reflexivity|].
  intros es. revert Hg. generalize (createBrowser now (Launched t) p).2.
  induction es as [|e es IH]; intros q Hq; [exact Hq|].
  cbn. apply IH.
  eapply PoolFacts.gone_evolves; [exact Hq | apply PoolFacts.apply_evolves].
Qed.

(** ** The clean-ups of the health check *)

Lemma ensure_minimum_floor attempts p p' :
  ensure_minimum attempts p = (Returned tt, p') ->
  ((forall k b, In (k, b) (browsers p) -> isHealthy b = true) ->
   forall k b, In (k, b) (browsers p') -> isHealthy b = true) /\
  (isShuttingDown p = false ->
   minBrowsers (config p) <= Z.of_nat (length (browsers p'))) /\
  (isShuttingDown p = true -> p' = p).
Proof.
  revert p. induction attempts as [|[now l] rest IH]; intros p; cbn.
  - destruct (Z.ltb_spec (Z.of_nat (length (browsers p)))
                (minBrowsers (config p))) as [Hlt|Hge];
      destruct (isShuttingDown p); cbn; intros E; inversion E; subst;
      repeat split; auto; try discriminate; try lia.
  - destruct (Z.ltb_spec (Z.of_nat (length (browsers p)))
                (minBrowsers (config p))) as [Hlt|Hge];
      destruct (isShuttingDown p) eqn:Hsd; cbn;
      try (intros E; inversion E; subst;
           repeat split; auto; try discriminate; lia).
    destruct (createBrowser now l p) as [[i|e|] q] eqn:Hc;
      try discriminate.
    apply PoolFacts.createBrowser_effect in Hc as ([Hcf Hs _ _] & _ & Hin).
    intros E. apply IH in E as (Hh & Hf & _).
    split; [|split; [|discriminate]].
    + intros Hall. apply Hh. intros k b Hkb.
      destruct (Hin _ Hkb) as [Hold|[_ Hnew]]; [eapply Hall, Hold | exact Hnew].
    + intros _. rewrite <- Hcf. apply Hf. congruence.
Qed.

(** X12. When [cleanupUnhealthyBrowsers] returns, every handle left is
    marked healthy and, unless the pool is shutting down, at least
    [min(2, maxBrowsers)] handles are held; when the pool is shutting
    down the loop that refills the pool launches nothing. *)
Theorem cleanup_restores_the_floor attempts p p' :
  cleanupUnhealthyBrowsers attempts p = (Returned tt, p') ->
  (forall k b, In (k, b) (browsers p') -> isHealthy b = true) /\
  (isShuttingDown p = false ->
   minBrowsers (config p) <= Z.of_nat (length (browsers p'))) /\
  (isShuttingDown p = true -> launched p' = launched p).
Proof.
  unfold cleanupUnhealthyBrowsers. intros E.
  destruct (PoolFacts.remove_all_effect (unhealthy_ids p) p)
    as (Hc & Hs & _ & Hl & _ & _ & Hb).
  cbn zeta in Hc, Hs, Hl, Hb.
  apply ensure_minimum_floor in E as (Hh & Hf & Hsd).
  split; [|split].
  - apply Hh. intros k b Hkb. rewrite Hb in Hkb.
    apply PoolFacts.in_delete_all in Hkb as [Hin Hnot].
    destruct (isHealthy b) eqn:Hb'; [reflexivity|].
    exfalso. apply Hnot. eapply PoolFacts.in_unhealthy_ids; eassumption.
  - intros Hn. rewrite <- Hc. apply Hf. congruence.
  - intros Hy. rewrite Hsd by congruence. exact Hl.
Qed.

Lemma elem_of_stale_ids now p sid :
  sid ∈ stale_ids now p <->
  exists s, sessions p !! sid = Some s /\ is_stale (config p) now s = true.
Proof.
  unfold stale_ids. rewrite list_elem_of_fmap. split.
  - intros ([k s] & -> & Hin). apply elem_of_map_to_list in Hin.
    apply map_lookup_filter_Some in Hin as [Hl Hs]. eauto.
  - intros (s & Hl & Hs). exists (sid, s). split; [reflexivity|].
    apply elem_of_map_to_list. apply map_lookup_filter_Some. auto.
Qed.

Lemma cleanupStaleSessions_lookup now closes p sid :
  sessions (cleanupStaleSessions now closes p) !! sid =
    match sessions p !! sid with
    | Some s =>
        if (sessionTimeout (config p) <? now - lastActivity s) &&
           closes_ok (closes sid)
        then None else Some s
    | None => None
    end.
Proof.
  unfold cleanupStaleSessions. rewrite PoolFacts.release_all_lookup.
  destruct (sessions p !! sid) as [s|] eqn:El.
  - fold (is_stale (config p) now s).
    destruct (is_stale (config p) now s) eqn:Es.
    + rewrite bool_decide_eq_true_2; [reflexivity|].
      apply elem_of_stale_ids. eauto.
    + rewrite bool_decide_eq_false_2; [reflexivity|].
      intros Hin. apply elem_of_stale_ids in Hin as (s' & Hl & Hs').
      congruence.
  - destruct (_ && _); reflexivity.
Qed.

(** X13. [cleanupStaleSessions] at clock reading [now] removes exactly
    the sessions that have been idle for more than [sessionTimeout] (a
    session idle for exactly [sessionTimeout] stays) and whose page and
    context close without throwing; it leaves the handles alone, and
    [activePages] falls by the number of sessions removed. *)
Theorem stale_sessions_are_swept now closes p :
  (forall sid,
     sessions (cleanupStaleSessions now closes p) !! sid =
       match sessions p !! sid with
       | Some s =>
           if (sessionTimeout (config p) <? now - lastActivity s) &&
              closes_ok (closes sid)
           then None else Some s
       | None => None
       end) /\
  browsers (cleanupStaleSessions now closes p) = browsers p /\
  activePages (metrics p) -
    activePages (metrics (cleanupStaleSessions now closes p)) =
    Z.of_nat (size (sessions p)) -
    Z.of_nat (size (sessions (cleanupStaleSessions now closes p))).
Proof.
  split; [intros sid; apply cleanupStaleSessions_lookup|].
  unfold cleanupStaleSessions.
  destruct (PoolFacts.release_all_effect (stale_ids now p) closes p)
    as (_ & _ & Hb & _ & _ & Hsl).
  cbn zeta in Hb, Hsl. unfold slack in Hsl.
  split; [exact Hb | lia].
Qed.

Lemma checkBrowserHealth_frame k pr now p :
  config (checkBrowserHealth k pr now p) = config p /\
  sessions (checkBrowserHealth k pr now p) = sessions p /\
  created (metrics (checkBrowserHealth k pr now p)) = created (metrics p) /\
  length (browsers (checkBrowserHealth k pr now p)) = length (browsers p).
Proof.
  unfold checkBrowserHealth. destruct (probe_passes pr); cbn;
    rewrite length_alter; auto.
Qed.

Lemma probe_all_frame (f : Z -> Probe) now p :
  config (probe_all f now p) = config p /\
  sessions (probe_all f now p) = sessions p /\
  created (metrics (probe_all f now p)) = created (metrics p) /\
  length (browsers (probe_all f now p)) = length (browsers p).
Proof.
  unfold probe_all. generalize (JsMap.keys (browsers p)). intros ks.
  revert p. induction ks as [|k ks IH]; intros p; cbn; [auto|].
  destruct (IH (checkBrowserHealth k (f k) now p)) as (-> & -> & -> & ->).
  apply checkBrowserHealth_frame.
Qed.

Lemma ensure_minimum_frame attempts p :
  config (ensure_minimum attempts p).2 = config p /\
  sessions (ensure_minimum attempts p).2 = sessions p.
Proof.
  revert p. induction attempts as [|[now l] rest IH]; intros p; cbn.
  - destruct (_ && _); auto.
  - destruct (_ && _); [|auto].
    destruct (createBrowser now l p) as [[i|e|] q] eqn:Hc;
      apply PoolFacts.createBrowser_effect in Hc as ([Hcf _ Hs _] & _ & _);
      cbn; auto.
    destruct (IH q) as [-> ->]. auto.
Qed.

Lemma finish_health_check_keeps attempts now closes p sid s :
  sessions p !! sid = Some s ->
  is_stale (config p) now s = false ->
  sessions (finish_health_check attempts now closes p).2 !! sid = Some s.
Proof.
  intros Hl Hs. unfold finish_health_check, cleanupUnhealthyBrowsers.
  destruct (PoolFacts.remove_all_effect (unhealthy_ids p) p)
    as (Hc & _ & Hss & _).
  cbn zeta in Hc, Hss.
  set (q := foldl _ p _) in *.
  destruct (ensure_minimum_frame attempts q) as [Hc' Hs'].
  destruct (ensure_minimum attempts q) as [[u|e|] q1]; cbn [snd] in *;
    try (rewrite Hs', Hss; exact Hl).
  rewrite cleanupStaleSessions_lookup, Hs', Hss, Hl, Hc', Hc.
  unfold is_stale in Hs. rewrite Hs. reflexivity.
Qed.

(** X14. A run of the health check keeps every session that is not
    stale, whatever happens to the handles: when the probe of a handle
    fails, the handle is destroyed and its browser is held by no handle
    afterwards, while the sessions on that browser stay registered (and
    counted in [activePages]) until they are released or go stale. *)
Theorem health_check_keeps_sessions_of_destroyed_browsers env p k b :
  wf p ->
  In (k, b) (browsers p) ->
  probe_passes (probes env k) = false ->
  gone (instance b) (performHealthCheck env p).2 /\
  forall sid s,
    sessions p !! sid = Some s ->
    sweptAt env - lastActivity s <= sessionTimeout (config p) ->
    sessions (performHealthCheck env p).2 !! sid = Some s.
Proof.
  intros Hwf Hin Hpr.
  split; [eapply PoolFacts.performHealthCheck_removes; eassumption|].
  intros sid s Hl Hs. unfold performHealthCheck.
  destruct (probe_all_frame (probes env) (probedAt env) p)
    as (Hc & Hss & _ & _).
  apply finish_health_check_keeps.
  - rewrite Hss. exact Hl.
  - rewrite Hc. unfold is_stale. apply Z.ltb_ge. lia.
Qed.

(** ** After [shutdown] *)

Lemma releasePage_launches_nothing sid c p :
  created (metrics (releasePage sid c p).2) = created (metrics p).
Proof.
  unfold releasePage. destruct (sessions p !! sid); [|reflexivity].
  destruct (pageClose c), (contextClose c); reflexivity.
Qed.

Lemma release_all_launches_nothing ids closes p :
  created (metrics (release_all ids closes p)) = created (metrics p).
Proof.
  unfold release_all. revert p.
  induction ids as [|sid ids IH]; intros p; cbn; [reflexivity|].
  rewrite IH. apply releasePage_launches_nothing.
Qed.

Lemma remove_all_launches_nothing ks p :
  created (metrics (foldl (fun p k => removeBrowser k p) p ks)) =
    created (metrics p).
Proof.
  revert p. induction ks as [|k ks IH]; intros p; cbn; [reflexivity|].
  rewrite IH. unfold removeBrowser.
  destruct (JsMap.get k (browsers p)); reflexivity.
Qed.

Lemma shutdown_launches_nothing closes p :
  created (metrics (shutdown closes p)) = created (metrics p).
Proof.
  unfold shutdown.
  rewrite remove_all_launches_nothing, release_all_launches_nothing.
  unfold clear_timer. cbn. destruct (healthCheckTimer p); reflexivity.
Qed.

Lemma apply_after_shutdown e p :
  not_initialize e = true ->
  isShuttingDown p = true -> browsers p = [] ->
  isShuttingDown (apply e p) = true /\ browsers (apply e p) = [] /\
  launched (apply e p) = launched p /\
  created (metrics (apply e p)) = created (metrics p).
Proof.
  intros He Hsd Hb.
  assert (Hfin : forall att now closes,
    let q := (finish_health_check att now closes p).2 in
    isShuttingDown q = true /\ browsers q = [] /\
    launched q = launched p /\ created (metrics q) = created (metrics p)).
  { intros att now closes. unfold finish_health_check, cleanupUnhealthyBrowsers.
    unfold unhealthy_ids. rewrite Hb. cbn [List.filter JsMap.keys List.map foldl].
    assert (Hem : ensure_minimum att p = (Returned tt, p)).
    { destruct att as [|[t l] rest]; cbn; rewrite Hsd, andb_false_r;
        reflexivity. }
    rewrite Hem. cbn [snd]. unfold cleanupStaleSessions.
    destruct (PoolFacts.release_all_effect (stale_ids now p) closes p)
      as (_ & Hs1 & Hb1 & Hl1 & _).
    cbn zeta in Hs1, Hb1, Hl1.
    rewrite Hs1, Hb1, Hl1, release_all_launches_nothing. auto. }
  destruct e as [att|sid now env|sid c|env|k pr now|att now closes|k|sid c
                |sid|sid now|closes]; cbn [apply]; try discriminate.
  - rewrite (PoolFacts.getPage_shutting sid now env p Hsd). cbn. auto.
  - destruct (PoolFacts.releasePage_effect sid c p) as (_ & Hs1 & Hb1 & Hl1 & _).
    cbn zeta in Hs1, Hb1, Hl1.
    rewrite Hs1, Hb1, Hl1, releasePage_launches_nothing. auto.
  - unfold performHealthCheck, probe_all. rewrite Hb. cbn [JsMap.keys List.map foldl].
    apply Hfin.
  - unfold checkBrowserHealth. rewrite Hb. destruct (probe_passes pr); cbn; auto.
  - apply Hfin.
  - unfold handleBrowserDisconnect. cbn. rewrite Hb. cbn. auto.
  - unfold handlePageCrash.
    destruct (PoolFacts.releasePage_effect sid c
                (set_metrics (add_crashed 1 (metrics p)) p))
      as (_ & Hs1 & Hb1 & Hl1 & _).
    cbn zeta in Hs1, Hb1, Hl1.
    rewrite Hs1, Hb1, Hl1, releasePage_launches_nothing. cbn. auto.
  - unfold handlePageError. destruct (sessions p !! sid); [|auto].
    rewrite Hb. cbn. auto.
  - cbn. auto.
  - destruct (PoolFacts.shutdown_effect closes p) as (_ & Hs1 & Hb1 & _ & Hl1 & _).
    cbn zeta in Hs1, Hb1, Hl1. rewrite Hs1, Hb1, Hl1.
    repeat split. apply shutdown_launches_nothing.
Qed.

Lemma create_browsers_counts n attempts p :
  match (create_browsers n attempts p).1 with
  | Returned _ =>
      created (metrics (create_browsers n attempts p).2) =
        created (metrics p) + Z.of_nat n
  | _ =>
      created (metrics p) <= created (metrics (create_browsers n attempts p).2)
        < created (metrics p) + Z.of_nat n
  end /\
  healthCheckTimer (create_browsers n attempts p).2 = healthCheckTimer p /\
  (length (browsers (create_browsers n attempts p).2) <=
     length (browsers p) + n)%nat.
Proof.
  revert attempts p. induction n as [|n IH]; intros attempts p.
  - cbn. split; [lia|]. split; [reflexivity | lia].
  - cbn [create_browsers]. destruct attempts as [|[now l] rest].
    + cbn. split; [lia|]. split; [reflexivity | lia].
    + destruct l as [t|].
      * cbn [createBrowser]. cbv zeta.
        set (q := set_metrics _ (set_browsers _ (set_launched _ p))).
        destruct (IH rest q) as (H1 & H2 & H3).
        assert (Hq : created (metrics q) = created (metrics p) + 1)
          by reflexivity.
        assert (Hq2 : healthCheckTimer q = healthCheckTimer p) by reflexivity.
        assert (Hq3 : (length (browsers q) <= S (length (browsers p)))%nat)
          by apply PoolFacts.length_set.
        destruct (create_browsers n rest q) as [[u|e|] q1];
          cbn [fst snd] in *; rewrite H2, Hq2;
          (split; [lia | split; [reflexivity | lia]]).
      * cbn. split; [lia|]. split; [reflexivity | lia].
Qed.


(** ** [initialize] *)

(** X16. [initialize] starts the health monitor only when every launch
    succeeded. When it returns, the timer is armed and
    [min(2, maxBrowsers)] launches have been counted; when a launch
    throws, [initialize] throws, the timer is left as it was, and the
    browsers launched before the failure stay in the pool. *)
Theorem initialize_arms_the_monitor_only_on_success attempts p :
  match (initialize attempts p).1 with
  | Returned _ =>
      healthCheckTimer (initialize attempts p).2 = Some true /\
      created (metrics (initialize attempts p).2) =
        created (metrics p) + Z.max 0 (minBrowsers (config p))
  | _ =>
      healthCheckTimer (initialize attempts p).2 = healthCheckTimer p /\
      created (metrics p) <= created (metrics (initialize attempts p).2)
        < created (metrics p) + Z.max 0 (minBrowsers (config p))
  end.
Proof.
  unfold initialize.
  destruct (create_browsers_counts (Z.to_nat (minBrowsers (config p)))
              attempts p) as (H1 & H2 & _).
  destruct (create_browsers _ attempts p) as [[u|e|] q];
    cbn [fst snd] in *; (split; [try exact H2; reflexivity|]); cbn; lia.
Qed.

(** ** The limit on the number of handles *)

Lemma length_delete_le {V : Type} (k : Z) (m : list (Z * V)) :
  (length (JsMap.delete k m) <= length m)%nat.
Proof. apply List.filter_length_le. Qed.

Lemma within_limit_same p p' :
  config p' = config p -> length (browsers p') = length (browsers p) ->
  within_limit p -> within_limit p'.
Proof. unfold within_limit. intros -> ->. auto. Qed.

Lemma within_limit_removeBrowser k p :
  within_limit p -> within_limit (removeBrowser k p).
Proof.
  unfold within_limit, removeBrowser. intros H.
  destruct (JsMap.get k (browsers p)); [|exact H]. cbn.
  pose proof (length_delete_le k (browsers p)). lia.
Qed.

Lemma within_limit_remove_all ks p :
  within_limit p -> within_limit (foldl (fun p k => removeBrowser k p) p ks).
Proof.
  revert p. induction ks as [|k ks IH]; intros p H; cbn; [exact H|].
  apply IH, within_limit_removeBrowser, H.
Qed.

Lemma within_limit_ensure_minimum attempts p :
  within_limit p -> within_limit (ensure_minimum attempts p).2.
Proof.
  revert p. induction attempts as [|[now l] rest IH]; intros p H; cbn.
  - destruct (_ && _); exact H.
  - destruct (Z.ltb_spec (Z.of_nat (length (browsers p)))
                (minBrowsers (config p))) as [Hlt|Hge]; [|exact H].
    destruct (negb (isShuttingDown p)); [|exact H]. cbn [andb].
    destruct l as [t|]; [|exact H]. cbn [createBrowser]. cbv zeta.
    apply IH. unfold within_limit. cbn.
    pose proof (PoolFacts.length_set now
      (mkBrowser now (launched p) [] true t t 0) (browsers p)).
    unfold minBrowsers in Hlt. lia.
Qed.

Lemma within_limit_finish_health_check attempts now closes p :
  within_limit p -> within_limit (finish_health_check attempts now closes p).2.
Proof.
  intros H. unfold finish_health_check, cleanupUnhealthyBrowsers.
  pose proof (within_limit_ensure_minimum attempts _
                (within_limit_remove_all (unhealthy_ids p) p H)) as He.
  destruct (ensure_minimum attempts _) as [[u|e|] q]; cbn [snd] in *;
    try exact He.
  unfold cleanupStaleSessions.
  destruct (PoolFacts.release_all_effect (stale_ids now q) closes q)
    as (Hc & _ & Hb & _).
  cbn zeta in Hc, Hb.
  eapply within_limit_same; [exact Hc | rewrite Hb; reflexivity | exact He].
Qed.

Lemma within_limit_getPage sid now env p :
  within_limit p -> within_limit (getPage sid now env p).2.
Proof.
  intros H. unfold getPage. cbn [isShuttingDown set_metrics].
  destruct (isShuttingDown p); [exact H|].
  set (p0 := set_metrics (add_totalRequests 1 (metrics p)) p).
  assert (Hq : within_limit
                 (getAvailableBrowser now (launch env) (readings env) p0).2).
  { unfold getAvailableBrowser. destruct (scan p0); [exact H|].
    destruct (Z.ltb_spec (Z.of_nat (length (browsers p0)))
                (maxBrowsers (config p0))) as [Hlt|Hge].
    - destruct (launch env) as [t|]; [|exact H].
      unfold within_limit. cbn.
      pose proof (PoolFacts.length_set now
        (mkBrowser now (launched p) [] true t t 0) (browsers p)).
      cbn in Hlt. lia.
    - destruct (waitForAvailableBrowser _ _ _); exact H. }
  destruct (getAvailableBrowser now (launch env) (readings env) p0)
    as [[i|e|] q]; cbn [snd] in *; try exact Hq.
  destruct (newContext env); [|exact Hq].
  destruct (newPage env); exact Hq.
Qed.

Lemma within_limit_apply e p :
  not_initialize e = true -> within_limit p -> within_limit (apply e p).
Proof.
  intros He H.
  destruct e as [att|sid now env|sid c|env|k pr now|att now closes|k|sid c
                |sid|sid now|closes]; cbn [apply]; try discriminate.
  - apply within_limit_getPage, H.
  - destruct (PoolFacts.releasePage_effect sid c p) as (Hc & _ & Hb & _).
    cbn zeta in Hc, Hb.
    eapply within_limit_same; [exact Hc | rewrite Hb; reflexivity | exact H].
  - apply within_limit_finish_health_check.
    destruct (probe_all_frame (probes env) (probedAt env) p)
      as (Hc & _ & _ & Hlen).
    eapply within_limit_same; [exact Hc | exact Hlen | exact H].
  - destruct (checkBrowserHealth_frame k pr now p) as (Hc & _ & _ & Hlen).
    eapply within_limit_same; [exact Hc | exact Hlen | exact H].
  - apply within_limit_finish_health_check, H.
  - unfold within_limit, handleBrowserDisconnect. cbn.
    rewrite List.length_map. exact H.
  - unfold handlePageCrash.
    destruct (PoolFacts.releasePage_effect sid c
                (set_metrics (add_crashed 1 (metrics p)) p))
      as (Hc & _ & Hb & _).
    cbn zeta in Hc, Hb.
    eapply within_limit_same; [exact Hc | rewrite Hb; reflexivity | exact H].
  - unfold handlePageError. destruct (sessions p !! sid); [|exact H].
    unfold within_limit. cbn. rewrite length_count_error. exact H.
  - exact H.
  - destruct (PoolFacts.shutdown_effect closes p) as (_ & _ & Hb & _).
    cbn zeta in Hb. unfold within_limit. rewrite Hb. cbn. lia.
Qed.

Lemma within_limit_run es p :
  forallb not_initialize es = true -> within_limit p -> within_limit (run es p).
Proof.
  revert p. induction es as [|e es IH]; intros p Hes H; [exact H|].
  cbn in Hes. apply andb_prop in Hes as [He Hes].
  cbn. apply IH; [exact Hes|]. apply within_limit_apply; assumption.
Qed.

Lemma within_limit_initialize attempts o :
  within_limit (initialize attempts (new o)).2.
Proof.
  unfold initialize.
  destruct (create_browsers_counts (Z.to_nat (minBrowsers (config (new o))))
              attempts (new o)) as (_ & _ & H3).
  assert (Hc : forall n a p, config (create_browsers n a p).2 = config p).
  { induction n as [|n IH]; intros a p; cbn; [reflexivity|].
    destruct a as [|[now l] rest]; [reflexivity|].
    destruct l as [t|]; [|reflexivity]. cbn [createBrowser]. cbv zeta.
    rewrite IH. reflexivity. }
  specialize (Hc (Z.to_nat (minBrowsers (config (new o)))) attempts (new o)).
  destruct (create_browsers _ attempts (new o)) as [[u|e|] q];
    cbn [snd] in *; unfold within_limit; cbn [config browsers startHealthMonitoring set_healthCheckTimer];
    rewrite Hc; unfold minBrowsers in H3; cbn [browsers new length] in H3; lia.
Qed.

(** X17. In a run of calls that do not overlap, started on a new pool and
    in which [initialize] is called first or not at all, the number of
    handles never exceeds [maxBrowsers] (0 when [maxBrowsers] is
    negative): the health check refills the pool only below
    [min(2, maxBrowsers)]. A second [initialize] is not bound by the
    limit. *)
Theorem handles_stay_within_maxBrowsers o es :
  initialize_first es = true ->
  within_limit (run es (new o)) /\
  ~ within_limit
      (run [Initialize [(0, Launched 1); (2, Launched 3)];
            Initialize [(4, Launched 5); (6, Launched 7)]]
         (new (mkOptions (Some 2) None None None None))).
Proof.
  intros Hes. split.
  - destruct es as [|e es]; cbn in Hes.
    + unfold within_limit. cbn. lia.
    + cbn. apply within_limit_run; [exact Hes|].
      destruct (not_initialize e) eqn:He.
      * apply within_limit_apply; [exact He|]. unfold within_limit. cbn. lia.
      * destruct e; try discriminate. apply within_limit_initialize.
  - unfold within_limit. vm_compute. intros H. apply H. reflexivity.
Qed.

(** ** Sample runs *)

Lemma acquire_then_release_restores_witness :
  (releasePage "s1" close_ok ex_pool).1 = PageReleased /\
  sessions (releasePage "s1" close_ok ex_pool).2 = sessions (new no_options) /\
  activePages (metrics (releasePage "s1" close_ok ex_pool).2) =
    activePages (metrics (new no_options)) /\
  browsers (releasePage "s1" close_ok ex_pool).2 = browsers ex_pool.
Proof.
  apply (acquire_then_release_restores "s1" 0 ex_env close_ok
           (new no_options) 1%nat ex_pool);
    vm_compute; reflexivity.
Defined.

Lemma createBrowser_same_reading_overwrites_witness :
  length (browsers (createBrowser 0 (Launched 7) ex_pool).2) =
    length (browsers ex_pool) /\
  created (metrics (createBrowser 0 (Launched 7) ex_pool).2) =
    created (metrics ex_pool) + 1 /\
  destroyed (metrics (createBrowser 0 (Launched 7) ex_pool).2) =
    destroyed (metrics ex_pool) /\
  forall es, gone 0%nat (run es (createBrowser 0 (Launched 7) ex_pool).2).
Proof.
  apply (createBrowser_same_reading_overwrites 0 7 ex_pool
           (mkBrowser 0 0%nat [] true 5 5 0)).
  - exact (PoolFacts.wf_run [GetPage "s1" 0 ex_env] (new no_options)
             (PoolFacts.wf_new no_options)).
  - vm_compute. reflexivity.
Defined.

Lemma cleanup_restores_the_floor_witness :
  (forall k b,
     In (k, b)
       (browsers (cleanupUnhealthyBrowsers [(45, Launched 46)] floor_pool).2) ->
     isHealthy b = true) /\
  (isShuttingDown floor_pool = false ->
   minBrowsers (config floor_pool) <=
     Z.of_nat
       (length
          (browsers
             (cleanupUnhealthyBrowsers [(45, Launched 46)] floor_pool).2))) /\
  (isShuttingDown floor_pool = true ->
   launched (cleanupUnhealthyBrowsers [(45, Launched 46)] floor_pool).2 =
     launched floor_pool).
Proof.
  apply (cleanup_restores_the_floor [(45, Launched 46)] floor_pool
           (cleanupUnhealthyBrowsers [(45, Launched 46)] floor_pool).2).
  vm_compute. reflexivity.
Defined.

Lemma health_check_keeps_sessions_of_destroyed_browsers_witness :
  gone 0%nat (performHealthCheck sample_health leased_pool).2 /\
  forall sid s,
    sessions leased_pool !! sid = Some s ->
    sweptAt sample_health - lastActivity s <=
      sessionTimeout (config leased_pool) ->
    sessions (performHealthCheck sample_health leased_pool).2 !! sid = Some s.
Proof.
  apply (health_check_keeps_sessions_of_destroyed_browsers sample_health
           leased_pool 0 (mkBrowser 0 0%nat [] true 5 5 0)).
  - exact (PoolFacts.wf_run
             [Initialize [(0, Launched 5); (10, Launched 15)];
              GetPage "s1" 20 ex_env]
             (new no_options) (PoolFacts.wf_new no_options)).
  - vm_compute. left. reflexivity.
  - vm_compute. reflexivity.
Defined.


Lemma handles_stay_within_maxBrowsers_witness :
  within_limit (run sample_events (new no_options)).
Proof.
  apply (handles_stay_within_maxBrowsers no_options sample_events).
  vm_compute. reflexivity.
Defined.

End PoolMoreFacts.

(* ===================================================================== *)
(** * Properties of the retry loop                                        *)
(* ===================================================================== *)

Module RetryFacts.
Import Breaker Retry RetrySpec.
Local Open Scope Z_scope.

Section Loop.
Context {S R E : Type}.

Local Abbreviation Search := (S -> (R + E) * S).

(** X18. Called with its default [attempt = 1], [searchWithRetry] makes
    at most five searches and sleeps at most four times, for 1000, 2000,
    4000 and 8000 ms in this order; the cap [maxRetryDelay] of 32000 ms
    is never reached. It gives up only after the fifth search has thrown,
    with the error of that search; with five searches to look at it
    always ends. *)
Theorem searchWithRetry_makes_at_most_five_attempts
    (searches : list Search) (s : S) :
  searchWithRetry searches 1 s = searchWithRetry (firstn 5 searches) 1 s /\
  (exists k, (k <= 4)%nat /\
     (searchWithRetry searches 1 s).1.2 = firstn k backoff) /\
  (forall e, (searchWithRetry searches 1 s).1.1 = GaveUp e ->
     (searchWithRetry searches 1 s).1.2 = backoff /\
     exists s1 s2 s3 s4 s5 rest s',
       searches = s1 :: s2 :: s3 :: s4 :: s5 :: rest /\
       s5 s' = (inr e, (searchWithRetry searches 1 s).2)) /\
  ((5 <= length searches)%nat ->
   (searchWithRetry searches 1 s).1.1 <> Unfinished).
Proof.
  destruct searches as [|s1 l1]; cbn.
  { repeat split; try discriminate; try lia. exists 0%nat. split; [lia|auto]. }
  destruct (s1 s) as [[r|e1] st1]; cbn.
  { repeat split; try discriminate. exists 0%nat. split; [lia|auto]. }
  destruct l1 as [|s2 l2]; cbn.
  { repeat split; try discriminate; try lia. exists 1%nat. split; [lia|auto]. }
  destruct (s2 st1) as [[r|e2] st2]; cbn.
  { repeat split; try discriminate. exists 1%nat. split; [lia|auto]. }
  destruct l2 as [|s3 l3]; cbn.
  { repeat split; try discriminate; try lia. exists 2%nat. split; [lia|auto]. }
  destruct (s3 st2) as [[r|e3] st3]; cbn.
  { repeat split; try discriminate. exists 2%nat. split; [lia|auto]. }
  destruct l3 as [|s4 l4]; cbn.
  { repeat split; try discriminate; try lia. exists 3%nat. split; [lia|auto]. }
  destruct (s4 st3) as [[r|e4] st4]; cbn.
  { repeat split; try discriminate. exists 3%nat. split; [lia|auto]. }
  destruct l4 as [|s5 l5]; cbn.
  { repeat split; try discriminate; try lia. exists 4%nat. split; [lia|auto]. }
  destruct (s5 st4) as [[r|e5] st5] eqn:E5; cbn.
  { repeat split; try discriminate. exists 4%nat. split; [lia|auto]. }
  repeat split; try discriminate.
  - exists 4%nat. split; [lia|auto].
  - inversion H; subst. exists s1, s2, s3, s4, s5, l5, st4. auto.
Qed.

Lemma searchWithRetry_all_throw (s1 s2 s3 s4 s5 : Search)
    s e1 e2 e3 e4 e5 st1 st2 st3 st4 st5 :
  s1 s = (inr e1, st1) -> s2 st1 = (inr e2, st2) -> s3 st2 = (inr e3, st3) ->
  s4 st3 = (inr e4, st4) -> s5 st4 = (inr e5, st5) ->
  searchWithRetry [s1; s2; s3; s4; s5] 1 s = (GaveUp e5, backoff, st5).
Proof.
  intros H1 H2 H3 H4 H5. cbn. rewrite H1. cbn. rewrite H2. cbn.
  rewrite H3. cbn. rewrite H4. cbn. rewrite H5. reflexivity.
Qed.

End Loop.

Lemma searchWithRetry_makes_at_most_five_attempts_witness :
  (searchWithRetry sample_searches 1 0%nat).1.1 <> Unfinished.
Proof.
  refine (proj2 (proj2 (proj2
            (searchWithRetry_makes_at_most_five_attempts
               sample_searches 0%nat))) _).
  simpl. lia.
Defined.

(** ** The loop over the breaker *)

Section OverTheBreaker.
Variable float_pct_ge : nat -> nat -> Z -> bool.
Variables (W V : Type).

Local Abbreviation execute := (Breaker.execute float_pct_ge (W:=W) (V:=V)).

(** One attempt whose operation fails, on a breaker that is not in the
    middle of a trial. *)
Lemma attempt_step (fn : Operation W V) tau (c : Z * Z) b w :
  always_fails fn -> c.1 <= c.2 -> tau <= c.1 -> settled_by tau b ->
  exists e b' w',
    execute c.1 c.2 fn None b w = (inr e, b', w') /\
    config b' = config b /\ settled_by c.2 b' /\
    (state b' = CLOSED ->
     state b = CLOSED /\ failures b' = failures b + 1 /\
     failures b + 1 < threshold (config b)) /\
    (state b = OPEN -> state b' = OPEN) /\
    (state b = OPEN -> tau + sleepWindow (config b) <= c.1 ->
     e <> CircuitOpen /\
     nextAttempt b' = Some (c.2 + sleepWindow (config b))).
Proof.
  intros Hfn Hc Htau [Hnh Hop].
  assert (Hthrow : forall b1,
    execute_enter c.1 b = (LetThrough, b1) ->
    exists e w',
      execute c.1 c.2 fn None b w =
        (inr e, Breaker.execute_settle float_pct_ge
                  (settlement_of (fn w).1) c.2 b1, w') /\
      e <> CircuitOpen).
  { intros b1 He. unfold Breaker.execute. rewrite He.
    specialize (Hfn w). destruct (fn w) as [[v|msg|] w1]; cbn in *;
      [congruence| |]; eexists _, _; (split; [reflexivity | discriminate]). }
  destruct (state b) eqn:Hs; [| |congruence].
  - destruct (Hthrow _ (BreakerFacts.execute_enter_passes (fst c) b
                          ltac:(congruence))) as (e & w' & He & Hne).
    destruct (BreakerFacts.execute_settle_failure float_pct_ge _ c.2
                (set_metrics (incr_totalRequests (metrics b)) b) (Hfn w))
      as (b0 & Hb0 & Hs0 & Hc0 & Hf0 & Hn0).
    cbn in Hs0, Hc0, Hf0, Hn0.
    destruct (BreakerFacts.onFailure_closed float_pct_ge c.2 b0
                ltac:(congruence)) as [Hcf Hcases].
    cbn zeta in Hcf, Hcases.
    eexists e, _, w'. split; [exact He|]. rewrite Hb0.
    split; [congruence|].
    destruct Hcases as [(Hst & Hfl & Hlt & _)|(Hst & _ & Hna)].
    + split; [split; [congruence|intros Ho; congruence]|].
      split; [intros _; split; [reflexivity|split; congruence]|].
      split; intros; congruence.
    + split; [split; [congruence|]|].
      { intros _. eexists. split; [exact Hna|]. rewrite Hcf. lia. }
      split; [intros Hcl; congruence|]. split; intros; congruence.
  - destruct (Hop eq_refl) as (na & Hna & Hle).
    destruct (Z.lt_ge_cases c.1 na) as [Hlt|Hge].
    + rewrite (BreakerFacts.rejected_call float_pct_ge W V c.1 c.2 fn b w na
                 Hs Hna Hlt).
      eexists _, _, _. split; [reflexivity|]. unfold settled_by. cbn.
      split; [reflexivity|]. split.
      { split; [congruence|]. intros _. exists na. split; [exact Hna | lia]. }
      split; [congruence|]. split; [auto|]. intros _ Hdue. lia.
    + destruct (Hthrow _ (BreakerFacts.execute_enter_due (fst c) b na
                            Hs Hna Hge)) as (e & w' & He & Hne).
      destruct (BreakerFacts.execute_settle_failure float_pct_ge _ c.2
                  (setState c.1 HALF_OPEN
                     (set_metrics (incr_totalRequests (metrics b)) b)) (Hfn w))
        as (b0 & Hb0 & Hs0 & Hc0 & Hf0 & Hn0).
      cbn in Hs0, Hc0, Hf0, Hn0.
      destruct (BreakerFacts.onFailure_half_open float_pct_ge c.2 b0 Hs0)
        as (Hcf & Hst & _ & Hn).
      cbn zeta in Hcf, Hst, Hn.
      eexists e, _, w'. split; [exact He|]. rewrite Hb0.
      split; [congruence|]. split.
      { split; [congruence|]. intros _. eexists. split; [exact Hn|].
        rewrite Hcf. lia. }
      split; [congruence|]. split; [auto|]. intros _ _.
      split; [exact Hne|]. rewrite Hn, Hc0. reflexivity.
Qed.

(** X19. The retry loop over [mydorwayBreaker] (threshold 3, the default
    [sleepWindow] of 5000 ms; the [resetTimeout] of five minutes it is
    given is not read), on a breaker fresh from the constructor and with
    an operation that fails at every invocation. The loop makes its five
    attempts, sleeping 1000, 2000, 4000 and 8000 ms, and gives up. The
    breaker never rejects the fifth attempt, which comes 8000 ms after
    the fourth: the error reported is the operation's own, not the
    breaker's, and the breaker is left OPEN until 5000 ms after the
    fifth failure. *)
Theorem fifth_attempt_reaches_the_operation
    (fn : Operation W V) t0 w0 c1 c2 c3 c4 c5 :
  always_fails fn ->
  spaced 1 t0 [c1; c2; c3; c4; c5] ->
  exists e b w,
    searchWithRetry
      (List.map (searchMyDorway float_pct_ge fn) [c1; c2; c3; c4; c5]) 1
      (new "MyDorwaySite" mydorway_options t0, w0) =
      (GaveUp e, backoff, (b, w)) /\
    e <> CircuitOpen /\ state b = OPEN /\
    nextAttempt b = Some (c5.2 + 5000).
Proof.
  intros Hfn (H1a & H1b & H2a & H2b & H3a & H3b & H4a & H4b & H5a & H5b & _).
  change (retry_delay 1) with 1000 in H2a.
  change (retry_delay (1 + 1)) with 2000 in H3a.
  change (retry_delay (1 + 1 + 1)) with 4000 in H4a.
  change (retry_delay (1 + 1 + 1 + 1)) with 8000 in H5a.
  set (b0 := new "MyDorwaySite" mydorway_options t0).
  assert (Hs0 : settled_by t0 b0) by (split; cbn; congruence).
  destruct (attempt_step fn t0 c1 b0 w0 Hfn H1b H1a Hs0)
    as (e1 & b1 & w1 & E1 & C1 & S1 & K1 & _ & _).
  destruct (attempt_step fn c1.2 c2 b1 w1 Hfn H2b ltac:(lia) S1)
    as (e2 & b2 & w2 & E2 & C2 & S2 & K2 & O2 & _).
  destruct (attempt_step fn c2.2 c3 b2 w2 Hfn H3b ltac:(lia) S2)
    as (e3 & b3 & w3 & E3 & C3 & S3 & K3 & O3 & _).
  destruct (attempt_step fn c3.2 c4 b3 w3 Hfn H4b ltac:(lia) S3)
    as (e4 & b4 & w4 & E4 & C4 & S4 & _ & O4 & _).
  destruct (attempt_step fn c4.2 c5 b4 w4 Hfn H5b ltac:(lia) S4)
    as (e5 & b5 & w5 & E5 & C5 & S5 & _ & O5 & D5).
  assert (Hopen3 : state b3 = OPEN).
  { destruct (state b3) eqn:Hst3; [|reflexivity|destruct S3; congruence].
    exfalso. destruct (K3 eq_refl) as (Hst2 & Hf3 & Hlt3).
    destruct (K2 Hst2) as (Hst1 & Hf2 & _).
    destruct (K1 Hst1) as (_ & Hf1 & _).
    rewrite C2, C1 in Hlt3. cbn in Hlt3, Hf1. lia. }
  pose proof (O4 Hopen3) as Hopen4.
  assert (Hsw : sleepWindow (config b4) = 5000)
    by (rewrite C4, C3, C2, C1; reflexivity).
  destruct (D5 Hopen4 ltac:(lia)) as [Hne Hna].
  exists e5, b5, w5. split; [|split; [exact Hne|split; [auto|]]].
  - cbn [List.map].
    apply (searchWithRetry_all_throw _ _ _ _ _ (b0, w0) e1 e2 e3 e4 e5
             (b1, w1) (b2, w2) (b3, w3) (b4, w4) (b5, w5));
      unfold searchMyDorway; cbn [fst snd];
      [rewrite E1|rewrite E2|rewrite E3|rewrite E4|rewrite E5]; reflexivity.
  - rewrite Hna, Hsw. reflexivity.
Qed.

End OverTheBreaker.

Lemma fifth_attempt_reaches_the_operation_witness :
  exists e b w,
    searchWithRetry
      (List.map (searchMyDorway BreakerSpec.exact_pct_ge sample_operation)
         [(0, 10); (1010, 1020); (3020, 3030); (7030, 7040); (15040, 15050)])
      1 (new "MyDorwaySite" mydorway_options 0, 0%nat) =
      (GaveUp e, backoff, (b, w)) /\
    e <> CircuitOpen /\ state b = OPEN /\
    nextAttempt b = Some ((15040, 15050).2 + 5000).
Proof.
  apply (fifth_attempt_reaches_the_operation BreakerSpec.exact_pct_ge nat nat
           sample_operation 0 0%nat
           (0, 10) (1010, 1020) (3020, 3030) (7030, 7040) (15040, 15050)).
  - intros w. discriminate.
  - vm_compute. repeat split; discriminate.
Defined.

End RetryFacts.

(* ===================================================================== *)
(** * Properties of the logger                                            *)
(* ===================================================================== *)

Module LoggerFacts.
Import Logger LoggerSpec.
Local Open Scope Z_scope.

Local Arguments is_sensitive : simpl never.

(** Induction on JSON values, through arrays and objects. *)
Lemma JValue_nested_ind (P : JValue -> Prop) :
  P JNull -> (forall b, P (JBool b)) -> (forall n, P (JNumber n)) ->
  (forall s, P (JString s)) ->
  (forall items, Forall P items -> P (JArray items)) ->
  (forall entries,
     Forall (fun kv : string * JValue => P kv.2) entries ->
     P (JObject entries)) ->
  (forall nm msg stack, P (JError nm msg stack)) ->
  forall v, P v.
Proof.
  intros Hnull Hbool Hnum Hstr Harr Hobj Herr.
  fix IH 1. intros v. destruct v as [|b|n|s|items|entries|nm msg stack].
  - exact Hnull.
  - apply Hbool.
  - apply Hnum.
  - apply Hstr.
  - apply Harr. induction items as [|x items IHitems]; constructor.
    + apply IH.
    + exact IHitems.
  - apply Hobj. induction entries as [|[k x] entries IHentries]; constructor.
    + apply IH.
    + exact IHentries.
  - apply Herr.
Qed.

Lemma sanitizeObject_object v :
  is_object v = true -> is_object (sanitizeObject v) = true.
Proof. destruct v; cbn; auto. Qed.

Lemma clean_primitive v : is_object v = false -> clean v = true.
Proof. destruct v; cbn; auto; discriminate. Qed.

Lemma sanitizeObject_primitive v :
  is_object v = false -> sanitizeObject v = v.
Proof. destruct v; cbn; auto; discriminate. Qed.

Lemma sanitizeObject_clean v : clean (sanitizeObject v) = true.
Proof.
  induction v as [|b|n|s|items IH|entries IH|nm msg stack]
    using JValue_nested_ind; cbn; try reflexivity.
  - apply forallb_forall. intros x Hx. apply in_map_iff in Hx as (y & <- & Hy).
    rewrite List.Forall_forall in IH. apply IH, Hy.
  - apply forallb_forall. intros x Hx. apply in_map_iff in Hx as (kv & <- & Hkv).
    rewrite List.Forall_forall in IH. specialize (IH kv Hkv).
    destruct (is_sensitive kv.1) eqn:Hs; cbn; [rewrite Hs; reflexivity|].
    destruct (is_object kv.2) eqn:Ho; cbn; rewrite Hs; [exact IH|].
    apply clean_primitive, Ho.
Qed.

Lemma sanitizeObject_idempotent v :
  sanitizeObject (sanitizeObject v) = sanitizeObject v.
Proof.
  induction v as [|b|n|s|items IH|entries IH|nm msg stack]
    using JValue_nested_ind; cbn; try reflexivity.
  - f_equal. rewrite List.map_map. apply List.map_ext_in. intros x Hx.
    rewrite List.Forall_forall in IH. apply IH, Hx.
  - f_equal. rewrite List.map_map. apply List.map_ext_in. intros kv Hkv.
    rewrite List.Forall_forall in IH. specialize (IH kv Hkv).
    destruct (is_sensitive kv.1) eqn:Hs; cbn; [rewrite Hs; reflexivity|].
    destruct (is_object kv.2) eqn:Ho; cbn; rewrite Hs.
    + rewrite (sanitizeObject_object _ Ho), IH. reflexivity.
    + rewrite Ho. reflexivity.
Qed.

(** ** What [log] writes *)

Local Abbreviation entry_ok :=
  (fun kv : string * JValue =>
     (if is_sensitive kv.1 then is_redacted kv.2 else clean kv.2) = true).

Lemma sanitizeMeta_ok meta : Forall entry_ok (sanitizeMeta meta).
Proof.
  pose proof (sanitizeObject_clean (JObject meta)) as H. cbn in H.
  unfold sanitizeMeta. cbn.
  apply List.Forall_forall. intros kv Hkv.
  rewrite forallb_forall in H. apply (H kv Hkv).
Qed.

Lemma set_ok k v (m : list (string * JValue)) :
  Forall entry_ok m -> entry_ok (k, v) -> Forall entry_ok (JsMap.set k v m).
Proof.
  intros Hm Hkv. induction m as [|kv m IH]; cbn.
  - constructor; [exact Hkv | constructor].
  - inversion Hm; subst. destruct (JsMap.has_key k kv).
    + constructor; assumption.
    + constructor; [assumption | apply IH; assumption].
Qed.

Lemma spread_ok entries base :
  Forall entry_ok entries -> Forall entry_ok base ->
  Forall entry_ok (spread entries base).
Proof.
  unfold spread. intros He. revert base.
  induction He as [|[k v] entries Hkv He IH]; intros base Hb; cbn; [exact Hb|].
  apply IH. apply set_ok; assumption.
Qed.

(** X20. Whatever [meta] a caller passes, the entry that [log] writes to
    the console and buffers for CloudWatch holds, at every depth, nothing
    but the redaction mark under a key that [sanitizeMeta] takes for
    sensitive; so does every value [sanitizeObject] returns. (The
    correlation id is a string or [null].) *)
Theorem logged_entry_is_sanitized l message meta timestamp lg :
  is_object (correlationId lg) = false ->
  clean (JObject (logEntry l message meta timestamp lg)) = true /\
  forall v, clean (sanitizeObject v) = true.
Proof.
  intros Hcid. split; [|apply sanitizeObject_clean].
  assert (Hentry : Forall entry_ok (logEntry l message meta timestamp lg)).
  { unfold logEntry.
    set (e := spread _ _).
    assert (He : Forall entry_ok e).
    { apply spread_ok; [apply sanitizeMeta_ok|].
      repeat constructor. cbn [fst snd].
      change (is_sensitive "correlationId") with false. cbn iota.
      apply clean_primitive, Hcid. }
    destruct (JsMap.get "error" meta) as [[| | | | | |nm msg stack]|];
      try exact He.
    apply set_ok; [exact He | reflexivity]. }
  cbn [clean]. apply forallb_forall. intros kv Hkv.
  rewrite List.Forall_forall in Hentry. apply (Hentry kv Hkv).
Qed.


(** ** The list of sensitive words *)

Lemma prefix_has_char c n s :
  String.prefix n s = true -> has_char c n = true -> has_char c s = true.
Proof.
  revert s. induction n as [|a n IH]; intros s Hp Hc;
    [cbn in Hc; discriminate Hc|].
  destruct s as [|b s]; cbn in Hp; [discriminate Hp|].
  destruct (Ascii.ascii_dec a b) as [->|]; [|discriminate Hp].
  cbn in Hc |- *. apply orb_true_iff in Hc as [Hc|Hc].
  - rewrite Hc. reflexivity.
  - rewrite (IH s Hp Hc). apply orb_true_r.
Qed.

Lemma includes_has_char c n s :
  includes n s = true -> has_char c n = true -> has_char c s = true.
Proof.
  intros Hi Hc. induction s as [|b s IH].
  - change (String.prefix n "" || false = true) in Hi.
    rewrite orb_false_r in Hi. exact (prefix_has_char c n "" Hi Hc).
  - change (String.prefix n (String b s) || includes n s = true) in Hi.
    apply orb_true_iff in Hi as [Hp|Hi].
    + exact (prefix_has_char c n (String b s) Hp Hc).
    + cbn. rewrite (IH Hi). apply orb_true_r.
Qed.

Lemma lower_ascii_not_upper c : is_upper (lower_ascii c) = false.
Proof.
  destruct c as [[] [] [] [] [] [] [] []]; vm_compute; reflexivity.
Qed.

Lemma toLowerCase_no_upper c s :
  is_upper c = true -> has_char c (toLowerCase s) = false.
Proof.
  intros Hc. induction s as [|d s IH]; cbn; [reflexivity|].
  rewrite IH, orb_false_r. apply bool_decide_eq_false_2.
  intros Heq. pose proof (lower_ascii_not_upper d) as H.
  rewrite Heq in H. congruence.
Qed.

Lemma includes_upper_word c word key :
  is_upper c = true -> has_char c word = true ->
  includes word (toLowerCase key) = false.
Proof.
  intros Hu Hw. destruct (includes word (toLowerCase key)) eqn:E;
    [|reflexivity].
  pose proof (includes_has_char c _ _ E Hw) as H.
  rewrite (toLowerCase_no_upper c key Hu) in H. discriminate.
Qed.

(** X22. The key is put in lower case before it is compared, the words
    [apiKey] and [taxId] of the list are not: they match no key at all.
    A key is taken for sensitive exactly when its lower-case form
    contains one of the six other words; so a value under the key
    [apiKey] or [taxId] is logged as it is. *)
Theorem mixed_case_words_never_match key :
  includes "apiKey" (toLowerCase key) = false /\
  includes "taxId" (toLowerCase key) = false /\
  is_sensitive key =
    existsb (fun word => includes word (toLowerCase key)) lower_case_words /\
  (forall v, sanitizeMeta [("apiKey", v)] = [("apiKey", sanitizeObject v)]) /\
  (forall v, sanitizeMeta [("taxId", v)] = [("taxId", sanitizeObject v)]).
Proof.
  assert (H1 : includes "apiKey" (toLowerCase key) = false)
    by (apply (includes_upper_word (Ascii.ascii_of_nat 75)); reflexivity).
  assert (H2 : includes "taxId" (toLowerCase key) = false)
    by (apply (includes_upper_word (Ascii.ascii_of_nat 73)); reflexivity).
  split; [exact H1|]. split; [exact H2|]. split.
  - unfold is_sensitive, sensitiveKeys, lower_case_words. cbn [existsb].
    rewrite H1, H2. cbn [orb].
    repeat (destruct (includes _ (toLowerCase key)); cbn [orb]; try reflexivity).
  - split; intros v; unfold sanitizeMeta; cbn [sanitizeObject List.map fst snd];
      [change (is_sensitive "apiKey") with false
      |change (is_sensitive "taxId") with false]; cbn iota;
      destruct (is_object v) eqn:Ho; try reflexivity;
      rewrite (sanitizeObject_primitive v Ho); reflexivity.
Qed.

(** ** The buffer *)

(** X23. What [log] does with an entry. A message is dropped exactly
    when [LOG_LEVEL] names a level below the message's; with a
    [LOG_LEVEL] that names no level nothing is dropped. With CloudWatch
    off the logger is left as it was. With CloudWatch on, the entry is
    put behind the buffered ones, and if that brings the buffer to
    [bufferSize] the whole buffer is handed over at once and emptied: no
    entry is lost or reordered, and the buffer is left shorter than
    [bufferSize] (empty if [bufferSize] is not positive). *)
Theorem log_buffers_or_flushes l message meta timestamp lg :
  ((log l message meta timestamp lg).1.1 = None <->
   exists c, currentLevel lg = Some c /\ c < level_number l) /\
  ((log l message meta timestamp lg).1.1 = None ->
   log l message meta timestamp lg = (None, None, lg)) /\
  ((log l message meta timestamp lg).1.1 <> None ->
   (log l message meta timestamp lg).1.1 =
     Some (logEntry l message meta timestamp lg) /\
   if enableCloudWatch lg then
     default [] (log l message meta timestamp lg).1.2 ++
       buffer (log l message meta timestamp lg).2 =
       buffer lg ++ [logEntry l message meta timestamp lg] /\
     ((log l message meta timestamp lg).1.2 = None \/
      buffer (log l message meta timestamp lg).2 = []) /\
     Z.of_nat (length (buffer (log l message meta timestamp lg).2)) <
       Z.max 1 (bufferSize lg)
   else log l message meta timestamp lg =
          (Some (logEntry l message meta timestamp lg), None, lg)).
Proof.
  assert (Hsup : suppressed l lg = true <->
                 exists c, currentLevel lg = Some c /\ c < level_number l).
  { unfold suppressed. destruct (currentLevel lg) as [c|].
    - rewrite Z.ltb_lt. split; [intros H; exists c; auto|].
      intros (c0 & Heq & Hlt). inversion Heq; subst. exact Hlt.
    - split; [discriminate|]. intros (c0 & Heq & _). discriminate. }
  unfold log. destruct (suppressed l lg).
  { cbn. split; [split; [intros _; apply Hsup; reflexivity | reflexivity]|].
    split; [reflexivity | congruence]. }
  assert (Hno : ~ exists c, currentLevel lg = Some c /\ c < level_number l)
    by (intros H; apply Hsup in H; discriminate).
  set (entry := logEntry l message meta timestamp lg).
  destruct (enableCloudWatch lg) eqn:Hcw.
  - cbn [buffer set_buffer bufferSize].
    destruct (Z.of_nat (length (buffer lg ++ [entry])) >=? bufferSize lg)
      eqn:Hfull.
    + unfold flush_begin. cbn [enableCloudWatch set_buffer buffer].
      rewrite Hcw. cbn [negb orb].
      rewrite bool_decide_eq_false_2 by (destruct (buffer lg); discriminate).
      cbn [fst snd buffer set_buffer default].
      split; [split; [discriminate | intros H; destruct (Hno H)]|].
      split; [discriminate|]. intros _. split; [reflexivity|].
      rewrite app_nil_r. split; [reflexivity|]. split; [auto|]. cbn. lia.
    + cbn [fst snd buffer set_buffer default].
      split; [split; [discriminate | intros H; destruct (Hno H)]|].
      split; [discriminate|]. intros _. split; [reflexivity|].
      split; [reflexivity|]. split; [auto|].
      rewrite Z.geb_leb in Hfull. apply Z.leb_gt in Hfull. lia.
  - cbn [fst snd].
    split; [split; [discriminate | intros H; destruct (Hno H)]|].
    split; [discriminate|]. intros _. split; reflexivity.
Qed.

Lemma set_buffer_same lg : set_buffer (buffer lg) lg = lg.
Proof. destruct lg; reflexivity. Qed.

(** X24. [flush] does nothing when CloudWatch is off or the buffer is
    empty; else it takes the whole buffer as one batch and leaves the
    buffer empty. If sending the batch fails before anything else is
    logged, the [catch] puts the batch back and the logger is as before
    the [flush]; entries logged in between stay behind the batch; but
    once the buffer holds [bufferSize] entries or more (always, when
    [bufferSize] is not positive) the batch is dropped. *)
Theorem failed_flush_puts_the_batch_back lg :
  match (flush_begin lg).1 with
  | None =>
      (flush_begin lg).2 = lg /\
      (enableCloudWatch lg = false \/ buffer lg = [])
  | Some logs =>
      logs = buffer lg /\ logs <> [] /\ enableCloudWatch lg = true /\
      buffer (flush_begin lg).2 = [] /\
      (0 < bufferSize lg -> flush_failed logs (flush_begin lg).2 = lg) /\
      (forall later,
         let lg' := set_buffer later (flush_begin lg).2 in
         (Z.of_nat (length later) < bufferSize lg ->
          buffer (flush_failed logs lg') = logs ++ later) /\
         (bufferSize lg <= Z.of_nat (length later) ->
          flush_failed logs lg' = lg'))
  end.
Proof.
  unfold flush_begin.
  destruct (enableCloudWatch lg) eqn:Hcw; cbn [negb orb]; [|cbn; auto].
  destruct (decide (buffer lg = [])) as [He|Hne].
  - rewrite bool_decide_eq_true_2 by exact He. cbn. auto.
  - rewrite bool_decide_eq_false_2 by exact Hne. cbn [fst snd].
    split; [reflexivity|]. split; [exact Hne|]. split; [reflexivity|].
    split; [reflexivity|]. split.
    + intros Hpos. unfold flush_failed. cbn [buffer set_buffer bufferSize length].
      destruct (Z.ltb_spec (Z.of_nat 0) (bufferSize lg)) as [_|Hge]; [|lia].
      rewrite app_nil_r. destruct lg; reflexivity.
    + intros later. cbn zeta. unfold flush_failed.
      cbn [buffer set_buffer bufferSize].
      destruct (Z.ltb_spec (Z.of_nat (length later)) (bufferSize lg))
        as [Hlt|Hge]; split; intros H; try lia; reflexivity.
Qed.

Lemma failed_flush_puts_the_batch_back_witness :
  flush_failed [[("message", JString "m")]]
    (flush_begin (set_buffer [[("message", JString "m")]] sample_logger)).2 =
    set_buffer [[("message", JString "m")]] sample_logger.
Proof.
  apply (failed_flush_puts_the_batch_back
           (set_buffer [[("message", JString "m")]] sample_logger)).
  reflexivity.
Defined.

Lemma logged_entry_is_sanitized_witness :
  clean (JObject (logEntry ERROR "Page error" sample_meta "t0" sample_logger)) =
    true /\
  forall v, clean (sanitizeObject v) = true.
Proof.
  apply (logged_entry_is_sanitized ERROR "Page error" sample_meta "t0"
           sample_logger).
  reflexivity.
Defined.

End LoggerFacts.
